(** * NutriTrackAi: the local persistence layer

    A shallow embedding of [types.ts] and of the [StorageService] class
    (services/storageService.ts), followed by the properties of the
    persistence layer: canonical date keys, the save/load round trip, the
    "do not persist empty days" policy, the fallback routing and the error
    taxonomy.

    The code around the service is embedded as well: the callbacks of
    [App.tsx] that call it, the email export
    (services/emailExportService.ts), the size functions of
    utils/imageCompression.ts, the item edits of components/MealInput.tsx
    and [isToday] of components/Dashboard.tsx.  Their properties follow
    those of the persistence layer.

    Conventions of the embedding:
    - a JS number that the code only stores (nutrient values) is an element
      of an abstract type [number]; a JS number that the code formats or
      does calendar arithmetic on (year, month, day, timestamps) is an
      integer-valued number, modelled by [Z];
    - a JS object used as a dictionary ([Record<string, MealRecord>]) is a
      [gmap string _]; a JS [Map] and an IndexedDB object store, whose
      enumeration order is observable, are association lists;
    - an [async] method is a state transformer over a [World] that returns
      how its promise settles; what the host does during the call (whether
      [indexedDB] exists, how the open request and the transaction end, the
      clock) is the [Env] argument of the call;
    - a callback of the component is a transformer of the state of the
      component and of the [World]; what it asks of the page (a share, a
      download, a navigation, a timer, a line on the console) is recorded in
      that state;
    - a JS number that the code divides (the size of an image) is a
      rational number. *)

From Stdlib Require Import ZArith Lia List Bool String Ascii.
From Stdlib Require Import DecimalString DecimalZ Sorted Permutation QArith.
From stdpp Require Import base option list gmap strings.

Local Open Scope string_scope.
Local Open Scope Z_scope.

(* ================================================================== *)
(** * Host primitives (ECMAScript and IndexedDB) *)
(* ================================================================== *)

Module Js.

(** [String(n)] and [`${n}`] for an integer-valued number: the decimal
    digits, with a leading minus sign for a negative one. *)
Definition Number_toString (n : Z) : string :=
  NilZero.string_of_int (Z.to_int n).

Fixpoint repeat_string (c : ascii) (n : nat) : string :=
  match n with
  | O => ""
  | S k => String c (repeat_string c k)
  end.

(** [s.padStart(targetLength, c)] with a one-character pad string. *)
Definition padStart (targetLength : nat) (padString : ascii) (s : string)
  : string :=
  (repeat_string padString (targetLength - String.length s) ++ s)%string.

(** [Boolean(x)] for [x : string | undefined]: [undefined] and the empty
    string are falsy, every other string is truthy. *)
Definition Boolean (x : option string) : bool :=
  match x with
  | None => false
  | Some s => negb (String.eqb s "")
  end.

(** [a.localeCompare(b)] on strings made of ASCII digits and hyphens, where
    collation order and code-unit order agree (hyphen before every digit). *)
Definition localeCompare (a b : string) : Z :=
  match String.compare a b with
  | Lt => -1
  | Eq => 0
  | Gt => 1
  end.

(** [Array.prototype.sort(cmp)]: a stable sort. *)
Fixpoint sort_insert {A : Type} (cmp : A -> A -> Z) (x : A) (l : list A)
  : list A :=
  match l with
  | [] => [x]
  | y :: l' => if (cmp x y <=? 0)%Z then x :: y :: l' else y :: sort_insert cmp x l'
  end.

Definition Array_sort {A : Type} (cmp : A -> A -> Z) (l : list A) : list A :=
  fold_right (sort_insert cmp) [] l.

(** The order that a comparator induces: [a] may come before [b]. *)
Definition comparator_le {A : Type} (cmp : A -> A -> Z) (a b : A) : Prop :=
  (cmp a b <=? 0)%Z = true.

(** ** [Map<string, V>]: entries in insertion order *)

Section Assoc.
Context {V : Type}.

Fixpoint Map_get (k : string) (l : list (string * V)) : option V :=
  match l with
  | [] => None
  | (k', v) :: l' => if String.eqb k k' then Some v else Map_get k l'
  end.

(** [set] keeps the position of a key that is already present and appends
    a new key at the end. *)
Fixpoint Map_set (k : string) (v : V) (l : list (string * V))
  : list (string * V) :=
  match l with
  | [] => [(k, v)]
  | (k', v') :: l' =>
      if String.eqb k k' then (k, v) :: l' else (k', v') :: Map_set k v l'
  end.

Fixpoint Map_delete (k : string) (l : list (string * V))
  : list (string * V) :=
  match l with
  | [] => []
  | (k', v') :: l' =>
      if String.eqb k k' then Map_delete k l' else (k', v') :: Map_delete k l'
  end.

(** The values in the order [forEach] visits them. *)
Definition Map_values (l : list (string * V)) : list V := map snd l.

(** ** IndexedDB object store: one record per key, in ascending key order *)

Fixpoint IDB_insert (k : string) (v : V) (l : list (string * V))
  : list (string * V) :=
  match l with
  | [] => [(k, v)]
  | (k', v') :: l' =>
      if String.ltb k k' then (k, v) :: (k', v') :: l'
      else (k', v') :: IDB_insert k v l'
  end.

(** [put] replaces the record that has the key, if any. *)
Definition IDB_put (k : string) (v : V) (l : list (string * V))
  : list (string * V) :=
  IDB_insert k v (Map_delete k l).

Definition IDB_get := Map_get.
Definition IDB_delete := Map_delete.
Definition IDB_getAll := Map_values.
End Assoc.

(** ** Date: time values and calendar fields (ECMA-262, Date Objects)

    A time value is a number of milliseconds since the epoch; a [Date]
    holds a time value or is invalid.  All divisions are floor divisions. *)

Definition msPerDay : Z := 86400000.

Definition Day (t : Z) : Z := t / msPerDay.

Definition TimeWithinDay (t : Z) : Z := t mod msPerDay.

Definition DaysInYear (y : Z) : Z :=
  if negb (y mod 4 =? 0) then 365
  else if negb (y mod 100 =? 0) then 366
  else if negb (y mod 400 =? 0) then 365
  else 366.

Definition DayFromYear (y : Z) : Z :=
  365 * (y - 1970) + (y - 1969) / 4 - (y - 1901) / 100 + (y - 1601) / 400.

Definition TimeFromYear (y : Z) : Z := msPerDay * DayFromYear y.

(** The largest [y] such that [TimeFromYear y <= t]: the year that the mean
    length of a year gives, corrected by at most one either way. *)
Definition YearFromTime (t : Z) : Z :=
  let y := 1970 + (400 * Day t) / 146097 + 1 in
  if TimeFromYear y <=? t then y
  else if TimeFromYear (y - 1) <=? t then y - 1
  else y - 2.

Definition InLeapYear (t : Z) : Z :=
  if DaysInYear (YearFromTime t) =? 366 then 1 else 0.

Definition DayWithinYear (t : Z) : Z := Day t - DayFromYear (YearFromTime t).

(** The table of [MonthFromTime]: the month of the day [d] of a year, where
    [L] is 1 in a leap year and 0 otherwise. *)
Definition monthOfDay (d L : Z) : Z :=
  if d <? 31 then 0
  else if d <? 59 + L then 1
  else if d <? 90 + L then 2
  else if d <? 120 + L then 3
  else if d <? 151 + L then 4
  else if d <? 181 + L then 5
  else if d <? 212 + L then 6
  else if d <? 243 + L then 7
  else if d <? 273 + L then 8
  else if d <? 304 + L then 9
  else if d <? 334 + L then 10
  else 11.

Definition MonthFromTime (t : Z) : Z :=
  monthOfDay (DayWithinYear t) (InLeapYear t).

(** The table of [DateFromTime]. *)
Definition dateOfDay (month d L : Z) : Z :=
  match month with
  | 0 => d + 1
  | 1 => d - 30
  | 2 => d - 58 - L
  | 3 => d - 89 - L
  | 4 => d - 119 - L
  | 5 => d - 150 - L
  | 6 => d - 180 - L
  | 7 => d - 211 - L
  | 8 => d - 242 - L
  | 9 => d - 272 - L
  | 10 => d - 303 - L
  | _ => d - 333 - L
  end.

Definition DateFromTime (t : Z) : Z :=
  dateOfDay (MonthFromTime t) (DayWithinYear t) (InLeapYear t).

(** The day within the year on which month [mn] starts. *)
Definition firstDayOfMonth (mn L : Z) : Z :=
  match mn with
  | 0 => 0
  | 1 => 31
  | 2 => 59 + L
  | 3 => 90 + L
  | 4 => 120 + L
  | 5 => 151 + L
  | 6 => 181 + L
  | 7 => 212 + L
  | 8 => 243 + L
  | 9 => 273 + L
  | 10 => 304 + L
  | _ => 334 + L
  end.

(** [MakeDay]: [t] is the time value of the first day of month [mn] of year
    [ym]. *)
Definition MakeDay (year month date : Z) : Z :=
  let ym := year + month / 12 in
  let mn := month mod 12 in
  let t := TimeFromYear ym +
           msPerDay * firstDayOfMonth mn (if DaysInYear ym =? 366 then 1 else 0) in
  Day t + date - 1.

Definition MakeTime (hour min sec ms : Z) : Z :=
  hour * 3600000 + min * 60000 + sec * 1000 + ms.

Definition MakeDate (day time : Z) : Z := day * msPerDay + time.

Definition TimeClip (time : Z) : option Z :=
  if Z.abs time >? 8640000000000000 then None else Some time.

(** A Date object: its time value, or [None] for an invalid date (NaN). *)
Definition Date : Type := option Z.

(** The host's time zone: [LocalTZA t isUTC] is the offset of local time
    from UTC, in milliseconds, at the time value [t]. *)
Section HostTimeZone.
Variable LocalTZA : Z -> bool -> Z.

Definition LocalTime (t : Z) : Z := t + LocalTZA t true.
Definition UTC (t : Z) : Z := t - LocalTZA t false.

(** [new Date(year, monthIndex, date)]: a year from 0 to 99 means a year
    of the twentieth century. *)
Definition Date_new (year month date : Z) : Date :=
  let yr := if (0 <=? year) && (year <=? 99) then 1900 + year else year in
  let finalDate := MakeDate (MakeDay yr month date) (MakeTime 0 0 0 0) in
  TimeClip (UTC finalDate).

Definition getFullYear (d : Date) : option Z :=
  option_map (fun t => YearFromTime (LocalTime t)) d.

Definition getMonth (d : Date) : option Z :=
  option_map (fun t => MonthFromTime (LocalTime t)) d.

Definition getDate (d : Date) : option Z :=
  option_map (fun t => DateFromTime (LocalTime t)) d.
End HostTimeZone.

(** ** The time of day *)

Definition msPerHour : Z := 3600000.
Definition msPerMinute : Z := 60000.

Definition HourFromTime (t : Z) : Z := (t / msPerHour) mod 24.
Definition MinFromTime (t : Z) : Z := (t / msPerMinute) mod 60.

(** [a === b] on numbers: NaN is not equal to itself. *)
Definition strictEquals (a b : option Z) : bool :=
  match a, b with
  | Some x, Some y => x =? y
  | _, _ => false
  end.

(** ** Strings

    [s.split(sep)] with a one-character separator: the pieces between the
    occurrences of the separator. *)
Fixpoint String_split (sep : ascii) (s : string) : list string :=
  match s with
  | EmptyString => [EmptyString]
  | String c s' =>
      if Ascii.eqb c sep then EmptyString :: String_split sep s'
      else
        match String_split sep s' with
        | piece :: rest => String c piece :: rest
        | [] => [String c EmptyString]
        end
  end.

(** [(s.match(/c/g) || []).length]: the number of occurrences of [c]. *)
Fixpoint count_matches (c : ascii) (s : string) : nat :=
  match s with
  | EmptyString => O
  | String c' s' =>
      if Ascii.eqb c' c then S (count_matches c s') else count_matches c s'
  end.

(** ** [URLSearchParams]: the application/x-www-form-urlencoded serializer

    It works on the bytes of the UTF-8 encoding of a string, which is what
    a string of this file holds for a text that is not ASCII. *)

Definition isAsciiAlphanumeric (c : ascii) : bool :=
  let n := nat_of_ascii c in
  ((48 <=? n) && (n <=? 57) || (65 <=? n) && (n <=? 90) ||
   (97 <=? n) && (n <=? 122))%nat.

Definition hexDigit (n : nat) : ascii :=
  if (n <? 10)%nat then ascii_of_nat (48 + n) else ascii_of_nat (55 + n).

Definition percentEncode (c : ascii) : string :=
  let n := nat_of_ascii c in
  String "%" (String (hexDigit (n / 16)) (String (hexDigit (n mod 16)) "")).

Definition urlencodedByte (c : ascii) : string :=
  if Ascii.eqb c " " then "+"
  else if isAsciiAlphanumeric c || Ascii.eqb c "*" || Ascii.eqb c "-" ||
          Ascii.eqb c "." || Ascii.eqb c "_"
       then String c ""
       else percentEncode c.

Fixpoint urlencoded (s : string) : string :=
  match s with
  | EmptyString => ""
  | String c s' => urlencodedByte c ++ urlencoded s'
  end.

(** [new URLSearchParams(init).toString()], for the name-value pairs of
    [init] in order. *)
Fixpoint URLSearchParams_toString (init : list (string * string)) : string :=
  match init with
  | [] => ""
  | [(name, value)] => urlencoded name ++ "=" ++ urlencoded value
  | (name, value) :: rest =>
      urlencoded name ++ "=" ++ urlencoded value ++ "&" ++
      URLSearchParams_toString rest
  end.

End Js.

(* ================================================================== *)
(** * types.ts *)
(* ================================================================== *)

Module Types.

Inductive MealType :=
| MORNING_SNACK
| BREAKFAST
| LATE_MORNING_SNACK
| LUNCH
| AFTERNOON_SNACK
| DINNER
| EVENING_SNACK.

(** The string value of each enum member. *)
Definition MealType_value (t : MealType) : string :=
  match t with
  | MORNING_SNACK => "아침전 간식"
  | BREAKFAST => "아침"
  | LATE_MORNING_SNACK => "아침-점심 사이 간식"
  | LUNCH => "점심"
  | AFTERNOON_SNACK => "점심-저녁 사이 간식"
  | DINNER => "저녁"
  | EVENING_SNACK => "저녁 간식"
  end.

(** [Object.values(MealType)], in declaration order. *)
Definition MealType_values : list MealType :=
  [MORNING_SNACK; BREAKFAST; LATE_MORNING_SNACK; LUNCH; AFTERNOON_SNACK;
   DINNER; EVENING_SNACK].

Record DateKey := {
  year : Z;
  month : Z;
  day : Z
}.

Section Records.
Context {number : Type}.

Record FoodItem := {
  id : string;
  name : string;
  calories : number;
  carbs : number;
  protein : number;
  fat : number;
  sugar : number;
  sodium : number;
  cholesterol : number
}.

Record MealRecord := {
  type : MealType;
  items : list FoodItem;
  image : option string
}.

Record DailyMealData := {
  date : DateKey;
  meals : gmap string MealRecord;
  lastModified : Z
}.
End Records.

Arguments FoodItem : clear implicits.
Arguments MealRecord : clear implicits.
Arguments DailyMealData : clear implicits.

(** [dateToKey] and [keyToDate], for a host of time zone [LocalTZA].  The
    getters of an invalid date return NaN: there is no [DateKey] then. *)
Section DateConversion.
Variable LocalTZA : Z -> bool -> Z.

Definition dateToKey (date : Js.Date) : option DateKey :=
  match Js.getFullYear LocalTZA date, Js.getMonth LocalTZA date,
        Js.getDate LocalTZA date with
  | Some y, Some m, Some d => Some {| year := y; month := m + 1; day := d |}
  | _, _, _ => None
  end.

Definition keyToDate (key : DateKey) : Js.Date :=
  Js.Date_new LocalTZA (year key) (month key - 1) (day key).
End DateConversion.

End Types.

(* ================================================================== *)
(** * services/storageService.ts *)
(* ================================================================== *)

Module StorageService.
Import Js Types.

Inductive StorageErrorType :=
| DB_OPEN_FAILED
| SAVE_FAILED
| LOAD_FAILED
| DELETE_FAILED
| QUOTA_EXCEEDED
| NOT_SUPPORTED
| UNKNOWN.

(** The string value of each enum member. *)
Definition StorageErrorType_value (t : StorageErrorType) : string :=
  match t with
  | DB_OPEN_FAILED => "DB_OPEN_FAILED"
  | SAVE_FAILED => "SAVE_FAILED"
  | LOAD_FAILED => "LOAD_FAILED"
  | DELETE_FAILED => "DELETE_FAILED"
  | QUOTA_EXCEEDED => "QUOTA_EXCEEDED"
  | NOT_SUPPORTED => "NOT_SUPPORTED"
  | UNKNOWN => "UNKNOWN"
  end.

(** An exception or error object of the host; the code reads its [name]. *)
Record DOMException := { exn_name : string }.

Record StorageError := {
  type : StorageErrorType;
  userMessage : string;
  originalError : option DOMException
}.

(** How a promise settles. *)
Inductive PromiseResult (A : Type) :=
| Resolved (a : A)
| Rejected (e : StorageError).
Arguments Resolved {A} a.
Arguments Rejected {A} e.

(** What the host does during one call of a method.  A request either
    throws when it is made or ends by firing one of the handlers that the
    code registers on it; an ending that fires none of them, which would
    leave the promise pending, is not considered. *)
Inductive OpenOutcome :=
| Open_throws (e : DOMException)            (* [indexedDB.open] throws *)
| Open_onerror (e : option DOMException)    (* [request.onerror], [request.error] *)
| Open_onsuccess.                           (* [onupgradeneeded] if needed, then [request.onsuccess] *)

Inductive TxOutcome :=
| Tx_throws (e : DOMException)              (* [transaction()] or the request throws *)
| Tx_onerror (e : option DOMException)      (* the error handler fires; the error read there *)
| Tx_success.                               (* the success/complete handler fires *)

Record Env := {
  indexedDB_defined : bool;                 (* [typeof indexedDB !== 'undefined'] *)
  open_outcome : OpenOutcome;
  tx_outcome : TxOutcome;
  Date_now : Z
}.

Inductive IDBTransactionMode := readonly | readwrite.

Inductive IDBCall :=
| IDB_open (name : string) (version : Z)
| IDB_transaction (storeNames : list string) (mode : IDBTransactionMode).

Record IDBDatabase := { db_name : string; db_version : Z }.

(** A registered error callback, identified by a number. *)
Definition Callback := nat.

Definition dbName : string := "MealTrackerDB".
Definition storeName : string := "mealRecords".
Definition version : Z := 1.

(** Private helper to convert DateKey to string key for IndexedDB. *)
Definition dateToKey (date : DateKey) : string :=
  (Number_toString (year date) ++ "-" ++
   padStart 2 "0" (Number_toString (month date)) ++ "-" ++
   padStart 2 "0" (Number_toString (day date)))%string.

Section WithNumber.
Context {number : Type}.

(** [{ ...data, dateKey }]: the fields of [data] and the key. *)
Record DataWithKey := {
  data : DailyMealData number;
  dateKey : string
}.

Record IDBObjectStore := {
  keyPath : string;
  records : list (string * DataWithKey)
}.

(** The fields of the class instance. *)
Record Service := {
  db : option IDBDatabase;
  useFallback : bool;
  fallbackStorage : list (string * DailyMealData number);
  errorCallback : option Callback
}.

(** The host: the object store [mealRecords] of the database (absent until
    an upgrade creates it), the calls made on [indexedDB] and on the
    connection, and what the console and the callbacks received. *)
Record Host := {
  objectStore : option IDBObjectStore;
  idbCalls : list IDBCall;
  console_error : list StorageError;
  callbackCalls : list (Callback * StorageError)
}.

Record World := {
  this : Service;
  host : Host
}.

Definition newService : Service :=
  {| db := None; useFallback := false; fallbackStorage := [];
     errorCallback := None |}.

Definition newHost : Host :=
  {| objectStore := None; idbCalls := []; console_error := [];
     callbackCalls := [] |}.

Definition initialWorld : World := {| this := newService; host := newHost |}.

(** ** Field updates *)

Definition with_this (f : Service -> Service) (w : World) : World :=
  {| this := f (this w); host := host w |}.

Definition with_host (f : Host -> Host) (w : World) : World :=
  {| this := this w; host := f (host w) |}.

Definition set_db (x : option IDBDatabase) (s : Service) : Service :=
  {| db := x; useFallback := useFallback s;
     fallbackStorage := fallbackStorage s; errorCallback := errorCallback s |}.

Definition set_useFallback (x : bool) (s : Service) : Service :=
  {| db := db s; useFallback := x;
     fallbackStorage := fallbackStorage s; errorCallback := errorCallback s |}.

Definition set_fallbackStorage (x : list (string * DailyMealData number))
    (s : Service) : Service :=
  {| db := db s; useFallback := useFallback s;
     fallbackStorage := x; errorCallback := errorCallback s |}.

Definition set_errorCallback (x : option Callback) (s : Service) : Service :=
  {| db := db s; useFallback := useFallback s;
     fallbackStorage := fallbackStorage s; errorCallback := x |}.

Definition set_objectStore (x : option IDBObjectStore) (h : Host) : Host :=
  {| objectStore := x; idbCalls := idbCalls h;
     console_error := console_error h; callbackCalls := callbackCalls h |}.

Definition add_idbCall (c : IDBCall) (h : Host) : Host :=
  {| objectStore := objectStore h; idbCalls := idbCalls h ++ [c];
     console_error := console_error h; callbackCalls := callbackCalls h |}.

Definition add_console_error (e : StorageError) (h : Host) : Host :=
  {| objectStore := objectStore h; idbCalls := idbCalls h;
     console_error := console_error h ++ [e];
     callbackCalls := callbackCalls h |}.

Definition add_callbackCall (cb : Callback) (e : StorageError) (h : Host)
  : Host :=
  {| objectStore := objectStore h; idbCalls := idbCalls h;
     console_error := console_error h;
     callbackCalls := callbackCalls h ++ [(cb, e)] |}.

(** ** Methods as state transformers *)

Definition M (A : Type) : Type := World -> A * World.

Definition ret {A : Type} (a : A) : M A := fun w => (a, w).

Definition bind {A B : Type} (c : M A) (f : A -> M B) : M B :=
  fun w => let (a, w') := c w in f a w'.

Definition get : M World := fun w => (w, w).

Definition modify (f : World -> World) : M unit := fun w => (tt, f w).
End WithNumber.

Arguments DataWithKey : clear implicits.
Arguments IDBObjectStore : clear implicits.
Arguments Service : clear implicits.
Arguments Host : clear implicits.
Arguments World : clear implicits.
Arguments M : clear implicits.

Declare Scope method_scope.
Delimit Scope method_scope with method.
Notation "x <- c ;; k" := (bind c (fun x => k))
  (at level 100, c at next level, k at level 200, right associativity)
  : method_scope.
Notation "c ;; k" := (bind c (fun _ => k))
  (at level 100, k at level 200, right associativity) : method_scope.
Local Open Scope method_scope.

Section Methods.
Context {number : Type}.
Abbreviation M := (M number).

(** Set error callback for user notifications *)
Definition setErrorCallback (callback : Callback) : M unit :=
  modify (with_this (set_errorCallback (Some callback))).

(** Private helper to notify errors to the callback. *)
Definition notifyError (error : StorageError) : M unit :=
  modify (with_host (add_console_error error)) ;;
  w <- get ;;
  match errorCallback (this w) with
  | Some cb => modify (with_host (add_callbackCall cb error))
  | None => ret tt
  end.

(** The upgrade handler: create the object store if it doesn't exist. *)
Definition onupgradeneeded : M unit :=
  w <- get ;;
  match objectStore (host w) with
  | Some _ => ret tt
  | None =>
      modify (with_host (set_objectStore
        (Some {| keyPath := "dateKey"; records := [] |})))
  end.

(** Initialize the IndexedDB database connection. *)
Definition init (env : Env) : M (PromiseResult unit) :=
  if negb (indexedDB_defined env) then
    modify (with_this (set_useFallback true)) ;;
    notifyError
      {| type := NOT_SUPPORTED;
         userMessage := "브라우저가 데이터 저장을 지원하지 않습니다. 임시 저장소를 사용합니다.";
         originalError := None |} ;;
    ret (Resolved tt)
  else
    modify (with_host (add_idbCall (IDB_open dbName version))) ;;
    match open_outcome env with
    | Open_onerror e =>
        modify (with_this (set_useFallback true)) ;;
        notifyError
          {| type := DB_OPEN_FAILED;
             userMessage := "데이터베이스를 열 수 없습니다. 임시 저장소를 사용합니다.";
             originalError := e |} ;;
        ret (Resolved tt)
    | Open_onsuccess =>
        onupgradeneeded ;;
        modify (with_this (set_db
          (Some {| db_name := dbName; db_version := version |}))) ;;
        modify (with_this (set_useFallback false)) ;;
        ret (Resolved tt)
    | Open_throws e =>
        modify (with_this (set_useFallback true)) ;;
        notifyError
          {| type := DB_OPEN_FAILED;
             userMessage := "데이터베이스 초기화 중 오류가 발생했습니다. 임시 저장소를 사용합니다.";
             originalError := Some e |} ;;
        ret (Resolved tt)
    end.

(** Check whether a single meal record contains user-entered data. *)
Definition hasMealData (record : option (MealRecord number)) : bool :=
  match record with
  | None => false
  | Some r => (0 <? Z.of_nat (length (items r))) || Boolean (image r)
  end.

(** Check whether any meal record for a day contains user-entered data. *)
Definition hasAnyMealData (meals : gmap string (MealRecord number)) : bool :=
  existsb (fun record => hasMealData (Some record))
          (map snd (map_to_list meals)).

(** Helper to create empty meal records *)
Definition getEmptyMealRecords : gmap string (MealRecord number) :=
  fold_left
    (fun emptyMeals mealType =>
       <[MealType_value mealType :=
           {| Types.type := mealType; items := []; image := None |}]>
         emptyMeals)
    MealType_values ∅.

(** [if (!this.db) { await this.init(); }] followed by reading [this.db]. *)
Definition lazyInit (env : Env) : M (option IDBDatabase) :=
  w <- get ;;
  match db (this w) with
  | Some c => ret (Some c)
  | None => init env ;; w' <- get ;; ret (db (this w'))
  end.

(** The prologue that each of the five data methods repeats:
    [if (this.useFallback) { <fallback> }
     if (!this.db) { await this.init(); if (!this.db) { <fallback> } }
     return new Promise(<promise>)]. *)
Definition routed {A : Type} (env : Env) (fallback promise : M A) : M A :=
  w <- get ;;
  if useFallback (this w) then fallback
  else
    odb <- lazyInit env ;;
    match odb with
    | None => fallback
    | Some _ => promise
    end.

(** [this.db!.transaction([storeName], mode)] and
    [transaction.objectStore(storeName)], and how the request made on the
    store ends. *)
Inductive Attempt :=
| Threw (e : DOMException)
| Errored (e : option DOMException)
| Succeeded (store : IDBObjectStore number).

Definition transaction (env : Env) (mode : IDBTransactionMode) : M Attempt :=
  modify (with_host (add_idbCall (IDB_transaction [storeName] mode))) ;;
  w <- get ;;
  ret match tx_outcome env, objectStore (host w) with
      | Tx_throws e, _ => Threw e
      | _, None => Threw {| exn_name := "NotFoundError" |}
      | Tx_onerror e, Some _ => Errored e
      | Tx_success, Some store => Succeeded store
      end.

(** [store.put(value)] on a store with an in-line key: the key is read from
    the value at the key path; the value has a string at [dateKey] only. *)
Definition store_put (store : IDBObjectStore number)
    (value : DataWithKey number) : option (IDBObjectStore number) :=
  if String.eqb (keyPath store) "dateKey" then
    Some {| keyPath := keyPath store;
            records := IDB_put (dateKey value) value (records store) |}
  else None.

Definition store_delete (store : IDBObjectStore number) (key : string)
  : IDBObjectStore number :=
  {| keyPath := keyPath store; records := IDB_delete key (records store) |}.

Definition fallback_set (dateKey : string) (d : DailyMealData number)
  : M unit :=
  modify (with_this (fun s =>
    set_fallbackStorage (Map_set dateKey d (fallbackStorage s)) s)).

Definition fallback_delete (dateKey : string) : M unit :=
  modify (with_this (fun s =>
    set_fallbackStorage (Map_delete dateKey (fallbackStorage s)) s)).

(** [this.notifyError(error); reject(error);] *)
Definition reject {A : Type} (error : StorageError) : M (PromiseResult A) :=
  notifyError error ;; ret (Rejected error).

(** The promise of [deleteMealRecords]. *)
Definition delete_promise (env : Env) (dateKey : string)
  : M (PromiseResult unit) :=
  r <- transaction env readwrite ;;
  match r with
  | Succeeded store =>
      modify (with_host
        (set_objectStore (Some (store_delete store dateKey)))) ;;
      ret (Resolved tt)
  | Errored e =>
      reject {| type := DELETE_FAILED;
                userMessage := "데이터 삭제에 실패했습니다.";
                originalError := e |}
  | Threw e =>
      reject {| type := DELETE_FAILED;
                userMessage := "데이터 삭제 중 오류가 발생했습니다.";
                originalError := Some e |}
  end.

(** Delete meal records for a specific date. *)
Definition deleteMealRecords (env : Env) (date : DateKey)
  : M (PromiseResult unit) :=
  let dateKey := dateToKey date in
  routed env
    (fallback_delete dateKey ;; ret (Resolved tt))
    (delete_promise env dateKey).

(** [transaction.error?.name === 'QuotaExceededError'] *)
Definition isQuotaExceeded (e : option DOMException) : bool :=
  match e with
  | Some err => String.eqb (exn_name err) "QuotaExceededError"
  | None => false
  end.

(** The promise of [saveMealRecords]. *)
Definition save_promise (env : Env) (dateKey : string)
    (data : DailyMealData number) : M (PromiseResult unit) :=
  r <- transaction env readwrite ;;
  match r with
  | Succeeded store =>
      let dataWithKey := {| data := data; dateKey := dateKey |} in
      match store_put store dataWithKey with
      | Some store' =>
          modify (with_host (set_objectStore (Some store'))) ;;
          ret (Resolved tt)
      | None =>
          reject {| type := SAVE_FAILED;
                    userMessage := "데이터 저장 중 오류가 발생했습니다.";
                    originalError := Some {| exn_name := "DataError" |} |}
      end
  | Errored e =>
      (* Check for quota exceeded error *)
      if isQuotaExceeded e then
        reject {| type := QUOTA_EXCEEDED;
                  userMessage := "저장 공간이 부족합니다. 오래된 데이터를 삭제해주세요.";
                  originalError := e |}
      else
        reject {| type := SAVE_FAILED;
                  userMessage := "데이터 저장에 실패했습니다. 다시 시도해주세요.";
                  originalError := e |}
  | Threw e =>
      reject {| type := SAVE_FAILED;
                userMessage := "데이터 저장 중 오류가 발생했습니다.";
                originalError := Some e |}
  end.

(** Save meal records for a specific date. *)
Definition saveMealRecords (env : Env) (date : DateKey)
    (meals : gmap string (MealRecord number)) : M (PromiseResult unit) :=
  (* Do not persist empty days *)
  if negb (hasAnyMealData meals) then
    deleteMealRecords env date
  else
    let dateKey := dateToKey date in
    let data :=
      {| Types.date := date; Types.meals := meals;
         lastModified := Date_now env |} in
    routed env
      (fallback_set dateKey data ;; ret (Resolved tt))
      (save_promise env dateKey data).

(** [const data = this.fallbackStorage.get(dateKey);
     return data ? data.meals : this.getEmptyMealRecords();] *)
Definition fallback_get (dateKey : string)
  : M (PromiseResult (gmap string (MealRecord number))) :=
  w <- get ;;
  match Map_get dateKey (fallbackStorage (this w)) with
  | Some data => ret (Resolved (meals data))
  | None => ret (Resolved getEmptyMealRecords)
  end.

(** The promise of [loadMealRecords]. *)
Definition load_promise (env : Env) (dateKey : string)
  : M (PromiseResult (gmap string (MealRecord number))) :=
  r <- transaction env readonly ;;
  match r with
  | Succeeded store =>
      match IDB_get dateKey (records store) with
      | None => ret (Resolved getEmptyMealRecords)
      | Some result => ret (Resolved (meals (data result)))
      end
  | Errored e =>
      notifyError
        {| type := LOAD_FAILED;
           userMessage := "데이터 불러오기에 실패했습니다.";
           originalError := e |} ;;
      (* Return empty records instead of rejecting *)
      ret (Resolved getEmptyMealRecords)
  | Threw e =>
      notifyError
        {| type := LOAD_FAILED;
           userMessage := "데이터 불러오기 중 오류가 발생했습니다.";
           originalError := Some e |} ;;
      ret (Resolved getEmptyMealRecords)
  end.

(** Load meal records for a specific date. *)
Definition loadMealRecords (env : Env) (date : DateKey)
  : M (PromiseResult (gmap string (MealRecord number))) :=
  let dateKey := dateToKey date in
  routed env (fallback_get dateKey) (load_promise env dateKey).

(** [this.fallbackStorage.forEach(value => { if (hasAnyMealData(value.meals))
    dates.push(value.date) })] *)
Definition fallback_dates : M (PromiseResult (list DateKey)) :=
  w <- get ;;
  ret (Resolved
    (map date
      (List.filter (fun value => hasAnyMealData (meals value))
              (Map_values (fallbackStorage (this w)))))).

(** The promise of [getAllDatesWithData]. *)
Definition dates_promise (env : Env) : M (PromiseResult (list DateKey)) :=
  r <- transaction env readonly ;;
  match r with
  | Succeeded store =>
      let rows := IDB_getAll (records store) in
      ret (Resolved
        (map (fun row => date (data row))
          (List.filter (fun row => hasAnyMealData (meals (data row))) rows)))
  | Errored e =>
      notifyError
        {| type := LOAD_FAILED;
           userMessage := "날짜 목록을 불러오는데 실패했습니다.";
           originalError := e |} ;;
      (* Return empty array instead of rejecting *)
      ret (Resolved [])
  | Threw e =>
      notifyError
        {| type := LOAD_FAILED;
           userMessage := "날짜 목록을 불러오는 중 오류가 발생했습니다.";
           originalError := Some e |} ;;
      ret (Resolved [])
  end.

(** Get all dates that have meal records stored. *)
Definition getAllDatesWithData (env : Env)
  : M (PromiseResult (list DateKey)) :=
  routed env fallback_dates (dates_promise env).

Definition sortByDateAsc (rows : list (DailyMealData number))
  : list (DailyMealData number) :=
  Array_sort
    (fun a b =>
       let aKey := dateToKey (date a) in
       let bKey := dateToKey (date b) in
       localeCompare aKey bKey)
    rows.

Definition fallback_rows : M (PromiseResult (list (DailyMealData number))) :=
  w <- get ;;
  ret (Resolved
    (sortByDateAsc
      (List.filter (fun value => hasAnyMealData (meals value))
              (Map_values (fallbackStorage (this w)))))).

(** The promise of [getAllMealData].  The rows read back still carry their
    [dateKey]; typed as [DailyMealData], only the fields of [data] remain. *)
Definition rows_promise (env : Env)
  : M (PromiseResult (list (DailyMealData number))) :=
  r <- transaction env readonly ;;
  match r with
  | Succeeded store =>
      let rows := map data (IDB_getAll (records store)) in
      let data := List.filter (fun row => hasAnyMealData (meals row)) rows in
      ret (Resolved (sortByDateAsc data))
  | Errored e =>
      notifyError
        {| type := LOAD_FAILED;
           userMessage := "전체 식단 데이터를 불러오는데 실패했습니다.";
           originalError := e |} ;;
      ret (Resolved [])
  | Threw e =>
      notifyError
        {| type := LOAD_FAILED;
           userMessage := "전체 식단 데이터 조회 중 오류가 발생했습니다.";
           originalError := Some e |} ;;
      ret (Resolved [])
  end.

(** Get all stored meal data that contains user-entered content. *)
Definition getAllMealData (env : Env)
  : M (PromiseResult (list (DailyMealData number))) :=
  routed env fallback_rows (rows_promise env).


(** ** Sessions: sequences of calls *)

Inductive Call :=
| Call_init
| Call_setErrorCallback (callback : Callback)
| Call_saveMealRecords (date : DateKey)
                       (meals : gmap string (MealRecord number))
| Call_loadMealRecords (date : DateKey)
| Call_deleteMealRecords (date : DateKey)
| Call_getAllDatesWithData
| Call_getAllMealData
| Call_reload.   (* the page is loaded again: [new StorageService()] *)

Definition step (env : Env) (c : Call) (w : World number) : World number :=
  match c with
  | Call_init => snd (init env w)
  | Call_setErrorCallback cb => snd (setErrorCallback cb w)
  | Call_saveMealRecords d m => snd (saveMealRecords env d m w)
  | Call_loadMealRecords d => snd (loadMealRecords env d w)
  | Call_deleteMealRecords d => snd (deleteMealRecords env d w)
  | Call_getAllDatesWithData => snd (getAllDatesWithData env w)
  | Call_getAllMealData => snd (getAllMealData env w)
  | Call_reload => {| this := newService; host := host w |}
  end.

Fixpoint run (calls : list (Env * Call)) (w : World number) : World number :=
  match calls with
  | [] => w
  | (env, c) :: rest => run rest (step env c w)
  end.

(** The five data methods, none of which is [init]. *)
Definition isDataCall (c : Call) : bool :=
  match c with
  | Call_saveMealRecords _ _ | Call_loadMealRecords _
  | Call_deleteMealRecords _ | Call_getAllDatesWithData
  | Call_getAllMealData => true
  | _ => false
  end.

(** A world in which a data method does not open the database: the flag is
    set or the connection is there. *)
Definition settled (w : World number) : Prop :=
  useFallback (this w) = true \/ exists c, db (this w) = Some c.

(** The entries of the store that a data method is routed to in a settled
    world, as pairs of a key and a [DailyMealData]. *)
Definition activeEntries (w : World number)
  : list (string * DailyMealData number) :=
  if useFallback (this w) then fallbackStorage (this w)
  else
    match db (this w), objectStore (host w) with
    | Some _, Some store =>
        map (fun entry => (fst entry, data (snd entry))) (records store)
    | Some _, None => []
    | None, _ => fallbackStorage (this w)
    end.

(** What [dateKey] is bound to in that store. *)
Definition activeLookup (dateKey : string) (w : World number)
  : option (DailyMealData number) :=
  Map_get dateKey (activeEntries w).

(** The world in which the routed branch of a data method runs: the world
    of the call, or the one that the lazy open leaves. *)
Definition afterOpen (env : Env) (w : World number) : World number :=
  if useFallback (this w) then w else snd (lazyInit env w).

(** The read that a data method makes in a settled world fails: it goes to
    the database and the transaction throws or ends in an error. *)
Definition readFails (env : Env) (w : World number) : Prop :=
  useFallback (this w) = false /\
  (tx_outcome env <> Tx_success \/ objectStore (host w) = None).




(** The content filter on the entries that a read enumerates. *)
Definition withData (entries : list (string * DailyMealData number))
  : list (DailyMealData number) :=
  List.filter (fun value => hasAnyMealData (meals value)) (map snd entries).



(** The two stores of a world, and the changes that the methods make to
    them: a call changes the stores by a sequence of these. *)
Definition Stores : Type :=
  list (string * DailyMealData number) * option (IDBObjectStore number).

Definition stores (w : World number) : Stores :=
  (fallbackStorage (this w), objectStore (host w)).

Inductive change : Stores -> Stores -> Prop :=
| change_create fs :
    change (fs, None) (fs, Some {| keyPath := "dateKey"; records := [] |})
| change_put fs store store' env d m :
    hasAnyMealData m = true ->
    store_put store
      {| data := {| Types.date := d; Types.meals := m;
                    lastModified := Date_now env |};
         dateKey := dateToKey d |} = Some store' ->
    change (fs, Some store) (fs, Some store')
| change_delete fs store d :
    change (fs, Some store) (fs, Some (store_delete store (dateToKey d)))
| change_fallback_set fs os env d m :
    hasAnyMealData m = true ->
    change (fs, os)
           (Map_set (dateToKey d)
              {| Types.date := d; Types.meals := m;
                 lastModified := Date_now env |} fs, os)
| change_fallback_delete fs os d :
    change (fs, os) (Map_delete (dateToKey d) fs, os)
| change_fallback_reset fs os :
    change (fs, os) ([], os).
End Methods.

End StorageService.

(* ================================================================== *)
(** * services/emailExportService.ts *)
(* ================================================================== *)

Module EmailExportService.
Import Js Types StorageService.

Record EmailExportOptions := {
  recipient : option string;
  subject : option string;
  body : option string
}.

Inductive ExportMethod := web_share | download_mailto.

(** The string value of each member of the union. *)
Definition ExportMethod_value (m : ExportMethod) : string :=
  match m with
  | web_share => "web-share"
  | download_mailto => "download-mailto"
  end.

Record ExportResult := {
  method : ExportMethod;
  fileName : string;
  mailtoUrl : option string
}.

Definition DEFAULT_SUBJECT : string := "NutriTrackAi 식단 데이터 내보내기".
Definition DEFAULT_BODY : string :=
  "첨부된 JSON 파일은 NutriTrackAi에서 내보낸 전체 식단 데이터입니다.".

Definition createMailtoUrl (recipient subject body : string) : string :=
  let query := URLSearchParams_toString [("subject", subject); ("body", body)] in
  ("mailto:" ++ recipient ++ "?" ++ query)%string.

(** A [File]: its parts, its name and its type. *)
Record File := {
  file_bits : list string;
  file_name : string;
  file_type : string
}.

Record ShareData := {
  title : string;
  text : string;
  files : list File
}.

(** What a [catch] receives: a [DOMException], or another error with its
    name and message. *)
Inductive Thrown :=
| Thrown_DOMException (e : DOMException)
| Thrown_Error (name message : string).

(** How a promise settles. *)
Inductive Settled (A : Type) :=
| Fulfilled (a : A)
| RejectedWith (error : Thrown).
Arguments Fulfilled {A} a.
Arguments RejectedWith {A} error.

Inductive ShareOutcome :=
| Share_resolves
| Share_rejects (error : Thrown).

(** [navigator.share] and [navigator.canShare], where they are defined. *)
Record Navigator := {
  share : option (ShareData -> ShareOutcome);
  canShare : option (ShareData -> bool)
}.

(** What the host does during one call: the navigator, and the clock at the
    two evaluations of [new Date()]. *)
Record Env := {
  navigator : Navigator;
  clock_exportedAt : Z;
  clock_dateStamp : Z
}.

(** The calls that have an effect on the page, in the order they are made.
    An object URL is identified by the file it was created for. *)
Inductive HostCall :=
| navigator_share (data : ShareData)
| document_createElement (tagName : string)
| URL_createObjectURL (file : File)
| document_body_appendChild (href : File) (download : string)
| link_click (href : File) (download : string)
| link_remove
| URL_revokeObjectURL (file : File).

Definition downloadFile (file : File) : list HostCall :=
  [document_createElement "a";
   URL_createObjectURL file;
   document_body_appendChild file (file_name file);
   link_click file (file_name file);
   link_remove;
   URL_revokeObjectURL file].

(** [error instanceof DOMException && error.name === 'AbortError'] *)
Definition isAbortError (error : Thrown) : bool :=
  match error with
  | Thrown_DOMException e => String.eqb (exn_name e) "AbortError"
  | Thrown_Error _ _ => false
  end.

Section WithHost.
Context {number : Type}.
Variable LocalTZA : Z -> bool -> Z.

Record ExportPayload := {
  exportedAt : string;
  totalDays : Z;
  records : list (DailyMealData number)
}.

(** The two functions of the host that are not modelled further:
    [Date.prototype.toISOString] on a time value, and [JSON.stringify] of a
    payload with an indentation of two spaces. *)
Variable toISOString : Z -> string.
Variable JSON_stringify : ExportPayload -> string.

(** [clock] is the time value of [new Date()]. *)
Definition dateStamp (clock : Z) : string :=
  let now := LocalTime LocalTZA clock in
  let year := YearFromTime now in
  let month := padStart 2 "0" (Number_toString (MonthFromTime now + 1)) in
  let day := padStart 2 "0" (Number_toString (DateFromTime now)) in
  let hour := padStart 2 "0" (Number_toString (HourFromTime now)) in
  let minute := padStart 2 "0" (Number_toString (MinFromTime now)) in
  (Number_toString year ++ month ++ day ++ "-" ++ hour ++ minute)%string.

Definition createMealDataExport (env : Env)
    (records : list (DailyMealData number)) : File * string * string :=
  let payload :=
    {| exportedAt := toISOString (clock_exportedAt env);
       totalDays := Z.of_nat (length records);
       records := records |} in
  let fileName :=
    ("nutritrack-meals-" ++ dateStamp (clock_dateStamp env) ++ ".json")%string in
  let json := JSON_stringify payload in
  let file :=
    {| file_bits := [json]; file_name := fileName;
       file_type := "application/json" |} in
  (file, fileName, json).

(** How the promise settles, and the calls made on the host. *)
Definition exportMealDataToEmail (env : Env)
    (records : list (DailyMealData number)) (options : EmailExportOptions)
  : Settled ExportResult * list HostCall :=
  if Z.of_nat (length records) =? 0 then
    (RejectedWith (Thrown_Error "Error" "내보낼 식단 데이터가 없습니다."), [])
  else
    let '(file, fileName, _) := createMealDataExport env records in
    let recipient := default "" (recipient options) in
    let subject := default DEFAULT_SUBJECT (subject options) in
    let body := default DEFAULT_BODY (body options) in
    let nav := navigator env in
    let download_and_mailto :=
      let mailtoBody :=
        (body ++ String "010" (String "010" "다운로드된 ") ++ fileName ++
         " 파일을 첨부해서 전송해주세요.")%string in
      let mailtoUrl := createMailtoUrl recipient subject mailtoBody in
      (Fulfilled {| method := download_mailto; fileName := fileName;
                    mailtoUrl := Some mailtoUrl |},
       downloadFile file) in
    match share nav with
    | Some share =>
        let shareData := {| title := subject; text := body; files := [file] |} in
        if match canShare nav with
           | None => true
           | Some canShare => canShare shareData
           end
        then
          match share shareData with
          | Share_resolves =>
              (Fulfilled {| method := web_share; fileName := fileName;
                            mailtoUrl := None |},
               [navigator_share shareData])
          | Share_rejects error =>
              (* User explicitly canceled share flow. *)
              if isAbortError error then
                (RejectedWith error, [navigator_share shareData])
              else
                (* Fall through to download + mailto *)
                (fst download_and_mailto,
                 navigator_share shareData :: snd download_and_mailto)
          end
        else download_and_mailto
    | None => download_and_mailto
    end.
End WithHost.

Arguments ExportPayload : clear implicits.
End EmailExportService.

(* ================================================================== *)
(** * utils/imageCompression.ts *)
(* ================================================================== *)

Module ImageCompression.
Import Js.

(** The sizes are multiples of 1/4 that binary floating point represents
    exactly; they are rational numbers here.  A string is the sequence of
    its code units, one character each (the strings measured are data URLs
    and base64 text, which are ASCII). *)

(** Get the size of a base64 string in bytes *)
Definition getBase64Size (base64String : string) : Q :=
  (* Remove data URI prefix if present *)
  let base64Data :=
    match nth_error (String_split "," base64String) 1 with
    | Some piece => if String.eqb piece "" then base64String else piece
    | None => base64String
    end in
  let padding := count_matches "=" base64Data in
  (inject_Z (Z.of_nat (String.length base64Data) * 3) / 4 -
   inject_Z (Z.of_nat padding))%Q.

(** Check if an image should be compressed based on size threshold *)
Definition shouldCompressImage (base64String : string) (thresholdBytes : Q)
  : bool :=
  negb (Qle_bool (getBase64Size base64String) thresholdBytes).

(** The default threshold: 500KB. *)
Definition defaultThresholdBytes : Q := inject_Z (500 * 1024).
End ImageCompression.


(* ================================================================== *)
(** * components/MealInput.tsx: the list of items of a meal *)
(* ================================================================== *)

Module MealInput.
Import Js Types.

Section WithNumber.
Context {number : Type}.

(** The number 0. *)
Variable zero : number.

(** A field of a [FoodItem] (other than [id]) and a value of its type: the
    last two arguments of [handleUpdateItem]. *)
Inductive FieldValue :=
| name_value (value : string)
| calories_value (value : number)
| carbs_value (value : number)
| protein_value (value : number)
| fat_value (value : number)
| sugar_value (value : number)
| sodium_value (value : number)
| cholesterol_value (value : number).

(** [{ ...item, [field]: value }] *)
Definition withField (item : FoodItem number) (fv : FieldValue)
  : FoodItem number :=
  match fv with
  | name_value v =>
      {| id := id item; name := v; calories := calories item;
         carbs := carbs item; protein := protein item; fat := fat item;
         sugar := sugar item; sodium := sodium item;
         cholesterol := cholesterol item |}
  | calories_value v =>
      {| id := id item; name := name item; calories := v;
         carbs := carbs item; protein := protein item; fat := fat item;
         sugar := sugar item; sodium := sodium item;
         cholesterol := cholesterol item |}
  | carbs_value v =>
      {| id := id item; name := name item; calories := calories item;
         carbs := v; protein := protein item; fat := fat item;
         sugar := sugar item; sodium := sodium item;
         cholesterol := cholesterol item |}
  | protein_value v =>
      {| id := id item; name := name item; calories := calories item;
         carbs := carbs item; protein := v; fat := fat item;
         sugar := sugar item; sodium := sodium item;
         cholesterol := cholesterol item |}
  | fat_value v =>
      {| id := id item; name := name item; calories := calories item;
         carbs := carbs item; protein := protein item; fat := v;
         sugar := sugar item; sodium := sodium item;
         cholesterol := cholesterol item |}
  | sugar_value v =>
      {| id := id item; name := name item; calories := calories item;
         carbs := carbs item; protein := protein item; fat := fat item;
         sugar := v; sodium := sodium item;
         cholesterol := cholesterol item |}
  | sodium_value v =>
      {| id := id item; name := name item; calories := calories item;
         carbs := carbs item; protein := protein item; fat := fat item;
         sugar := sugar item; sodium := v;
         cholesterol := cholesterol item |}
  | cholesterol_value v =>
      {| id := id item; name := name item; calories := calories item;
         carbs := carbs item; protein := protein item; fat := fat item;
         sugar := sugar item; sodium := sodium item;
         cholesterol := v |}
  end.

(** The updates of [setItems], as functions of the previous list. *)

Definition handleAddItem (newItem : FoodItem number)
    (prev : list (FoodItem number)) : list (FoodItem number) :=
  prev ++ [newItem].

(** [now] is the clock, [Date.now()]. *)
Definition handleManualAdd (now : Z) (prev : list (FoodItem number))
  : list (FoodItem number) :=
  let newItem :=
    {| id := ("manual-" ++ Number_toString now)%string; name := "";
       calories := zero; carbs := zero; protein := zero; fat := zero;
       sugar := zero; sodium := zero; cholesterol := zero |} in
  prev ++ [newItem].

Definition handleUpdateItem (id : string) (fv : FieldValue)
    (prev : list (FoodItem number)) : list (FoodItem number) :=
  map (fun item =>
         if String.eqb (Types.id item) id then withField item fv else item)
      prev.

Definition handleDeleteItem (id : string) (prev : list (FoodItem number))
  : list (FoodItem number) :=
  List.filter (fun item => negb (String.eqb (Types.id item) id)) prev.

(** The record that the save button passes to [onSave]. *)
Definition savedRecord (mealType : MealType) (items : list (FoodItem number))
    (image : option string) : MealRecord number :=
  {| Types.type := mealType; Types.items := items; Types.image := image |}.
End WithNumber.
End MealInput.

(* ================================================================== *)
(** * components/Dashboard.tsx: the date of the header *)
(* ================================================================== *)

Module Dashboard.
Import Js Types.

Section WithHost.
Variable LocalTZA : Z -> bool -> Z.

(** Check if selected date is today; [now] is the clock when [new Date()]
    is evaluated. *)
Definition isToday (selectedDate : Date) (now : Z) : bool :=
  let today : Date := Some now in
  strictEquals (getFullYear LocalTZA selectedDate) (getFullYear LocalTZA today) &&
  strictEquals (getMonth LocalTZA selectedDate) (getMonth LocalTZA today) &&
  strictEquals (getDate LocalTZA selectedDate) (getDate LocalTZA today).
End WithHost.
End Dashboard.

(* ================================================================== *)
(** * App.tsx: the callbacks that use the storage service *)
(* ================================================================== *)

Module App.
Import Js Types StorageService.

(** What a [catch] block of the component receives. *)
Inductive Caught :=
| Caught_StorageError (e : StorageError)
| Caught_Thrown (e : EmailExportService.Thrown).

(** The callback that [initStorage] registers on the service. *)
Definition onStorageError : Callback := 0%nat.

Section WithHost.
Context {number : Type}.
Variable LocalTZA : Z -> bool -> Z.
Variable toISOString : Z -> string.
Variable JSON_stringify : EmailExportService.ExportPayload number -> string.

(** The state, the refs and the page of the component, as far as the
    callbacks below read or set them.  [timeouts] holds the delays of the
    pending [setTimeout(() => setErrorMessage(null), delay)]. *)
Record State := {
  datesWithData : list Date;
  errorMessage : option string;
  mealRecords : gmap string (MealRecord number);
  isLoadingRef : bool;
  timeouts : list Z;
  console_error : list (string * Caught);
  location_href : option string;
  hostCalls : list EmailExportService.HostCall
}.

Definition setDatesWithData (x : list Date) (s : State) : State :=
  {| datesWithData := x; errorMessage := errorMessage s;
     mealRecords := mealRecords s; isLoadingRef := isLoadingRef s;
     timeouts := timeouts s; console_error := console_error s;
     location_href := location_href s; hostCalls := hostCalls s |}.

Definition setErrorMessage (x : option string) (s : State) : State :=
  {| datesWithData := datesWithData s; errorMessage := x;
     mealRecords := mealRecords s; isLoadingRef := isLoadingRef s;
     timeouts := timeouts s; console_error := console_error s;
     location_href := location_href s; hostCalls := hostCalls s |}.

Definition setMealRecords (x : gmap string (MealRecord number)) (s : State)
  : State :=
  {| datesWithData := datesWithData s; errorMessage := errorMessage s;
     mealRecords := x; isLoadingRef := isLoadingRef s;
     timeouts := timeouts s; console_error := console_error s;
     location_href := location_href s; hostCalls := hostCalls s |}.

Definition set_isLoadingRef (x : bool) (s : State) : State :=
  {| datesWithData := datesWithData s; errorMessage := errorMessage s;
     mealRecords := mealRecords s; isLoadingRef := x;
     timeouts := timeouts s; console_error := console_error s;
     location_href := location_href s; hostCalls := hostCalls s |}.

Definition setTimeout (delay : Z) (s : State) : State :=
  {| datesWithData := datesWithData s; errorMessage := errorMessage s;
     mealRecords := mealRecords s; isLoadingRef := isLoadingRef s;
     timeouts := timeouts s ++ [delay]; console_error := console_error s;
     location_href := location_href s; hostCalls := hostCalls s |}.

Definition log_console_error (label : string) (error : Caught) (s : State)
  : State :=
  {| datesWithData := datesWithData s; errorMessage := errorMessage s;
     mealRecords := mealRecords s; isLoadingRef := isLoadingRef s;
     timeouts := timeouts s;
     console_error := console_error s ++ [(label, error)];
     location_href := location_href s; hostCalls := hostCalls s |}.

Definition set_location_href (x : string) (s : State) : State :=
  {| datesWithData := datesWithData s; errorMessage := errorMessage s;
     mealRecords := mealRecords s; isLoadingRef := isLoadingRef s;
     timeouts := timeouts s; console_error := console_error s;
     location_href := Some x; hostCalls := hostCalls s |}.

Definition add_hostCalls (calls : list EmailExportService.HostCall)
    (s : State) : State :=
  {| datesWithData := datesWithData s; errorMessage := errorMessage s;
     mealRecords := mealRecords s; isLoadingRef := isLoadingRef s;
     timeouts := timeouts s; console_error := console_error s;
     location_href := location_href s; hostCalls := hostCalls s ++ calls |}.

(** The error callback: show the message, and hide it after 5 seconds. *)
Definition errorCallback_body (error : StorageError) (s : State) : State :=
  setTimeout 5000 (setErrorMessage (Some (userMessage error)) s).

(** The effect on the component of the callbacks that the service invoked
    between the world [w] and the world [w']. *)
Definition notified (w w' : World number) (s : State) : State :=
  fold_left
    (fun s call =>
       if Nat.eqb (fst call) onStorageError
       then errorCallback_body (snd call) s else s)
    (skipn (length (callbackCalls (host w))) (callbackCalls (host w')))
    s.

(** A call of a method of the service from the component. *)
Definition await {A : Type} (method : M number A)
    (a : State * World number) : A * (State * World number) :=
  let (s, w) := a in
  let (r, w') := method w in
  (r, (notified w w' s, w')).

(** [dates.map(key => new Date(key.year, key.month - 1, key.day))] *)
Definition toDates (dates : list DateKey) : list Date :=
  map (fun key => Date_new LocalTZA (year key) (month key - 1) (day key)) dates.

(** The callbacks take a valid [Date]: there is no result for the invalid
    date, whose key has no [DateKey]. *)

Definition initStorage (env_init env_dates : StorageService.Env)
    (a : State * World number) : State * World number :=
  let (s, w) := a in
  let a := (s, snd (setErrorCallback onStorageError w)) in
  let (r, a) := await (init env_init) a in
  match r with
  | Rejected error =>
      (setErrorMessage (Some "저장소 초기화에 실패했습니다.")
         (log_console_error "Failed to initialize storage:"
            (Caught_StorageError error) (fst a)), snd a)
  | Resolved _ =>
      let (r, a) := await (getAllDatesWithData env_dates) a in
      match r with
      | Rejected error =>
          (setErrorMessage (Some "저장소 초기화에 실패했습니다.")
             (log_console_error "Failed to initialize storage:"
                (Caught_StorageError error) (fst a)), snd a)
      | Resolved dates => (setDatesWithData (toDates dates) (fst a), snd a)
      end
  end.

Definition loadMealRecordsForDate (env : StorageService.Env) (date : Date)
    (a : State * World number) : option (State * World number) :=
  let (s, w) := a in
  let a := (set_isLoadingRef true s, w) in
  dateKey ← Types.dateToKey LocalTZA date;
  let (r, a) := await (loadMealRecords env dateKey) a in
  let s :=
    match r with
    | Resolved records => setMealRecords records (fst a)
    | Rejected error =>
        log_console_error "Failed to load meal records:"
          (Caught_StorageError error) (fst a)
    end in
  Some (set_isLoadingRef false s, snd a).

Definition saveMealRecordsForDate (env_save env_dates : StorageService.Env)
    (date : Date) (records : gmap string (MealRecord number))
    (a : State * World number) : option (State * World number) :=
  dateKey ← Types.dateToKey LocalTZA date;
  let (r, a) := await (saveMealRecords env_save dateKey records) a in
  match r with
  | Rejected error =>
      Some (log_console_error "Failed to save meal records:"
              (Caught_StorageError error) (fst a), snd a)
  | Resolved _ =>
      (* Update dates with data *)
      let (r, a) := await (getAllDatesWithData env_dates) a in
      match r with
      | Rejected error =>
          Some (log_console_error "Failed to save meal records:"
                  (Caught_StorageError error) (fst a), snd a)
      | Resolved dates => Some (setDatesWithData (toDates dates) (fst a), snd a)
      end
  end.

(** [setMealRecords(prev => ({ ...prev, [record.type]: record }))]; the
    view, which the callback sets as well, is not part of [State]. *)
Definition handleSaveMeal (record : MealRecord number) (s : State) : State :=
  setMealRecords (<[MealType_value (Types.type record) := record]> (mealRecords s)) s.

Definition handleEmailExport (env_data : StorageService.Env)
    (env_export : EmailExportService.Env)
    (a : State * World number) : State * World number :=
  let failed (error : Caught) (s : State) :=
    setErrorMessage (Some "이메일 내보내기에 실패했습니다. 다시 시도해주세요.")
      (log_console_error "Failed to export meal data by email:" error s) in
  let (r, a) := await (getAllMealData env_data) a in
  match r with
  | Rejected error => (failed (Caught_StorageError error) (fst a), snd a)
  | Resolved allMealData =>
      let (result, calls) :=
        EmailExportService.exportMealDataToEmail LocalTZA toISOString
          JSON_stringify env_export allMealData
          {| EmailExportService.recipient := None;
             EmailExportService.subject := None;
             EmailExportService.body := None |} in
      let s := add_hostCalls calls (fst a) in
      match result with
      | EmailExportService.RejectedWith error =>
          (failed (Caught_Thrown error) s, snd a)
      | EmailExportService.Fulfilled result =>
          match EmailExportService.method result,
                EmailExportService.mailtoUrl result with
          | EmailExportService.download_mailto, Some mailtoUrl =>
              if negb (String.eqb mailtoUrl "")
              then (set_location_href mailtoUrl s, snd a)
              else (s, snd a)
          | _, _ => (s, snd a)
          end
      end
  end.
End WithHost.

Arguments State : clear implicits.
End App.

(* ================================================================== *)
(** * Notions used in the statements *)
(* ================================================================== *)

Module Spec.
Import Js Types StorageService.

Definition validDateKey (d : DateKey) : Prop :=
  1 <= month d <= 12 /\ 1 <= day d <= 31.

Definition isDigit (c : ascii) : bool :=
  (48 <=? nat_of_ascii c)%nat && (nat_of_ascii c <=? 57)%nat.

Definition isHyphen (c : ascii) : bool := Ascii.eqb c "-".

Fixpoint matches (pattern : list (ascii -> bool)) (s : string) : bool :=
  match pattern, s with
  | [], EmptyString => true
  | p :: pattern', String c s' => p c && matches pattern' s'
  | _, _ => false
  end.

(** The decimal digit [n], for [0 <= n <= 9]. *)
Definition digitChar (n : Z) : ascii := ascii_of_nat (48 + Z.to_nat n).

(** [n] written with exactly two decimal digits, zero-padded. *)
Definition twoDigits (n : Z) : string :=
  String (digitChar (n / 10)) (String (digitChar (n mod 10)) EmptyString).


Fixpoint allDigits (s : string) : bool :=
  match s with
  | EmptyString => true
  | String c s' => isDigit c && allDigits s'
  end.

(** A numeral: an optional minus sign followed by at least one digit. *)
Definition isNumeral (s : string) : bool :=
  match s with
  | EmptyString => false
  | String c s' =>
      if Ascii.eqb c "-" then
        match s' with EmptyString => false | _ => allDigits s' end
      else isDigit c && allDigits s'
  end.

(** The longest prefix of digits, and what follows it. *)
Fixpoint spanDigits (s : string) : string * string :=
  match s with
  | EmptyString => (EmptyString, EmptyString)
  | String c s' =>
      if isDigit c then
        let (a, b) := spanDigits s' in (String c a, b)
      else (EmptyString, s)
  end.

(** The numeral at the start of a string, and what follows it. *)
Definition spanNumeral (s : string) : string * string :=
  match s with
  | String c s' =>
      if Ascii.eqb c "-" then
        let (a, b) := spanDigits s' in (String c a, b)
      else spanDigits s
  | EmptyString => (EmptyString, EmptyString)
  end.

(** A leap year of the Gregorian calendar. *)
Definition isLeapYear (y : Z) : bool :=
  (y mod 4 =? 0) && (negb (y mod 100 =? 0) || (y mod 400 =? 0)).

(** The length of month [m], where [L] is 1 in a leap year and 0 otherwise. *)
Definition daysInMonthL (m L : Z) : Z :=
  match m with
  | 2 => 28 + L
  | 4 | 6 | 9 | 11 => 30
  | _ => 31
  end.

Definition daysInMonth (y m : Z) : Z :=
  daysInMonthL m (if isLeapYear y then 1 else 0).

(** A DateKey that names a day of the calendar. *)
Definition validCalendarDate (k : DateKey) : Prop :=
  1 <= month k <= 12 /\ 1 <= day k <= daysInMonth (year k) (month k).

(** The host's time zone maps the local midnight of a day to an instant of
    that local day (as a zone of fixed offset does). *)
Definition sameLocalDay (LocalTZA : Z -> bool -> Z) : Prop :=
  forall t, t mod msPerDay = 0 ->
    Day (LocalTime LocalTZA (UTC LocalTZA t)) = Day t.

Section Content.
Context {number : Type}.

(** "Real content" in the words of the specification: at least one slot
    has a non-empty item list or a non-null image. *)
Definition realContent (m : gmap string (MealRecord number)) : Prop :=
  exists slot r, m !! slot = Some r /\ (items r <> [] \/ image r <> None).

(** User-entered content as the code tests it: at least one slot has a
    non-empty item list or a non-empty image string. *)
Definition enteredContent (m : gmap string (MealRecord number)) : Prop :=
  exists slot r, m !! slot = Some r /\
    (items r <> [] \/ exists s, image r = Some s /\ s <> EmptyString).

(** The "all empty" mapping in the words of the specification: exactly the
    7 fixed slots, each with an empty item list and no image. *)
Definition allEmpty (m : gmap string (MealRecord number)) : Prop :=
  (forall slot, is_Some (m !! slot) <->
                exists t, slot = MealType_value t) /\
  (forall t, m !! MealType_value t =
             Some {| Types.type := t; items := []; image := None |}).

(** Every entry of the two stores is bound to the canonical key of its date,
    and no key is bound twice. *)
Definition keyedEntries {V : Type} (date_of : V -> DateKey)
    (l : list (string * V)) : Prop :=
  List.NoDup (map fst l) /\
  forall k v, In (k, v) l -> k = dateToKey (date_of v).

Definition keyed (s : Stores (number:=number)) : Prop :=
  keyedEntries date (fst s) /\
  forall store, snd s = Some store ->
    keyedEntries (fun row => date (data row)) (records store).

(** Every entry of the two stores has user-entered content. *)
Definition withContent (s : Stores (number:=number)) : Prop :=
  (forall k d, In (k, d) (fst s) -> hasAnyMealData (meals d) = true) /\
  forall store, snd s = Some store ->
    forall k row, In (k, row) (records store) ->
      hasAnyMealData (meals (data row)) = true.

(** The object store is keyed on [dateKey], and every record of it carries
    its key in that field, the canonical key of its date. *)
Definition dateKeyed (s : Stores (number:=number)) : Prop :=
  forall store, snd s = Some store ->
    keyPath store = "dateKey" /\
    forall k row, In (k, row) (records store) ->
      dateKey row = k /\ dateKey row = dateToKey (date (data row)).

(** Ascending order of the canonical date keys, compared as strings. *)
Definition keyLe (a b : DailyMealData number) : Prop :=
  String.leb (dateToKey (date a)) (dateToKey (date b)) = true.
End Content.




(** [YYYYMMDD-HHMM]: eight digits, a hyphen, four digits. *)
Definition is_YYYYMMDD_HHMM : string -> bool :=
  matches [isDigit; isDigit; isDigit; isDigit; isDigit; isDigit; isDigit;
           isDigit; isHyphen; isDigit; isDigit; isDigit; isDigit].

(** The mailto URL that goes with a download: the recipient, the subject,
    and the body followed by the request to attach the file. *)
Definition fallbackUrl (options : EmailExportService.EmailExportOptions)
    (fileName : string) : string :=
  EmailExportService.createMailtoUrl
    (default "" (EmailExportService.recipient options))
    (default EmailExportService.DEFAULT_SUBJECT
       (EmailExportService.subject options))
    (default EmailExportService.DEFAULT_BODY (EmailExportService.body options) ++
     String "010" (String "010" "다운로드된 ") ++ fileName ++
     " 파일을 첨부해서 전송해주세요.")%string.

(** Base64 (RFC 4648) of a sequence of bytes, with padding: the text whose
    size [getBase64Size] is meant to give. *)
Definition base64Alphabet : string :=
  "ABCDEFGHIJKLMNOPQRSTUVWXYZabcdefghijklmnopqrstuvwxyz0123456789+/".

Definition base64Char (n : nat) : ascii :=
  nth n (list_ascii_of_string base64Alphabet) "A"%char.

Fixpoint base64 (bytes : list ascii) : string :=
  match bytes with
  | [] => ""
  | [a] =>
      let x := nat_of_ascii a in
      String (base64Char (x / 4))
        (String (base64Char (x mod 4 * 16)) "==")
  | [a; b] =>
      let x := nat_of_ascii a in
      let y := nat_of_ascii b in
      String (base64Char (x / 4))
        (String (base64Char (x mod 4 * 16 + y / 16))
           (String (base64Char (y mod 16 * 4)) "="))
  | a :: b :: c :: rest =>
      let x := nat_of_ascii a in
      let y := nat_of_ascii b in
      let z := nat_of_ascii c in
      String (base64Char (x / 4))
        (String (base64Char (x mod 4 * 16 + y / 16))
           (String (base64Char (y mod 16 * 4 + z / 64))
              (String (base64Char (z mod 64)) (base64 rest))))
  end.

(** A string without a comma. *)
Fixpoint noComma (s : string) : bool :=
  match s with
  | EmptyString => true
  | String c s' => negb (Ascii.eqb c ",") && noComma s'
  end.
End Spec.


(* ================================================================== *)
(** * Sample data *)
(* ================================================================== *)

Module Examples.
Import Js Types StorageService Spec.

Definition apple : FoodItem Q :=
  {| id := "1"; name := "apple"; calories := 95%Q; carbs := 25%Q;
     protein := 0.5%Q; fat := 0.3%Q; sugar := 19%Q; sodium := 2%Q;
     cholesterol := 0%Q |}.

Definition jan15 : DateKey := {| year := 2024; month := 1; day := 15 |}.
Definition jan16 : DateKey := {| year := 2024; month := 1; day := 16 |}.

Definition emptyMeals : gmap string (MealRecord Q) := getEmptyMealRecords.

(** Breakfast is one apple, every other slot is empty. *)
Definition appleBreakfast : gmap string (MealRecord Q) :=
  <[MealType_value BREAKFAST :=
      {| Types.type := BREAKFAST; items := [apple]; image := None |}]>
    emptyMeals.

(** Breakfast has no item and the empty string as image. *)
Definition blankImageBreakfast : gmap string (MealRecord Q) :=
  <[MealType_value BREAKFAST :=
      {| Types.type := BREAKFAST; items := []; image := Some "" |}]>
    emptyMeals.

(** A host with a working database. *)
Definition online : Env :=
  {| indexedDB_defined := true; open_outcome := Open_onsuccess;
     tx_outcome := Tx_success; Date_now := 1705276800000 |}.

(** A host without IndexedDB. *)
Definition unsupported : Env :=
  {| indexedDB_defined := false; open_outcome := Open_onsuccess;
     tx_outcome := Tx_success; Date_now := 1705276800000 |}.


(** A host whose transactions end in an error, with the given name. *)
Definition txFails (name : string) : Env :=
  {| indexedDB_defined := true; open_outcome := Open_onsuccess;
     tx_outcome := Tx_onerror (Some {| exn_name := name |});
     Date_now := 1705276800000 |}.

Definition world0 : World Q := initialWorld.

(** The world after a successful [init]. *)
Definition ready : World Q := snd (init online world0).

(** The world after an [init] on a host without IndexedDB. *)
Definition degraded : World Q := snd (init unsupported world0).

(** A database left by an earlier session: an apple breakfast on January 15
    and an empty day on January 16. *)
Definition legacyStore : IDBObjectStore Q :=
  {| keyPath := "dateKey";
     records :=
       [("2024-01-15",
         {| data := {| date := jan15; meals := appleBreakfast;
                       lastModified := 1705276800000 |};
            dateKey := "2024-01-15" |});
        ("2024-01-16",
         {| data := {| date := jan16; meals := emptyMeals;
                       lastModified := 1705363200000 |};
            dateKey := "2024-01-16" |})] |}.

(** Korea Standard Time: nine hours ahead of UTC, all year. *)
Definition KST : Z -> bool -> Z := fun _ _ => 32400000.


Definition legacy : World Q :=
  {| this := newService;
     host := {| objectStore := Some legacyStore; idbCalls := [];
                console_error := []; callbackCalls := [] |} |}.

(** Lunch is one apple, every other slot is empty. *)
Definition appleLunch : gmap string (MealRecord Q) :=
  <[MealType_value LUNCH :=
      {| Types.type := LUNCH; items := [apple]; image := None |}]>
    emptyMeals.

(** The state of the component when the page is loaded. *)
Definition appState0 : App.State Q :=
  {| App.datesWithData := []; App.errorMessage := None;
     App.mealRecords := emptyMeals; App.isLoadingRef := false;
     App.timeouts := []; App.console_error := [];
     App.location_href := None; App.hostCalls := [] |}.

(** Midnight and one o'clock in the morning of January 15, 2024, in Korea. *)
Definition jan15_midnight : Z := 1705244400000.
Definition jan15_1am : Z := 1705248000000.

(** A browser without [navigator.share], at nine in the morning of
    January 15, 2024, in Korea. *)
Definition noShare : EmailExportService.Env :=
  {| EmailExportService.navigator :=
       {| EmailExportService.share := None;
          EmailExportService.canShare := None |};
     EmailExportService.clock_exportedAt := 1705276800000;
     EmailExportService.clock_dateStamp := 1705276800000 |}.

(** Stand-ins for the two functions of the host that are not modelled. *)
Definition isoStub : Z -> string := fun _ => "2024-01-15T00:00:00.000Z".
Definition jsonStub : EmailExportService.ExportPayload Q -> string :=
  fun _ => "{}".
End Examples.

(* ================================================================== *)
(** * Properties *)
(* ================================================================== *)

Import Js Types StorageService Spec Examples.

Section DecimalStrings.

Lemma spanDigits_app x r :
  allDigits x = true ->
  spanDigits (x ++ String "-" r) = (x, String "-" r).
Proof.
  induction x as [|c x IH]; simpl; intros H.
  - reflexivity.
  - apply andb_true_iff in H as [Hc Hx]. rewrite Hc, (IH Hx). reflexivity.
Qed.

Lemma isDigit_not_hyphen c : isDigit c = true -> Ascii.eqb c "-" = false.
Proof.
  intros H. destruct (Ascii.eqb_spec c "-") as [->|]; [discriminate H | reflexivity].
Qed.

Lemma spanNumeral_app x r :
  isNumeral x = true ->
  spanNumeral (x ++ String "-" r) = (x, String "-" r).
Proof.
  destruct x as [|c x]; simpl; [discriminate|].
  destruct (Ascii.eqb c "-") eqn:Hc.
  - intros H. destruct x as [|c' x]; [discriminate|].
    rewrite (spanDigits_app (String c' x) r H). reflexivity.
  - intros H. apply andb_true_iff in H as [Hd Hx].
    change (spanDigits (String c (x ++ String "-" r)) = (String c x, String "-" r)).
    simpl. rewrite Hd, (spanDigits_app x r Hx). reflexivity.
Qed.

Lemma numeral_app_inj x x' r r' :
  isNumeral x = true -> isNumeral x' = true ->
  (x ++ String "-" r = x' ++ String "-" r')%string -> x = x' /\ r = r'.
Proof.
  intros Hx Hx' E.
  pose proof (spanNumeral_app x r Hx) as S1.
  pose proof (spanNumeral_app x' r' Hx') as S2.
  rewrite E in S1. rewrite S1 in S2. injection S2 as -> ->. split; reflexivity.
Qed.

Lemma allDigits_string_of_uint d : allDigits (NilEmpty.string_of_uint d) = true.
Proof. induction d; simpl; auto. Qed.

Lemma string_of_uint_nonempty d : NilZero.string_of_uint d <> EmptyString.
Proof. destruct d; simpl; discriminate. Qed.

Lemma allDigits_NilZero d : allDigits (NilZero.string_of_uint d) = true.
Proof. destruct d; try apply (allDigits_string_of_uint); reflexivity. Qed.

Lemma Number_toString_numeral n : isNumeral (Number_toString n) = true.
Proof.
  unfold Number_toString. destruct (Z.to_int n) as [d|d]; simpl.
  - pose proof (allDigits_NilZero d) as H. pose proof (string_of_uint_nonempty d) as Hn.
    destruct (NilZero.string_of_uint d) as [|c s]; [congruence|].
    simpl in H. apply andb_true_iff in H as [Hc Hs].
    simpl. rewrite (isDigit_not_hyphen c Hc), Hc, Hs. reflexivity.
  - pose proof (allDigits_NilZero d) as H. pose proof (string_of_uint_nonempty d) as Hn.
    destruct (NilZero.string_of_uint d) as [|c s]; [congruence|]. exact H.
Qed.


Lemma to_int_nonnil n :
  Z.to_int n <> Decimal.Pos Decimal.Nil /\ Z.to_int n <> Decimal.Neg Decimal.Nil.
Proof.
  destruct n as [|p|p]; simpl; split; try discriminate;
    intros [= H]; exact (DecimalPos.Unsigned.to_uint_nonnil p H).
Qed.

Lemma int_of_Number_toString n :
  NilZero.int_of_string (Number_toString n) = Some (Z.to_int n).
Proof.
  destruct (to_int_nonnil n) as [H1 H2]. apply NilZero.isi; assumption.
Qed.

Lemma Number_toString_inj n n' :
  Number_toString n = Number_toString n' -> n = n'.
Proof.
  intros E. apply DecimalZ.to_int_inj.
  pose proof (int_of_Number_toString n) as H.
  rewrite E, int_of_Number_toString in H. congruence.
Qed.

Lemma unorm_D0 d d' : Decimal.unorm d = Decimal.D0 d' -> d' = Decimal.Nil.
Proof.
  induction d; simpl; intros E; try discriminate; auto.
  injection E as <-. reflexivity.
Qed.

Lemma to_int_normal n : Decimal.norm (Z.to_int n) = Z.to_int n.
Proof. rewrite <- DecimalZ.to_of, DecimalZ.of_to. reflexivity. Qed.

(** No leading zero: a rendering that starts with ["0"] is ["0"]. *)
Lemma Number_toString_leading_zero n s :
  Number_toString n = String "0" s -> s = EmptyString.
Proof.
  intros E. pose proof (int_of_Number_toString n) as H. rewrite E in H.
  simpl in H.
  destruct (NilEmpty.uint_of_string s) as [u|] eqn:Hu; simpl in H; [|discriminate].
  injection H as H. pose proof (to_int_normal n) as Hn. rewrite <- H in Hn.
  simpl in Hn. injection Hn as Hn. apply unorm_D0 in Hn. subst u.
  apply NilEmpty.sus in Hu. simpl in Hu. congruence.
Qed.

Lemma padStart_2_cases s :
  isNumeral s = true ->
  (exists c, s = String c EmptyString /\ isDigit c = true /\
             padStart 2 "0" s = String "0" s) \/
  ((2 <= String.length s)%nat /\ padStart 2 "0" s = s).
Proof.
  destruct s as [|c [|c' s]]; simpl; intros H.
  - discriminate.
  - left. exists c. destruct (Ascii.eqb c "-"); [discriminate|].
    apply andb_true_iff in H as [H _]. auto.
  - right. split; [lia | reflexivity].
Qed.

Lemma padStart_numeral s :
  isNumeral s = true -> isNumeral (padStart 2 "0" s) = true.
Proof.
  intros H. destruct (padStart_2_cases s H) as [(c & -> & Hc & ->)|[_ ->]]; [|exact H].
  simpl. rewrite Hc. reflexivity.
Qed.

Lemma padded_Number_toString_inj n n' :
  padStart 2 "0" (Number_toString n) = padStart 2 "0" (Number_toString n') ->
  n = n'.
Proof.
  intros E. apply Number_toString_inj.
  destruct (padStart_2_cases _ (Number_toString_numeral n))
    as [(c & Hs & Hc & Hp)|[Hl Hp]];
  destruct (padStart_2_cases _ (Number_toString_numeral n'))
    as [(c' & Hs' & Hc' & Hp')|[Hl' Hp']]; rewrite Hp, Hp' in E.
  - congruence.
  - symmetry in E. apply Number_toString_leading_zero in E.
    rewrite E in Hs. discriminate.
  - apply Number_toString_leading_zero in E. rewrite E in Hs'. discriminate.
  - exact E.
Qed.

Lemma dateToKey_inj d d' : dateToKey d = dateToKey d' -> d = d'.
Proof.
  unfold dateToKey. intros E.
  change (?a ++ "-" ++ ?b)%string with (a ++ String "-" b)%string in E.
  apply numeral_app_inj in E as [Ey E];
    try apply Number_toString_numeral.
  change (?a ++ "-" ++ ?b)%string with (a ++ String "-" b)%string in E.
  apply numeral_app_inj in E as [Em Ed];
    try (apply padStart_numeral, Number_toString_numeral).
  apply Number_toString_inj in Ey.
  apply padded_Number_toString_inj in Em, Ed.
  destruct d, d'; simpl in *; congruence.
Qed.


Lemma Z_range_forallb (P : Z -> bool) (lo n : Z) :
  forallb (fun k => P (lo + Z.of_nat k)) (seq 0 (Z.to_nat n)) = true ->
  forall z, lo <= z < lo + n -> P z = true.
Proof.
  intros H z Hz. rewrite forallb_forall in H.
  replace z with (lo + Z.of_nat (Z.to_nat (z - lo))) by lia.
  apply H. apply in_seq. lia.
Qed.

Lemma padStart_twoDigits n :
  0 <= n <= 99 -> padStart 2 "0" (Number_toString n) = twoDigits n.
Proof.
  intros Hn. apply String.eqb_eq.
  apply (Z_range_forallb
    (fun z => String.eqb (padStart 2 "0" (Number_toString z)) (twoDigits z))
    0 100); [vm_compute; reflexivity | lia].
Qed.

Lemma twoDigits_matches n :
  0 <= n <= 99 -> matches [isDigit; isDigit] (twoDigits n) = true.
Proof.
  intros Hn.
  apply (Z_range_forallb (fun z => matches [isDigit; isDigit] (twoDigits z))
    0 100); [vm_compute; reflexivity | lia].
Qed.

Lemma year_four_digits y :
  1000 <= y <= 9999 ->
  matches [isDigit; isDigit; isDigit; isDigit] (Number_toString y) = true.
Proof.
  intros Hy.
  apply (Z_range_forallb
    (fun z => matches [isDigit; isDigit; isDigit; isDigit] (Number_toString z))
    1000 9000); [vm_compute; reflexivity | lia].
Qed.

Lemma matches_app p1 p2 s1 s2 :
  matches p1 s1 = true -> matches p2 s2 = true ->
  matches (p1 ++ p2) (s1 ++ s2)%string = true.
Proof.
  revert s1. induction p1 as [|p p1 IH]; intros [|c s1]; simpl;
    try discriminate; auto.
  intros H1 H2. apply andb_true_iff in H1 as [Hp H1].
  rewrite Hp. simpl. apply IH; assumption.
Qed.



End DecimalStrings.



(** * Association lists *)

Section AssocFacts.
Context {V : Type}.
Implicit Types (l : list (string * V)) (k : string) (v : V).

Lemma Map_get_set_eq k v l : Map_get k (Map_set k v l) = Some v.
Proof.
  induction l as [|[k' v'] l IH]; simpl.
  - rewrite String.eqb_refl. reflexivity.
  - destruct (String.eqb k k') eqn:E; simpl.
    + rewrite String.eqb_refl. reflexivity.
    + rewrite E. exact IH.
Qed.

Lemma Map_get_delete_eq k l : Map_get k (Map_delete k l) = None.
Proof.
  induction l as [|[k' v'] l IH]; simpl; [reflexivity|].
  destruct (String.eqb k k') eqn:E; simpl; [exact IH|].
  rewrite E. exact IH.
Qed.

Lemma Map_get_IDB_insert k v l :
  Map_get k l = None -> Map_get k (IDB_insert k v l) = Some v.
Proof.
  induction l as [|[k' v'] l IH]; simpl.
  - rewrite String.eqb_refl. reflexivity.
  - destruct (String.eqb k k') eqn:E; [discriminate|]. intros H.
    destruct (String.ltb k k'); simpl.
    + rewrite String.eqb_refl. reflexivity.
    + rewrite E. exact (IH H).
Qed.

Lemma IDB_get_put_eq k v l : IDB_get k (IDB_put k v l) = Some v.
Proof.
  unfold IDB_get, IDB_put. apply Map_get_IDB_insert, Map_get_delete_eq.
Qed.

Lemma In_Map_set k v l e :
  In e (Map_set k v l) -> e = (k, v) \/ In e l.
Proof.
  induction l as [|[k' v'] l IH]; simpl.
  - intros [<-|[]]. left. reflexivity.
  - destruct (String.eqb k k'); simpl.
    + intros [<-|H]; auto.
    + intros [<-|H]; auto. destruct (IH H); auto.
Qed.

Lemma In_Map_delete k l e : In e (Map_delete k l) -> In e l.
Proof.
  induction l as [|[k' v'] l IH]; simpl; [tauto|].
  destruct (String.eqb k k'); simpl; intuition.
Qed.

Lemma IDB_insert_Permutation k v l :
  Permutation (IDB_insert k v l) ((k, v) :: l).
Proof.
  induction l as [|[k' v'] l IH]; simpl; [reflexivity|].
  destruct (String.ltb k k'); [reflexivity|].
  rewrite IH. apply perm_swap.
Qed.

Lemma In_IDB_put k v l e :
  In e (IDB_put k v l) -> e = (k, v) \/ In e l.
Proof.
  unfold IDB_put. intros H.
  apply (Permutation_in _ (IDB_insert_Permutation k v _)) in H.
  destruct H as [<-|H]; [left; reflexivity|].
  right. exact (In_Map_delete k l e H).
Qed.

Lemma In_keys_Map_delete k k' l :
  In k' (map fst (Map_delete k l)) -> k' <> k /\ In k' (map fst l).
Proof.
  induction l as [|[k1 v1] l IH]; simpl; [tauto|].
  destruct (String.eqb_spec k k1) as [->|Hne]; simpl.
  - intros H. destruct (IH H). auto.
  - intros [<-|H]; [auto|]. destruct (IH H). auto.
Qed.

Lemma NoDup_Map_delete k l :
  List.NoDup (map fst l) -> List.NoDup (map fst (Map_delete k l)).
Proof.
  induction l as [|[k1 v1] l IH]; simpl; [auto|].
  intros H. apply NoDup_cons_iff in H as [Hin Hnd].
  destruct (String.eqb k k1); simpl; [auto|].
  apply NoDup_cons_iff. split; [|auto].
  intros H. apply In_keys_Map_delete in H. tauto.
Qed.

Lemma In_keys_Map_set k v k' l :
  In k' (map fst (Map_set k v l)) -> k' = k \/ In k' (map fst l).
Proof.
  intros H. apply in_map_iff in H as ([k1 v1] & <- & H).
  apply In_Map_set in H as [[= -> ->]|H]; [left; reflexivity|].
  right. apply in_map_iff. exists (k1, v1). auto.
Qed.

Lemma NoDup_Map_set k v l :
  List.NoDup (map fst l) -> List.NoDup (map fst (Map_set k v l)).
Proof.
  induction l as [|[k1 v1] l IH]; simpl.
  - intros _. apply NoDup_cons_iff. split; [intros []|apply List.NoDup_nil].
  - intros H. apply NoDup_cons_iff in H as [Hin Hnd].
    destruct (String.eqb_spec k k1) as [->|Hne]; simpl.
    + apply NoDup_cons_iff. auto.
    + apply NoDup_cons_iff. split; [|auto].
      intros H. apply In_keys_Map_set in H as [->|H]; tauto.
Qed.

Lemma NoDup_IDB_put k v l :
  List.NoDup (map fst l) -> List.NoDup (map fst (IDB_put k v l)).
Proof.
  intros H. unfold IDB_put.
  apply (Permutation_NoDup
           (Permutation_sym
              (Permutation_map fst (IDB_insert_Permutation k v _)))).
  simpl. apply NoDup_cons_iff. split.
  - intros Hin. apply In_keys_Map_delete in Hin. tauto.
  - apply NoDup_Map_delete, H.
Qed.

Lemma Map_get_In k v l : Map_get k l = Some v -> In (k, v) l.
Proof.
  induction l as [|[k' v'] l IH]; simpl; [discriminate|].
  destruct (String.eqb_spec k k') as [->|_].
  - intros [= ->]. left. reflexivity.
  - intros H. right. exact (IH H).
Qed.
End AssocFacts.

(** * The content test *)

Section ContentFacts.
Context {number : Type}.
Implicit Types (m : gmap string (MealRecord number)) (r : MealRecord number).

Lemma hasMealData_Some r :
  hasMealData (Some r) = true <->
  (items r <> [] \/ exists s, image r = Some s /\ s <> EmptyString).
Proof.
  unfold hasMealData, Boolean. rewrite orb_true_iff. split.
  - intros [H|H].
    + left. destruct (items r); [discriminate H | discriminate].
    + right. destruct (image r) as [s|]; [|discriminate].
      exists s. split; [reflexivity|].
      intros ->. discriminate H.
  - intros [H|(s & Hs & Hne)].
    + left. destruct (items r); [congruence|]. simpl. apply Z.ltb_lt. lia.
    + right. rewrite Hs. destruct (String.eqb_spec s ""); [congruence | reflexivity].
Qed.

Lemma hasAnyMealData_true m : hasAnyMealData m = true <-> enteredContent m.
Proof.
  unfold hasAnyMealData, enteredContent. rewrite existsb_exists. split.
  - intros (r & Hin & Hr). apply in_map_iff in Hin as ([k r'] & <- & Hin).
    apply list_elem_of_In, elem_of_map_to_list in Hin.
    exists k, r'. split; [exact Hin | apply hasMealData_Some, Hr].
  - intros (k & r & Hk & Hr). exists r. split.
    + apply in_map_iff. exists (k, r). split; [reflexivity|].
      apply list_elem_of_In, elem_of_map_to_list, Hk.
    + apply hasMealData_Some, Hr.
Qed.

Lemma enteredContent_realContent m : enteredContent m -> realContent m.
Proof.
  intros (k & r & Hk & [H|(s & Hs & _)]); exists k, r; split; auto.
  right. congruence.
Qed.

Lemma hasAnyMealData_false m :
  hasAnyMealData m = false <-> ~ enteredContent m.
Proof.
  rewrite <- hasAnyMealData_true. destruct (hasAnyMealData m); split; congruence.
Qed.

Lemma getEmptyMealRecords_allEmpty : allEmpty (@getEmptyMealRecords number).
Proof.
  split.
  - intros slot. split.
    + intros [r Hr]. unfold getEmptyMealRecords in Hr. simpl in Hr.
      repeat (apply lookup_insert_Some in Hr as [[<- _]|[_ Hr]];
              [solve [ exists MORNING_SNACK; reflexivity
                     | exists BREAKFAST; reflexivity
                     | exists LATE_MORNING_SNACK; reflexivity
                     | exists LUNCH; reflexivity
                     | exists AFTERNOON_SNACK; reflexivity
                     | exists DINNER; reflexivity
                     | exists EVENING_SNACK; reflexivity ]|]).
      rewrite lookup_empty in Hr. discriminate.
    + intros [t ->]. destruct t; vm_compute; eexists; reflexivity.
  - intros t. destruct t; vm_compute; reflexivity.
Qed.
End ContentFacts.

(** * The methods, case by case *)

#[local] Arguments dateToKey : simpl never.
#[local] Arguments getEmptyMealRecords : simpl never.
#[local] Arguments hasAnyMealData : simpl never.
#[local] Arguments sortByDateAsc : simpl never.

Ltac destruct_world w :=
  let db := fresh "db" in let uf := fresh "uf" in
  let fs := fresh "fs" in let cb := fresh "cb" in
  let os := fresh "os" in let calls := fresh "calls" in
  let con := fresh "con" in let cbs := fresh "cbs" in
  destruct w as [[db uf fs cb] [os calls con cbs]].

Ltac destruct_env env :=
  let sup := fresh "sup" in let oo := fresh "oo" in
  let tx := fresh "tx" in let now := fresh "now" in
  destruct env as [sup oo tx now].

Ltac case_var x :=
  is_var x;
  lazymatch type of x with
  | World _ => fail
  | _ => destruct x
  end.

Ltac case_step :=
  match goal with
  | |- context [match ?x with _ => _ end] => case_var x
  | |- context [if ?x then _ else _] => case_var x
  | |- context [negb ?x] => case_var x
  | |- context [if isQuotaExceeded ?e then _ else _] =>
      destruct (isQuotaExceeded e) eqn:?
  | |- context [if String.eqb ?a ?b then _ else _] =>
      destruct (String.eqb a b) eqn:?
  end.

(** Evaluate a method on a world and an environment given by their fields,
    splitting on the fields the code branches on. *)
Ltac unfold_monad :=
  cbv [bind ret get modify with_this with_host set_db set_useFallback
       set_fallbackStorage set_errorCallback set_objectStore add_idbCall
       add_console_error add_callbackCall reject notifyError
       fallback_set fallback_delete fallback_get fallback_dates fallback_rows
       onupgradeneeded transaction
       this host db useFallback fallbackStorage errorCallback
       objectStore idbCalls console_error callbackCalls
       indexedDB_defined open_outcome tx_outcome Date_now
       keyPath records fst snd negb].

Ltac run_cases := repeat (unfold_monad; try case_step).

Section MethodFacts.
Context {number : Type}.
Implicit Types (w : World number) (m : gmap string (MealRecord number)).

Lemma notifyError_effect error w :
  notifyError error w =
  (tt, {| this := this w;
          host := {| objectStore := objectStore (host w);
                     idbCalls := idbCalls (host w);
                     console_error := console_error (host w) ++ [error];
                     callbackCalls :=
                       callbackCalls (host w) ++
                       match errorCallback (this w) with
                       | Some cb => [(cb, error)]
                       | None => []
                       end |} |}).
Proof.
  destruct_world w. unfold notifyError. run_cases; try reflexivity.
  rewrite app_nil_r. reflexivity.
Qed.

Lemma init_resolves env w : fst (init env w) = Resolved tt.
Proof.
  destruct_world w. destruct_env env. unfold init, notifyError.
  run_cases; reflexivity.
Qed.

(** [init] either fails to open, sets the flag and leaves the connection and
    the database as they were, or opens, clears the flag and makes sure
    the object store exists. *)
Lemma init_effect env w :
  let w1 := snd (init env w) in
  fallbackStorage (this w1) = fallbackStorage (this w) /\
  errorCallback (this w1) = errorCallback (this w) /\
  ((useFallback (this w1) = true /\ db (this w1) = db (this w) /\
    objectStore (host w1) = objectStore (host w) /\
    (indexedDB_defined env = false \/ open_outcome env <> Open_onsuccess))
   \/
   (useFallback (this w1) = false /\
    db (this w1) = Some {| db_name := dbName; db_version := version |} /\
    objectStore (host w1) =
      Some (match objectStore (host w) with
            | Some store => store
            | None => {| keyPath := "dateKey"; records := [] |}
            end) /\
    indexedDB_defined env = true /\ open_outcome env = Open_onsuccess)).
Proof.
  destruct_world w. destruct_env env. unfold init, notifyError.
  run_cases; (split; [reflexivity|]; split; [reflexivity|]);
    first [ left; repeat (split; [reflexivity|]);
            first [left; reflexivity | right; discriminate]
          | right; repeat split; reflexivity ].
Qed.

Lemma routed_cases {A : Type} env (F I : M number A) w :
  (useFallback (this w) = true /\ routed env F I w = F w) \/
  (useFallback (this w) = false /\ (exists c, db (this w) = Some c) /\
   routed env F I w = I w) \/
  (useFallback (this w) = false /\ db (this w) = None /\
   let w1 := snd (init env w) in
   ((useFallback (this w1) = true /\ db (this w1) = None /\
     routed env F I w = F w1) \/
    (useFallback (this w1) = false /\ (exists c, db (this w1) = Some c) /\
     routed env F I w = I w1))).
Proof.
  unfold routed, lazyInit, bind, get, ret.
  destruct (useFallback (this w)) eqn:Huf; [left; auto|right].
  destruct (db (this w)) as [c|] eqn:Hdb; [left; eauto|right].
  split; [reflexivity|]. split; [reflexivity|]. cbv zeta.
  pose proof (init_effect env w) as (_ & _ & H).
  destruct (init env w) as [r w1]. cbv zeta in H. simpl in *.
  destruct H as [(Hf & Hd & _)|(Hf & Hd & _)].
  - left. rewrite Hd, Hdb. auto.
  - right. rewrite Hd. eauto.
Qed.


(** A transitive relation between the world before and the world after that
    [init] and the two branches of a data method establish is established
    by the method. *)
Lemma routed_rel {A : Type} (R : World number -> World number -> Prop)
    env (F I : M number A) :
  (forall w1 w2 w3, R w1 w2 -> R w2 w3 -> R w1 w3) ->
  (forall w, R w (snd (init env w))) ->
  (forall w, R w (snd (F w))) ->
  (forall w, R w (snd (I w))) ->
  forall w, R w (snd (routed env F I w)).
Proof.
  intros Htrans Hinit HF HI w.
  destruct (routed_cases env F I w)
    as [[_ ->]|[(_ & _ & ->)|(_ & _ & [(_ & _ & ->)|(_ & _ & ->)])]]; eauto.
Qed.

(** A world that a data method no longer has to open: the flag is set or
    the connection is there. *)
Lemma routed_settled {A : Type} env (F I : M number A) w :
  settled w ->
  routed env F I w = if useFallback (this w) then F w else I w.
Proof.
  intros Hs. destruct (routed_cases env F I w) as [[Hf ->]|[(Hf & _ & ->)|(Hf & Hd & _)]];
    rewrite ?Hf; try reflexivity.
  destruct Hs as [Hs|[c Hs]]; congruence.
Qed.

Lemma save_promise_resolved env k dat w w' :
  save_promise env k dat w = (Resolved tt, w') ->
  this w' = this w /\
  exists store, objectStore (host w') = Some store /\
    IDB_get k (records store) = Some {| data := dat; dateKey := k |}.
Proof.
  destruct_world w. destruct_env env.
  unfold save_promise, store_put, notifyError. run_cases; try discriminate.
  intros [= <-]. split; [reflexivity|]. eexists. split; [reflexivity|].
    apply IDB_get_put_eq.
Qed.

Lemma delete_promise_resolved env k w w' :
  delete_promise env k w = (Resolved tt, w') ->
  this w' = this w /\
  exists store, objectStore (host w') = Some store /\
    IDB_get k (records store) = None.
Proof.
  destruct_world w. destruct_env env.
  unfold delete_promise, store_delete, notifyError. run_cases; try discriminate.
  intros [= <-]. split; [reflexivity|]. eexists. split; [reflexivity|].
  apply Map_get_delete_eq.
Qed.

Lemma Map_get_data k (recs : list (string * DataWithKey number)) :
  Map_get k (map (fun entry => (fst entry, data (snd entry))) recs) =
  option_map data (IDB_get k recs).
Proof.
  unfold IDB_get. induction recs as [|[k' row] recs IH]; simpl; [reflexivity|].
  destruct (String.eqb k k'); [reflexivity | exact IH].
Qed.

Lemma save_resolved env d m w w' :
  hasAnyMealData m = true ->
  saveMealRecords env d m w = (Resolved tt, w') ->
  settled w' /\
  activeLookup (dateToKey d) w' =
    Some {| date := d; meals := m; lastModified := Date_now env |}.
Proof.
  intros Hm. unfold saveMealRecords. rewrite Hm. cbn [negb]. cbv zeta.
  set (k := dateToKey d).
  set (dat := {| date := d; meals := m; lastModified := Date_now env |}).
  set (F := (fallback_set k dat;; ret (Resolved tt))%method).
  assert (HF : forall w0 w0', useFallback (this w0) = true ->
             F w0 = (Resolved tt, w0') ->
             settled w0' /\ activeLookup k w0' = Some dat).
  { intros w0 w0' Hf. destruct_world w0. simpl in Hf. subst.
    unfold F. unfold_monad. intros [= <-]. split; [left; reflexivity|].
    unfold activeLookup, activeEntries. cbn. apply Map_get_set_eq. }
  assert (HI : forall w0 w0', useFallback (this w0) = false ->
             (exists c, db (this w0) = Some c) ->
             save_promise env k dat w0 = (Resolved tt, w0') ->
             settled w0' /\ activeLookup k w0' = Some dat).
  { intros w0 w0' Hf [c Hc] H.
    apply save_promise_resolved in H as (Ht & store & Hs & Hg).
    split; [right; exists c; congruence|].
    unfold activeLookup, activeEntries.
    rewrite Ht, Hf, Hc, Hs, Map_get_data, Hg. reflexivity. }
  destruct (routed_cases env F (save_promise env k dat) w)
    as [[Hf ->]|[(Hf & Hd & ->)|(Hf & Hd & [(Hf1 & Hd1 & ->)|(Hf1 & Hd1 & ->)])]];
    eauto.
Qed.

Lemma delete_resolved env d w w' :
  deleteMealRecords env d w = (Resolved tt, w') ->
  settled w' /\ activeLookup (dateToKey d) w' = None.
Proof.
  unfold deleteMealRecords. cbv zeta. set (k := dateToKey d).
  set (F := (fallback_delete k;; ret (Resolved tt))%method).
  assert (HF : forall w0 w0', useFallback (this w0) = true ->
             F w0 = (Resolved tt, w0') ->
             settled w0' /\ activeLookup k w0' = None).
  { intros w0 w0' Hf. destruct_world w0. simpl in Hf. subst.
    unfold F. unfold_monad. intros [= <-]. split; [left; reflexivity|].
    unfold activeLookup, activeEntries. cbn. apply Map_get_delete_eq. }
  assert (HI : forall w0 w0', useFallback (this w0) = false ->
             (exists c, db (this w0) = Some c) ->
             delete_promise env k w0 = (Resolved tt, w0') ->
             settled w0' /\ activeLookup k w0' = None).
  { intros w0 w0' Hf [c Hc] H.
    apply delete_promise_resolved in H as (Ht & store & Hs & Hg).
    split; [right; exists c; congruence|].
    unfold activeLookup, activeEntries.
    rewrite Ht, Hf, Hc, Hs, Map_get_data, Hg. reflexivity. }
  destruct (routed_cases env F (delete_promise env k) w)
    as [[Hf ->]|[(Hf & Hd & ->)|(Hf & Hd & [(Hf1 & Hd1 & ->)|(Hf1 & Hd1 & ->)])]];
    eauto.
Qed.

(** What [loadMealRecords] resolves with when the read does not fail. *)
Lemma load_settled env d w :
  settled w -> tx_outcome env = Tx_success ->
  fst (loadMealRecords env d w) =
    Resolved match activeLookup (dateToKey d) w with
             | Some dat => meals dat
             | None => getEmptyMealRecords
             end.
Proof.
  intros Hs Htx. unfold loadMealRecords. cbv zeta.
  rewrite (routed_settled _ _ _ _ Hs). unfold activeLookup, activeEntries.
  destruct_world w. destruct_env env. simpl in Htx. subst.
  destruct uf.
  - unfold_monad. destruct (Map_get (dateToKey d) fs); reflexivity.
  - destruct Hs as [Hs|[c Hs]]; [discriminate Hs|]. simpl in Hs. subst.
    destruct os as [[kp recs]|]; unfold load_promise; cbn.
    + rewrite Map_get_data. unfold IDB_get.
      destruct (Map_get (dateToKey d) recs); reflexivity.
    + run_cases; reflexivity.
Qed.

End MethodFacts.

Section LoadFacts.
Context {number : Type}.
Implicit Types (w : World number) (m : gmap string (MealRecord number)).

Lemma afterOpen_settled env w : settled (afterOpen env w).
Proof.
  unfold afterOpen, settled, lazyInit, bind, get, ret.
  destruct (useFallback (this w)) eqn:Hf; [left; exact Hf|].
  destruct (db (this w)) as [c|] eqn:Hd; simpl; [right; eauto|].
  pose proof (init_effect env w) as (_ & _ & H).
  destruct (init env w) as [r w1]. simpl in *.
  destruct H as [(H & _)|(_ & H & _)]; [left; exact H | right; eauto].
Qed.

(** A data method behaves in the world of the call as in the world that its
    lazy open leaves. *)
Lemma routed_afterOpen {A : Type} env (F I : M number A) w :
  routed env F I w =
  if useFallback (this (afterOpen env w)) then F (afterOpen env w)
  else I (afterOpen env w).
Proof.
  unfold afterOpen.
  destruct (routed_cases env F I w)
    as [[Hf ->]|[(Hf & [c Hd] & ->)|(Hf & Hd & H)]]; rewrite Hf.
  - rewrite Hf. reflexivity.
  - unfold lazyInit, bind, get, ret. rewrite Hd. simpl. rewrite Hf. reflexivity.
  - unfold lazyInit, bind, get, ret. rewrite Hd. cbv zeta in H.
    destruct (init env w) as [r w1]. simpl in *.
    destruct H as [(Hf1 & _ & ->)|(Hf1 & _ & ->)]; rewrite Hf1; reflexivity.
Qed.

Lemma load_promise_resolves env k w :
  exists v, fst (load_promise env k w) = Resolved v.
Proof.
  destruct_world w. destruct_env env. unfold load_promise.
  destruct tx; destruct os as [[kp recs]|]; unfold_monad;
    try destruct (IDB_get k recs); try destruct cb; eexists; reflexivity.
Qed.

(** When the read fails, the promise reports [LOAD_FAILED] and resolves
    with the empty records. *)
Lemma load_promise_fails env k w :
  tx_outcome env <> Tx_success \/ objectStore (host w) = None ->
  exists error w',
    load_promise env k w = (Resolved getEmptyMealRecords, w') /\
    this w' = this w /\
    console_error (host w') = (console_error (host w) ++ [error])%list /\
    callbackCalls (host w') =
      (callbackCalls (host w) ++
       match errorCallback (this w) with
       | Some cb => [(cb, error)]
       | None => []
       end)%list /\
    type error = LOAD_FAILED.
Proof.
  destruct_world w. destruct_env env. unfold load_promise. simpl.
  intros H.
  destruct tx as [e|e|]; destruct os as [[kp recs]|];
    try (destruct H as [H|H]; congruence);
    destruct cb; unfold_monad; do 2 eexists;
    (split; [reflexivity|]); (split; [reflexivity|]);
    (split; [reflexivity|]); rewrite ?app_nil_r; split; reflexivity.
Qed.

Lemma load_absent env d w :
  settled w -> activeLookup (dateToKey d) w = None ->
  fst (loadMealRecords env d w) = Resolved getEmptyMealRecords.
Proof.
  intros Hs Ha. unfold loadMealRecords. cbv zeta.
  rewrite (routed_settled _ _ _ _ Hs). unfold activeLookup, activeEntries in Ha.
  destruct_world w. destruct_env env. simpl in *.
  destruct uf.
  - unfold_monad. rewrite Ha. reflexivity.
  - destruct Hs as [Hs|[c Hs]]; [discriminate Hs|]. simpl in Hs. subst.
    destruct os as [[kp recs]|]; unfold load_promise;
      rewrite ?Map_get_data in Ha; unfold IDB_get in *; simpl in Ha.
    + destruct tx; destruct cb; unfold_monad;
        destruct (Map_get (dateToKey d) recs); try discriminate; reflexivity.
    + destruct tx; destruct cb; unfold_monad; reflexivity.
Qed.

End LoadFacts.

(** C1 (amended).  If [saveMealRecords d m] resolves, then a following
    [loadMealRecords d] whose read succeeds resolves with [m] itself when
    some slot of [m] has a non-empty item list or a non-empty image string,
    and resolves with the all-empty default when no slot of [m] has. *)
Theorem save_load_roundtrip {number : Type} (env env' : Env) (d : DateKey)
    (m : gmap string (MealRecord number)) (w w' : World number) :
  saveMealRecords env d m w = (Resolved tt, w') ->
  (enteredContent m -> tx_outcome env' = Tx_success ->
   fst (loadMealRecords env' d w') = Resolved m) /\
  (~ enteredContent m ->
   fst (loadMealRecords env' d w') = Resolved getEmptyMealRecords).
Proof.
  intros Hsave. split.
  - intros Hm Htx. apply hasAnyMealData_true in Hm.
    destruct (save_resolved env d m w w' Hm Hsave) as [Hs Ha].
    rewrite (load_settled env' d w' Hs Htx), Ha. reflexivity.
  - intros Hm. apply hasAnyMealData_false in Hm.
    unfold saveMealRecords in Hsave. rewrite Hm in Hsave. simpl in Hsave.
    destruct (delete_resolved env d w w' Hsave) as [Hs Ha].
    apply load_absent; assumption.
Qed.


Lemma save_load_roundtrip_witness :
  fst (loadMealRecords online jan15
         (snd (saveMealRecords online jan15 appleBreakfast world0)))
  = Resolved appleBreakfast.
Proof.
  refine (proj1 (save_load_roundtrip online online jan15 appleBreakfast world0
                   (snd (saveMealRecords online jan15 appleBreakfast world0)) _) _ _).
  - vm_compute. reflexivity.
  - exists (MealType_value BREAKFAST). eexists. split; [vm_compute; reflexivity|].
    left. discriminate.
  - reflexivity.
Defined.

Lemma save_load_blank_image_counterexample :
  validDateKey jan15 /\
  realContent blankImageBreakfast /\
  fst (saveMealRecords online jan15 blankImageBreakfast world0) = Resolved tt /\
  fst (loadMealRecords online jan15
         (snd (saveMealRecords online jan15 blankImageBreakfast world0)))
  <> Resolved blankImageBreakfast /\
  fst (saveMealRecords online jan15 appleBreakfast world0) = Resolved tt /\
  fst (loadMealRecords (txFails "UnknownError") jan15
         (snd (saveMealRecords online jan15 appleBreakfast world0)))
  <> Resolved appleBreakfast.
Proof.
  split; [unfold validDateKey; simpl; lia|]. split.
  { exists (MealType_value BREAKFAST). eexists. split; [vm_compute; reflexivity|].
    right. discriminate. }
  split; [vm_compute; reflexivity|]. split.
  - intros H.
    assert (E : fst (loadMealRecords online jan15
         (snd (saveMealRecords online jan15 blankImageBreakfast world0)))
         = Resolved emptyMeals) by (vm_compute; reflexivity).
    rewrite E in H.
    apply (f_equal (fun r => match r with
                             | Resolved x => x !! MealType_value BREAKFAST
                             | Rejected _ => None
                             end)) in H.
    vm_compute in H. discriminate H.
  - split; [vm_compute; reflexivity|]. intros H.
    assert (E : fst (loadMealRecords (txFails "UnknownError") jan15
         (snd (saveMealRecords online jan15 appleBreakfast world0)))
         = Resolved emptyMeals) by (vm_compute; reflexivity).
    rewrite E in H.
    apply (f_equal (fun r => match r with
                             | Resolved x => x !! MealType_value BREAKFAST
                             | Rejected _ => None
                             end)) in H.
    vm_compute in H. discriminate H.
Qed.

(** * How the methods change the two stores *)

Section Changes.
Context {number : Type}.
Implicit Types (w : World number) (m : gmap string (MealRecord number)).

Lemma stores_eq_changes (s s' : Stores (number:=number)) :
  s' = s -> rtc change s s'.
Proof. intros ->. apply rtc_refl. Qed.

Lemma init_changes env w : rtc change (stores w) (stores (snd (init env w))).
Proof.
  pose proof (init_effect env w) as (Hfs & _ & H). cbv zeta in *.
  unfold stores. rewrite Hfs.
  destruct H as [(_ & _ & -> & _)|(_ & _ & -> & _)]; [apply rtc_refl|].
  destruct (objectStore (host w)); [apply rtc_refl|].
  apply rtc_once, change_create.
Qed.

Lemma routed_changes {A : Type} env (F I : M number A) :
  (forall w, rtc change (stores w) (stores (snd (F w)))) ->
  (forall w, rtc change (stores w) (stores (snd (I w)))) ->
  forall w, rtc change (stores w) (stores (snd (routed env F I w))).
Proof.
  intros HF HI.
  apply (routed_rel (fun w w' => rtc change (stores w) (stores w'))); auto.
  - intros w1 w2 w3. apply rtc_trans.
  - apply init_changes.
Qed.

Lemma fallback_set_changes env d m w :
  hasAnyMealData m = true ->
  rtc change (stores w)
    (stores (snd ((fallback_set (dateToKey d)
                     {| date := d; meals := m; lastModified := Date_now env |};;
                   ret (Resolved tt))%method w))).
Proof.
  intros Hm. destruct_world w. unfold_monad.
  apply rtc_once. apply (change_fallback_set fs os env d m Hm).
Qed.

Lemma fallback_delete_changes d w :
  rtc change (stores w)
    (stores (snd ((fallback_delete (dateToKey d);;
                   ret (Resolved tt))%method w))).
Proof.
  destruct_world w. unfold_monad. apply rtc_once, change_fallback_delete.
Qed.

Lemma save_promise_changes env d m w :
  hasAnyMealData m = true ->
  rtc change (stores w)
    (stores (snd (save_promise env (dateToKey d)
                    {| date := d; meals := m; lastModified := Date_now env |}
                    w))).
Proof.
  intros Hm. destruct_world w. destruct_env env. unfold save_promise.
  destruct tx as [e|e|]; destruct os as [[kp recs]|]; unfold_monad;
    try destruct (isQuotaExceeded e); unfold_monad;
    try (destruct cb; apply rtc_refl).
  destruct (store_put {| keyPath := kp; records := recs |} _) as [store'|] eqn:Hput.
  - unfold_monad. apply rtc_once.
    apply (change_put fs _ store'
             {| indexedDB_defined := sup; open_outcome := oo;
                tx_outcome := Tx_success; Date_now := now |} d m Hm Hput).
  - unfold_monad. destruct cb; apply rtc_refl.
Qed.

Lemma delete_promise_changes env d w :
  rtc change (stores w) (stores (snd (delete_promise env (dateToKey d) w))).
Proof.
  destruct_world w. destruct_env env. unfold delete_promise.
  destruct tx as [e|e|]; destruct os as [[kp recs]|]; unfold_monad;
    try (destruct cb; apply rtc_refl).
  apply rtc_once. apply (change_delete fs {| keyPath := kp; records := recs |} d).
Qed.

(** The reads leave the two stores as they are. *)
Lemma fallback_get_stores k w : stores (snd (fallback_get k w)) = stores w.
Proof.
  destruct_world w. unfold_monad. destruct (Map_get k fs); reflexivity.
Qed.

Lemma load_promise_stores env k w :
  stores (snd (load_promise env k w)) = stores w.
Proof.
  destruct_world w. destruct_env env. unfold load_promise.
  destruct tx; destruct os as [[kp recs]|]; unfold_monad;
    try destruct (IDB_get k recs); destruct cb; reflexivity.
Qed.

Lemma dates_promise_stores env w :
  stores (snd (dates_promise env w)) = stores w.
Proof.
  destruct_world w. destruct_env env. unfold dates_promise.
  destruct tx; destruct os as [[kp recs]|]; unfold_monad;
    destruct cb; reflexivity.
Qed.

Lemma rows_promise_stores env w :
  stores (snd (rows_promise env w)) = stores w.
Proof.
  destruct_world w. destruct_env env. unfold rows_promise.
  destruct tx; destruct os as [[kp recs]|]; unfold_monad;
    destruct cb; reflexivity.
Qed.

Lemma deleteMealRecords_changes env d w :
  rtc change (stores w) (stores (snd (deleteMealRecords env d w))).
Proof.
  unfold deleteMealRecords. cbv zeta. apply routed_changes; intros w0.
  - apply fallback_delete_changes.
  - apply delete_promise_changes.
Qed.

Lemma saveMealRecords_changes env d m w :
  rtc change (stores w) (stores (snd (saveMealRecords env d m w))).
Proof.
  unfold saveMealRecords. destruct (hasAnyMealData m) eqn:Hm; cbn [negb].
  - cbv zeta. apply routed_changes; intros w0.
    + apply fallback_set_changes, Hm.
    + apply save_promise_changes, Hm.
  - apply deleteMealRecords_changes.
Qed.

Lemma step_changes env c w : rtc change (stores w) (stores (step env c w)).
Proof.
  destruct c; simpl.
  - apply init_changes.
  - apply rtc_refl.
  - apply saveMealRecords_changes.
  - unfold loadMealRecords. cbv zeta. apply routed_changes; intros w0;
      apply stores_eq_changes; [apply fallback_get_stores | apply load_promise_stores].
  - apply deleteMealRecords_changes.
  - unfold getAllDatesWithData. apply routed_changes; intros w0;
      apply stores_eq_changes; [reflexivity | apply dates_promise_stores].
  - unfold getAllMealData. apply routed_changes; intros w0;
      apply stores_eq_changes; [reflexivity | apply rows_promise_stores].
  - destruct_world w. apply rtc_once, change_fallback_reset.
Qed.

Lemma run_changes calls w : rtc change (stores w) (stores (run calls w)).
Proof.
  revert w. induction calls as [|[env c] calls IH]; intros w; simpl.
  - apply rtc_refl.
  - eapply rtc_trans; [apply step_changes | apply IH].
Qed.

(** An invariant of the stores that every change preserves holds after every
    sequence of calls. *)
Lemma run_invariant (P : Stores (number:=number) -> Prop) :
  (forall s s', change s s' -> P s -> P s') ->
  forall calls w, P (stores w) -> P (stores (run calls w)).
Proof.
  intros Hstep calls w Hw.
  induction (run_changes calls w) as [|s1 s2 s3 H12 _ IH]; eauto.
Qed.

End Changes.

(** * Invariants of the two stores *)

Section Invariants.
Context {number : Type}.
Implicit Types (w : World number) (m : gmap string (MealRecord number))
  (s : Stores (number:=number)).

Lemma store_put_Some (store store' : IDBObjectStore number) row :
  store_put store row = Some store' ->
  keyPath store = "dateKey" /\
  store' = {| keyPath := keyPath store;
              records := IDB_put (dateKey row) row (records store) |}.
Proof.
  unfold store_put. destruct (String.eqb_spec (keyPath store) "dateKey");
    [|discriminate].
  intros [= <-]. auto.
Qed.

Lemma keyedEntries_nil {V : Type} (date_of : V -> DateKey) :
  keyedEntries date_of [].
Proof. split; [apply List.NoDup_nil | intros k v []]. Qed.

Lemma keyedEntries_Map_set {V : Type} (date_of : V -> DateKey) k v l :
  k = dateToKey (date_of v) ->
  keyedEntries date_of l -> keyedEntries date_of (Map_set k v l).
Proof.
  intros Hk [Hnd Hkeys]. split; [apply NoDup_Map_set, Hnd|].
  intros k' v' H. apply In_Map_set in H as [[= -> ->]|H]; auto.
Qed.

Lemma keyedEntries_Map_delete {V : Type} (date_of : V -> DateKey) k l :
  keyedEntries date_of l -> keyedEntries date_of (Map_delete k l).
Proof.
  intros [Hnd Hkeys]. split; [apply NoDup_Map_delete, Hnd|].
  intros k' v' H. apply In_Map_delete in H. auto.
Qed.

Lemma keyedEntries_IDB_put {V : Type} (date_of : V -> DateKey) k v l :
  k = dateToKey (date_of v) ->
  keyedEntries date_of l -> keyedEntries date_of (IDB_put k v l).
Proof.
  intros Hk [Hnd Hkeys]. split; [apply NoDup_IDB_put, Hnd|].
  intros k' v' H. apply In_IDB_put in H as [[= -> ->]|H]; auto.
Qed.

Lemma change_keyed s s' : change s s' -> keyed s -> keyed s'.
Proof.
  intros Hc [Hf Hd]. destruct Hc; simpl in *.
  - split; [exact Hf|]. intros store' [= <-]. apply keyedEntries_nil.
  - split; [exact Hf|]. intros store'' [= <-].
    apply store_put_Some in H0 as [_ ->]. simpl.
    apply keyedEntries_IDB_put; [reflexivity | apply Hd; reflexivity].
  - split; [exact Hf|]. intros store'' [= <-]. simpl.
    apply keyedEntries_Map_delete, Hd. reflexivity.
  - split; [|exact Hd]. apply keyedEntries_Map_set; [reflexivity | exact Hf].
  - split; [|exact Hd]. apply keyedEntries_Map_delete, Hf.
  - split; [|exact Hd]. apply keyedEntries_nil.
Qed.


Lemma change_dateKeyed s s' : change s s' -> dateKeyed s -> dateKeyed s'.
Proof.
  intros Hc Hd. destruct Hc; intros st Hst; simpl in *.
  - injection Hst as <-. split; [reflexivity | intros k row []].
  - injection Hst as <-. destruct (Hd store eq_refl) as [Hkp Hrows].
    apply store_put_Some in H0 as [_ ->]. simpl. split; [exact Hkp|].
    intros k row Hin. apply In_IDB_put in Hin as [[= -> ->]|Hin]; auto.
  - injection Hst as <-. destruct (Hd store eq_refl) as [Hkp Hrows].
    simpl. split; [exact Hkp|]. intros k row Hin.
    apply In_Map_delete in Hin. auto.
  - apply Hd, Hst.
  - apply Hd, Hst.
  - apply Hd, Hst.
Qed.

Lemma initial_invariants :
  keyed (stores (@initialWorld number)) /\
  withContent (stores (@initialWorld number)) /\
  dateKeyed (stores (@initialWorld number)).
Proof.
  repeat split; simpl; try discriminate; try (intros k d []).
  apply List.NoDup_nil.
Qed.

End Invariants.

(** * Deleting instead of saving an empty day *)

Section EmptyDays.
Context {number : Type}.
Implicit Types (w : World number) (m : gmap string (MealRecord number)).







End EmptyDays.


(** * Loading never rejects *)

(** C3.  [loadMealRecords d] always resolves.  If the store it is routed
    to has no entry for [d], or the read fails, it resolves with the mapping
    of exactly the 7 fixed slots, each with an empty item list and no image;
    a read failure is first logged and passed to the registered error
    callback as a [LOAD_FAILED] error. *)
Theorem load_never_rejects {number : Type} (env : Env) (d : DateKey)
    (w : World number) :
  let w1 := afterOpen env w in
  exists v w',
    loadMealRecords env d w = (Resolved v, w') /\
    (activeLookup (dateToKey d) w1 = None \/ readFails env w1 ->
     v = getEmptyMealRecords /\ allEmpty v) /\
    (readFails env w1 ->
     exists error,
       type error = LOAD_FAILED /\
       console_error (host w') = (console_error (host w1) ++ [error])%list /\
       forall cb, errorCallback (this w1) = Some cb ->
         callbackCalls (host w') =
           (callbackCalls (host w1) ++ [(cb, error)])%list).
Proof.
  intros w1. pose proof (afterOpen_settled env w) as Hs. fold w1 in Hs.
  assert (Hload : loadMealRecords env d w = loadMealRecords env d w1).
  { unfold loadMealRecords. cbv zeta. rewrite routed_afterOpen. fold w1.
    rewrite (routed_settled _ _ _ _ Hs). reflexivity. }
  rewrite Hload.
  destruct (loadMealRecords env d w1) as [r w'] eqn:Hl.
  assert (Hr : exists v, r = Resolved v).
  { pose proof (f_equal fst Hl) as Hfst. simpl in Hfst. rewrite <- Hfst.
    unfold loadMealRecords. cbv zeta. rewrite (routed_settled _ _ _ _ Hs).
    destruct (useFallback (this w1)).
    - unfold fallback_get, bind, get, ret.
      destruct (Map_get _ _); eexists; reflexivity.
    - apply load_promise_resolves. }
  destruct Hr as [v ->]. exists v, w'. split; [reflexivity|].
  assert (Hfail : readFails env w1 ->
            v = getEmptyMealRecords /\
            exists error,
              type error = LOAD_FAILED /\
              console_error (host w') = (console_error (host w1) ++ [error])%list /\
              forall cb, errorCallback (this w1) = Some cb ->
                callbackCalls (host w') =
                  (callbackCalls (host w1) ++ [(cb, error)])%list).
  { intros [Hf Hbad]. unfold loadMealRecords in Hl. cbv zeta in Hl.
    rewrite (routed_settled _ _ _ _ Hs), Hf in Hl.
    destruct (load_promise_fails env (dateToKey d) w1 Hbad)
      as (error & w2 & Hp & _ & Hcon & Hcb & Hty).
    rewrite Hp in Hl. injection Hl as <- <-. split; [reflexivity|].
    exists error. split; [exact Hty|]. split; [exact Hcon|].
    intros cb Hcbk. rewrite Hcb, Hcbk. reflexivity. }
  split.
  - intros [Habs|Hrf].
    + pose proof (load_absent env d w1 Hs Habs) as E. rewrite Hl in E.
      simpl in E. injection E as ->.
      split; [reflexivity | apply getEmptyMealRecords_allEmpty].
    + destruct (Hfail Hrf) as [-> _].
      split; [reflexivity | apply getEmptyMealRecords_allEmpty].
  - intros Hrf. apply Hfail, Hrf.
Qed.

(** * Classifying a failed write *)

Section SaveFailures.
Context {number : Type}.
Implicit Types (w : World number) (m : gmap string (MealRecord number)).

Lemma save_promise_onerror env k dat w e :
  tx_outcome env = Tx_onerror e ->
  (exists store, objectStore (host w) = Some store) ->
  exists error w',
    save_promise env k dat w = (Rejected error, w') /\
    stores w' = stores w /\
    console_error (host w') = (console_error (host w) ++ [error])%list /\
    callbackCalls (host w') =
      (callbackCalls (host w) ++
       match errorCallback (this w) with
       | Some cb => [(cb, error)]
       | None => []
       end)%list /\
    originalError error = e /\
    type error = if isQuotaExceeded e then QUOTA_EXCEEDED else SAVE_FAILED.
Proof.
  destruct_world w. destruct_env env. simpl. intros -> [store ->].
  unfold save_promise. unfold_monad.
  destruct (isQuotaExceeded e); destruct cb; unfold_monad; do 2 eexists;
    repeat (split; [rewrite ?app_nil_r; reflexivity|]); reflexivity.
Qed.

Lemma save_promise_throws env k dat w e :
  tx_outcome env = Tx_throws e ->
  exists error w',
    save_promise env k dat w = (Rejected error, w') /\
    stores w' = stores w /\
    console_error (host w') = (console_error (host w) ++ [error])%list /\
    callbackCalls (host w') =
      (callbackCalls (host w) ++
       match errorCallback (this w) with
       | Some cb => [(cb, error)]
       | None => []
       end)%list /\
    originalError error = Some e /\
    type error = SAVE_FAILED.
Proof.
  destruct_world w. destruct_env env. simpl. intros ->.
  unfold save_promise. unfold_monad.
  destruct cb; unfold_monad; do 2 eexists;
    repeat (split; [rewrite ?app_nil_r; reflexivity|]); reflexivity.
Qed.

Lemma isQuotaExceeded_true e :
  isQuotaExceeded e = true <->
  exists err, e = Some err /\ exn_name err = "QuotaExceededError".
Proof.
  unfold isQuotaExceeded. split.
  - destruct e as [err|]; [|discriminate]. intros H.
    exists err. split; [reflexivity | apply String.eqb_eq, H].
  - intros (err & -> & H). apply String.eqb_eq, H.
Qed.

Lemma save_routed_to_database env d m w :
  hasAnyMealData m = true ->
  useFallback (this (afterOpen env w)) = false ->
  saveMealRecords env d m w =
  save_promise env (dateToKey d)
    {| date := d; meals := m; lastModified := Date_now env |}
    (afterOpen env w).
Proof.
  intros Hm Hf. unfold saveMealRecords. rewrite Hm. cbn [negb]. cbv zeta.
  rewrite routed_afterOpen, Hf. reflexivity.
Qed.

End SaveFailures.

(** C6.  When [saveMealRecords] writes to the database and the write
    transaction ends in an error, the promise rejects with an error that is
    also logged and passed to the registered error callback; its kind is
    [QUOTA_EXCEEDED] exactly when the transaction error is named
    QuotaExceededError, and [SAVE_FAILED] otherwise; the two kinds differ. *)
Theorem save_failure_classified {number : Type} (env : Env) (d : DateKey)
    (m : gmap string (MealRecord number)) (w : World number)
    (e : option DOMException) :
  let w1 := afterOpen env w in
  enteredContent m ->
  useFallback (this w1) = false ->
  (exists store, objectStore (host w1) = Some store) ->
  tx_outcome env = Tx_onerror e ->
  exists error w',
    saveMealRecords env d m w = (Rejected error, w') /\
    (type error = QUOTA_EXCEEDED <->
     exists err, e = Some err /\ exn_name err = "QuotaExceededError") /\
    (type error = SAVE_FAILED <->
     ~ exists err, e = Some err /\ exn_name err = "QuotaExceededError") /\
    QUOTA_EXCEEDED <> SAVE_FAILED /\
    console_error (host w') = (console_error (host w1) ++ [error])%list /\
    (forall cb, errorCallback (this w1) = Some cb ->
       callbackCalls (host w') = (callbackCalls (host w1) ++ [(cb, error)])%list) /\
    stores w' = stores w1.
Proof.
  intros w1 Hm Hf Hstore Htx. apply hasAnyMealData_true in Hm.
  rewrite (save_routed_to_database env d m w Hm Hf). fold w1.
  destruct (save_promise_onerror env (dateToKey d)
              {| date := d; meals := m; lastModified := Date_now env |}
              w1 e Htx Hstore)
    as (error & w' & Hp & Hst & Hcon & Hcb & _ & Hty).
  exists error, w'. split; [exact Hp|].
  assert (Hcbs : forall cb, errorCallback (this w1) = Some cb ->
            callbackCalls (host w') =
              (callbackCalls (host w1) ++ [(cb, error)])%list).
  { intros cb Hc. rewrite Hcb, Hc. reflexivity. }
  rewrite <- isQuotaExceeded_true. rewrite Hty.
  destruct (isQuotaExceeded e); intuition congruence.
Qed.

(** * The fallback flag and the data methods *)

Section FallbackMode.
Context {number : Type}.
Implicit Types (w : World number) (m : gmap string (MealRecord number)).

Lemma routed_fallback {A : Type} env (F I : M number A) w :
  useFallback (this w) = true -> routed env F I w = F w.
Proof.
  intros Hf. rewrite routed_settled by (left; exact Hf). rewrite Hf. reflexivity.
Qed.

(** On fallback, a data method only reads or updates the in-memory map. *)
Lemma data_call_on_fallback env c w :
  useFallback (this w) = true -> isDataCall c = true ->
  useFallback (this (step env c w)) = true /\
  db (this (step env c w)) = db (this w) /\
  host (step env c w) = host w.
Proof.
  intros Hf Hc. destruct c; try discriminate Hc; unfold step;
    unfold saveMealRecords, loadMealRecords, deleteMealRecords,
      getAllDatesWithData, getAllMealData; cbv zeta;
    try destruct (negb (hasAnyMealData _));
    rewrite (routed_fallback _ _ _ _ Hf);
    destruct_world w; simpl in Hf; subst; unfold_monad;
    try destruct (Map_get _ fs); auto.
Qed.

Lemma data_calls_on_fallback calls w :
  useFallback (this w) = true ->
  Forall (fun call => isDataCall (snd call) = true) calls ->
  useFallback (this (run calls w)) = true /\
  db (this (run calls w)) = db (this w) /\
  host (run calls w) = host w.
Proof.
  intros Hf Hcalls. revert w Hf.
  induction Hcalls as [|[env c] calls Hc _ IH]; intros w Hf; simpl; [auto|].
  destruct (data_call_on_fallback env c w Hf Hc) as (Hf1 & Hd1 & Hh1).
  destruct (IH _ Hf1) as (Hf2 & Hd2 & Hh2). rewrite Hd2, Hh2. auto.
Qed.

End FallbackMode.

(** C7 (amended).  Once the fallback flag is set, it stays set across every
    sequence of saveMealRecords, loadMealRecords, deleteMealRecords,
    getAllDatesWithData and getAllMealData calls; none of them opens or
    touches the database; each of them is its in-memory branch. *)
Theorem fallback_kept_by_data_calls {number : Type}
    (calls : list (Env * Call (number:=number))) (w : World number) :
  useFallback (this w) = true ->
  Forall (fun call => isDataCall (snd call) = true) calls ->
  let w' := run calls w in
  useFallback (this w') = true /\
  idbCalls (host w') = idbCalls (host w) /\
  objectStore (host w') = objectStore (host w) /\
  forall env d m,
    saveMealRecords env d m w' =
      (if hasAnyMealData m
       then (fallback_set (dateToKey d)
               {| date := d; meals := m; lastModified := Date_now env |};;
             ret (Resolved tt))%method w'
       else (fallback_delete (dateToKey d);; ret (Resolved tt))%method w') /\
    loadMealRecords env d w' = fallback_get (dateToKey d) w' /\
    deleteMealRecords env d w' =
      (fallback_delete (dateToKey d);; ret (Resolved tt))%method w' /\
    getAllDatesWithData env w' = fallback_dates w' /\
    getAllMealData env w' = fallback_rows w'.
Proof.
  intros Hf Hcalls w'.
  destruct (data_calls_on_fallback calls w Hf Hcalls) as (Hf' & _ & Hh).
  fold w' in Hf', Hh. rewrite Hh. repeat split; auto.
  - unfold saveMealRecords, deleteMealRecords.
    destruct (hasAnyMealData m); cbn [negb]; cbv zeta;
      apply routed_fallback, Hf'.
  - apply routed_fallback, Hf'.
  - apply routed_fallback, Hf'.
  - apply routed_fallback, Hf'.
  - apply routed_fallback, Hf'.
Qed.

(** * Opening again *)


(** * The records of the object store *)

Section StoredRecords.
Context {number : Type}.
Implicit Types (w : World number) (m : gmap string (MealRecord number)).

Lemma changes_invariant (P : Stores (number:=number) -> Prop) s s' :
  (forall s1 s2, change s1 s2 -> P s1 -> P s2) ->
  rtc change s s' -> P s -> P s'.
Proof. intros Hstep H. induction H; eauto. Qed.

Lemma run_dateKeyed calls : dateKeyed (stores (run calls (@initialWorld number))).
Proof.
  apply (run_invariant dateKeyed).
  - intros s s'. apply change_dateKeyed.
  - apply initial_invariants.
Qed.

End StoredRecords.

(** C10.  After any sequence of calls, the object store is keyed on
    [dateKey] and every record of it carries in [dateKey] its key, the
    canonical key of its [date]; a [saveMealRecords] that resolves on the
    database has stored, under the canonical key of the date, the data
    together with that key in [dateKey]. *)
Theorem saved_record_carries_dateKey {number : Type}
    (calls : list (Env * Call (number:=number))) (env : Env) (d : DateKey)
    (m : gmap string (MealRecord number)) :
  let w := run calls initialWorld in
  let w' := snd (saveMealRecords env d m w) in
  dateKeyed (stores w') /\
  (enteredContent m ->
   fst (saveMealRecords env d m w) = Resolved tt ->
   useFallback (this w') = false ->
   exists store,
     objectStore (host w') = Some store /\
     keyPath store = "dateKey" /\
     IDB_get (dateToKey d) (records store) =
       Some {| data := {| date := d; meals := m;
                          lastModified := Date_now env |};
               dateKey := dateToKey d |}).
Proof.
  intros w w'.
  assert (Hinv : dateKeyed (stores w')).
  { apply (changes_invariant dateKeyed (stores w)).
    - intros s1 s2. apply change_dateKeyed.
    - apply saveMealRecords_changes.
    - apply run_dateKeyed. }
  split; [exact Hinv|].
  intros Hm Hres Hf. apply hasAnyMealData_true in Hm.
  destruct (saveMealRecords env d m w) as [r w''] eqn:Hsave.
  simpl in Hres. subst r. simpl in w'. subst w'.
  destruct (save_resolved env d m w w'' Hm Hsave) as [Hs Ha].
  unfold activeLookup, activeEntries in Ha. rewrite Hf in Ha.
  destruct Hs as [Hs|[c Hc]]; [congruence|]. rewrite Hc in Ha.
  destruct (objectStore (host w'')) as [store|] eqn:Hstore; [|discriminate Ha].
  rewrite Map_get_data in Ha.
  destruct (IDB_get (dateToKey d) (records store)) as [row|] eqn:Hget;
    [|discriminate Ha].
  simpl in Ha. injection Ha as Hdata.
  destruct (Hinv store Hstore) as [Hkp Hrows].
  destruct (Hrows _ _ (Map_get_In _ _ _ Hget)) as [Hkey _].
  exists store. split; [reflexivity|]. split; [exact Hkp|].
  destruct row as [dat key]. simpl in *. subst. exact Hget.
Qed.

(** * Evaluations on the sample data *)




Lemma save_failure_classified_witness :
  exists error w',
    saveMealRecords (txFails "QuotaExceededError") jan15 appleBreakfast ready
      = (Rejected error, w') /\
    type error = QUOTA_EXCEEDED.
Proof.
  destruct (save_failure_classified (txFails "QuotaExceededError") jan15
              appleBreakfast ready
              (Some {| exn_name := "QuotaExceededError" |}))
    as (error & w' & Hsave & Hq & _).
  - exists (MealType_value BREAKFAST). eexists.
    split; [vm_compute; reflexivity|]. left. discriminate.
  - reflexivity.
  - eexists. reflexivity.
  - reflexivity.
  - exists error, w'. split; [exact Hsave|]. apply Hq. eexists. split; reflexivity.
Defined.

Lemma fallback_kept_by_data_calls_witness :
  useFallback
    (this (run [(online, Call_saveMealRecords jan15 appleBreakfast);
                (online, Call_loadMealRecords jan15);
                (online, Call_getAllMealData)] degraded)) = true /\
  idbCalls
    (host (run [(online, Call_saveMealRecords jan15 appleBreakfast);
                (online, Call_loadMealRecords jan15);
                (online, Call_getAllMealData)] degraded)) = [].
Proof.
  destruct (fallback_kept_by_data_calls
              [(online, Call_saveMealRecords jan15 appleBreakfast);
               (online, Call_loadMealRecords jan15);
               (online, Call_getAllMealData)] degraded)
    as (Hf & Hcalls & _).
  - reflexivity.
  - repeat constructor.
  - split; [exact Hf | exact Hcalls].
Defined.

Lemma fallback_cleared_by_init_counterexample :
  useFallback (this degraded) = true /\
  map type (console_error (host degraded)) = [NOT_SUPPORTED] /\
  useFallback (this (run [(online, Call_init)] degraded)) = false /\
  idbCalls
    (host (run [(online, Call_init);
                (online, Call_saveMealRecords jan15 appleBreakfast)]
             degraded)) =
    [IDB_open dbName version; IDB_transaction [storeName] readwrite] /\
  activeLookup (dateToKey jan15)
    (run [(online, Call_init);
          (online, Call_saveMealRecords jan15 appleBreakfast)] degraded) <> None /\
  fallbackStorage
    (this (run [(online, Call_init);
                (online, Call_saveMealRecords jan15 appleBreakfast)]
             degraded)) = [].
Proof.
  repeat split; try (vm_compute; reflexivity). vm_compute. discriminate.
Qed.



Lemma saved_record_carries_dateKey_witness :
  exists store,
    objectStore (host (snd (saveMealRecords online jan15 appleBreakfast ready)))
      = Some store /\
    keyPath store = "dateKey" /\
    option_map dateKey (IDB_get "2024-01-15" (records store)) = Some "2024-01-15".
Proof.
  destruct (saved_record_carries_dateKey [(online, Call_init)] online jan15
              appleBreakfast) as (_ & H).
  destruct H as (store & Hstore & Hkp & Hget).
  - exists (MealType_value BREAKFAST). eexists.
    split; [vm_compute; reflexivity|]. left. discriminate.
  - vm_compute. reflexivity.
  - reflexivity.
  - exists store. split; [exact Hstore|]. split; [exact Hkp|].
    change "2024-01-15" with (dateToKey jan15). rewrite Hget. reflexivity.
Defined.

(** * Enumerating the stored days *)

Section Sorting.
Context {A : Type} (cmp : A -> A -> Z).

(** The order that the comparator induces, assumed total. *)
Abbreviation le := (comparator_le cmp).
Hypothesis le_total : forall a b, le a b \/ le b a.

Lemma sort_insert_Permutation x l :
  Permutation (sort_insert cmp x l) (x :: l).
Proof.
  induction l as [|y l IH]; simpl; [reflexivity|].
  destruct (cmp x y <=? 0)%Z; [reflexivity|].
  rewrite IH. apply perm_swap.
Qed.

Lemma Array_sort_Permutation l : Permutation (Array_sort cmp l) l.
Proof.
  induction l as [|x l IH]; simpl; [reflexivity|].
  rewrite sort_insert_Permutation. apply perm_skip, IH.
Qed.

Lemma sort_insert_HdRel a x l :
  le a x -> HdRel le a l -> HdRel le a (sort_insert cmp x l).
Proof.
  intros Hax Hal. destruct l as [|y l]; simpl; [constructor; exact Hax|].
  destruct (cmp x y <=? 0)%Z; constructor; [exact Hax|].
  inversion Hal. assumption.
Qed.

Lemma sort_insert_Sorted x l :
  Sorted le l -> Sorted le (sort_insert cmp x l).
Proof.
  induction l as [|y l IH]; simpl; intros Hs.
  - repeat constructor.
  - destruct (cmp x y <=? 0)%Z eqn:E.
    + constructor; [exact Hs | constructor; exact E].
    + inversion Hs as [|? ? Hs' Hhd]; subst. constructor; [apply IH, Hs'|].
      apply sort_insert_HdRel; [|exact Hhd].
      destruct (le_total y x) as [H|H]; [exact H|].
      unfold comparator_le in H. congruence.
Qed.

Lemma Array_sort_Sorted l : Sorted le (Array_sort cmp l).
Proof.
  induction l as [|x l IH]; simpl; [constructor|].
  apply sort_insert_Sorted, IH.
Qed.

End Sorting.

Lemma localeCompare_le a b :
  (localeCompare a b <=? 0)%Z = String.leb a b.
Proof.
  unfold localeCompare, String.leb. destruct (String.compare a b); reflexivity.
Qed.

Section Enumerations.
Context {number : Type}.
Implicit Types (w : World number) (m : gmap string (MealRecord number)).

Lemma sortByDateAsc_Sorted (rows : list (DailyMealData number)) :
  Sorted keyLe (sortByDateAsc rows).
Proof.
  unfold sortByDateAsc.
  eapply Sorted_ind with (P := fun l => Sorted keyLe l);
    [constructor | | apply Array_sort_Sorted].
  - intros a l _ IH Hhd. constructor; [exact IH|].
    destruct Hhd as [|b l Hab]; constructor.
    unfold keyLe. rewrite <- localeCompare_le. exact Hab.
  - intros a b. unfold comparator_le. cbv zeta. rewrite !localeCompare_le.
    apply String.leb_total.
Qed.

Lemma sortByDateAsc_Permutation (rows : list (DailyMealData number)) :
  Permutation (sortByDateAsc rows) rows.
Proof. apply Array_sort_Permutation. Qed.


Lemma filter_rows_data (recs : list (string * DataWithKey number)) :
  List.filter (fun row => hasAnyMealData (meals row))
    (map data (IDB_getAll recs)) =
  withData (map (fun entry => (fst entry, data (snd entry))) recs).
Proof.
  unfold withData, IDB_getAll, Map_values. rewrite !map_map. reflexivity.
Qed.

Lemma map_date_filter_rows (recs : list (string * DataWithKey number)) :
  map (fun row => date (data row))
    (List.filter (fun row => hasAnyMealData (meals (data row)))
       (IDB_getAll recs)) =
  map date (withData (map (fun entry => (fst entry, data (snd entry))) recs)).
Proof.
  unfold withData, IDB_getAll, Map_values. rewrite !map_map.
  induction recs as [|[k row] recs IH]; simpl; [reflexivity|].
  destruct (hasAnyMealData (meals (data row))); simpl; rewrite IH; reflexivity.
Qed.

Lemma dates_value env w :
  settled w ->
  (readFails env w /\ fst (getAllDatesWithData env w) = Resolved []) \/
  (~ readFails env w /\
   fst (getAllDatesWithData env w) =
     Resolved (map date (withData (activeEntries w)))).
Proof.
  intros Hs. unfold getAllDatesWithData.
  rewrite (routed_settled _ _ _ _ Hs). unfold readFails, activeEntries.
  destruct_world w. destruct_env env. simpl.
  destruct uf.
  - right. split; [intros [H _]; discriminate | reflexivity].
  - destruct Hs as [Hs|[c Hs]]; [discriminate Hs|]. simpl in Hs. subst.
    unfold dates_promise.
    destruct tx; destruct os as [[kp recs]|]; unfold_monad;
      try (left; split;
           [split; [reflexivity|]; (left; discriminate) || (right; reflexivity)
           | destruct cb; reflexivity]).
    right. split; [intros [_ [H|H]]; [apply H; reflexivity | discriminate]|].
    rewrite map_date_filter_rows. reflexivity.
Qed.

Lemma rows_value env w :
  settled w ->
  (readFails env w /\ fst (getAllMealData env w) = Resolved []) \/
  (~ readFails env w /\
   fst (getAllMealData env w) =
     Resolved (sortByDateAsc (withData (activeEntries w)))).
Proof.
  intros Hs. unfold getAllMealData.
  rewrite (routed_settled _ _ _ _ Hs). unfold readFails, activeEntries.
  destruct_world w. destruct_env env. simpl.
  destruct uf.
  - right. split; [intros [H _]; discriminate | reflexivity].
  - destruct Hs as [Hs|[c Hs]]; [discriminate Hs|]. simpl in Hs. subst.
    unfold rows_promise.
    destruct tx; destruct os as [[kp recs]|]; unfold_monad;
      try (left; split;
           [split; [reflexivity|]; (left; discriminate) || (right; reflexivity)
           | destruct cb; reflexivity]).
    right. split; [intros [_ [H|H]]; [apply H; reflexivity | discriminate]|].
    rewrite filter_rows_data. reflexivity.
Qed.

Lemma getAllDatesWithData_afterOpen env w :
  getAllDatesWithData env w = getAllDatesWithData env (afterOpen env w).
Proof.
  unfold getAllDatesWithData. rewrite routed_afterOpen.
  rewrite (routed_settled _ _ _ _ (afterOpen_settled env w)). reflexivity.
Qed.

Lemma getAllMealData_afterOpen env w :
  getAllMealData env w = getAllMealData env (afterOpen env w).
Proof.
  unfold getAllMealData. rewrite routed_afterOpen.
  rewrite (routed_settled _ _ _ _ (afterOpen_settled env w)). reflexivity.
Qed.

Lemma afterOpen_changes env w :
  rtc change (stores w) (stores (afterOpen env w)).
Proof.
  unfold afterOpen, lazyInit, bind, get, ret.
  destruct (useFallback (this w)); [apply rtc_refl|].
  destruct (db (this w)); [apply rtc_refl|].
  pose proof (init_changes env w) as H.
  destruct (init env w) as [r w1]. exact H.
Qed.

Lemma keyed_activeEntries w :
  keyed (stores w) -> keyedEntries date (activeEntries w).
Proof.
  intros [Hf Hd]. unfold activeEntries. simpl in *.
  destruct (useFallback (this w)); [exact Hf|].
  destruct (db (this w)); [|exact Hf].
  destruct (objectStore (host w)) as [store|]; [|apply keyedEntries_nil].
  destruct (Hd store eq_refl) as [Hnd Hkeys]. split.
  - rewrite map_map. simpl. exact Hnd.
  - intros k v Hin. apply in_map_iff in Hin as ([k' row] & [= <- <-] & Hin).
    exact (Hkeys _ _ Hin).
Qed.

Lemma NoDup_keys_In_eq {V : Type} (l : list (string * V)) k v v' :
  List.NoDup (map fst l) -> In (k, v) l -> In (k, v') l -> v = v'.
Proof.
  induction l as [|[k1 v1] l IH]; simpl; [tauto|].
  intros Hnd. apply NoDup_cons_iff in Hnd as [Hnin Hnd].
  intros [E1|H1] [E2|H2].
  - congruence.
  - injection E1 as -> ->. exfalso. apply Hnin, in_map_iff.
    exists (k, v'). auto.
  - injection E2 as -> ->. exfalso. apply Hnin, in_map_iff.
    exists (k, v). auto.
  - apply IH; assumption.
Qed.

Lemma In_withData (entries : list (string * DailyMealData number)) dat :
  In dat (withData entries) <->
  (exists k, In (k, dat) entries) /\ hasAnyMealData (meals dat) = true.
Proof.
  unfold withData. rewrite filter_In, in_map_iff. split.
  - intros [([k v] & <- & Hin) Hc]. split; [exists k; exact Hin | exact Hc].
  - intros [[k Hin] Hc]. split; [exists (k, dat); auto | exact Hc].
Qed.

(** In a keyed store the date of an entry without content is not the date
    of an entry with content. *)
Lemma date_of_empty_not_enumerated
    (entries : list (string * DailyMealData number)) k dat :
  keyedEntries date entries -> In (k, dat) entries ->
  hasAnyMealData (meals dat) = false ->
  ~ In (date dat) (map date (withData entries)).
Proof.
  intros [Hnd Hkeys] Hin Hempty Hd.
  apply in_map_iff in Hd as (dat' & Hdate & Hin').
  apply In_withData in Hin' as [[k' Hin'] Hc].
  pose proof (Hkeys _ _ Hin) as Hk. pose proof (Hkeys _ _ Hin') as Hk'.
  rewrite Hdate in Hk'. subst k'. rewrite <- Hk in Hin'.
  rewrite (NoDup_keys_In_eq entries k dat dat' Hnd Hin Hin') in Hempty.
  congruence.
Qed.

End Enumerations.

(** C5.  In every store state reached by a sequence of calls from keyed
    stores (such as the initial, empty ones), [getAllDatesWithData] resolves
    with dates of stored records that pass the content test only: the date
    of a stored record with zero items and no image in every slot is not
    among them.  [getAllMealData] applies the same test and resolves with
    the surviving records, sorted ascending by their canonical date-key
    string. *)
Theorem enumerations_filter_and_sort {number : Type}
    (calls : list (Env * Call (number:=number))) (w0 : World number)
    (env : Env) :
  keyed (stores w0) ->
  let w := run calls w0 in
  let w1 := afterOpen env w in
  (exists dates,
     fst (getAllDatesWithData env w) = Resolved dates /\
     (forall k dat, In (k, dat) (activeEntries w1) ->
        ~ realContent (meals dat) -> ~ In (date dat) dates) /\
     (forall d, In d dates ->
        exists k dat, In (k, dat) (activeEntries w1) /\ date dat = d /\
                      realContent (meals dat))) /\
  (exists rows,
     fst (getAllMealData env w) = Resolved rows /\
     Sorted keyLe rows /\
     (forall dat, In dat rows ->
        (exists k, In (k, dat) (activeEntries w1)) /\ realContent (meals dat)) /\
     (~ readFails env w1 ->
      Permutation rows
        (List.filter (fun dat => hasAnyMealData (meals dat))
           (map snd (activeEntries w1))))).
Proof.
  intros Hkeyed w w1.
  assert (Hk1 : keyedEntries date (activeEntries w1)).
  { apply keyed_activeEntries.
    apply (changes_invariant keyed (stores w0)); [apply change_keyed | | exact Hkeyed].
    eapply rtc_trans; [apply run_changes | apply afterOpen_changes]. }
  pose proof (afterOpen_settled env w) as Hs. fold w1 in Hs.
  split.
  - rewrite getAllDatesWithData_afterOpen. fold w1.
    destruct (dates_value env w1 Hs) as [[_ ->]|[_ ->]]; eexists;
      (split; [reflexivity|]); split.
    + intros k dat _ _ [].
    + intros d [].
    + intros k dat Hin Hempty.
      apply (date_of_empty_not_enumerated _ k dat Hk1 Hin).
      destruct (hasAnyMealData (meals dat)) eqn:E; [|reflexivity].
      apply hasAnyMealData_true, enteredContent_realContent in E. contradiction.
    + intros d Hd. apply in_map_iff in Hd as (dat & Hdate & Hin).
      apply In_withData in Hin as [[k Hin] Hc].
      exists k, dat. split; [exact Hin|]. split; [exact Hdate|].
      apply enteredContent_realContent, hasAnyMealData_true, Hc.
  - rewrite getAllMealData_afterOpen. fold w1.
    destruct (rows_value env w1 Hs) as [[Hfail ->]|[Hok ->]]; eexists;
      (split; [reflexivity|]).
    + split; [constructor|]. split; [intros dat []|].
      intros Hok. contradiction.
    + split; [apply sortByDateAsc_Sorted|]. split.
      * intros dat Hin.
        apply (Permutation_in _ (sortByDateAsc_Permutation _)) in Hin.
        apply In_withData in Hin as [Hk Hc]. split; [exact Hk|].
        apply enteredContent_realContent, hasAnyMealData_true, Hc.
      * intros _. apply sortByDateAsc_Permutation.
Qed.

Lemma enumerations_filter_and_sort_witness :
  fst (getAllDatesWithData online legacy) = Resolved [jan15] /\
  ~ In jan16 [jan15].
Proof.
  assert (Hkeyed : keyed (stores legacy)).
  { split; [apply keyedEntries_nil|]. intros store [= <-]. split.
    - simpl. repeat constructor; simpl; intuition discriminate.
    - simpl. intros k v [[= <- <-]|[[= <- <-]|[]]]; reflexivity. }
  destruct (enumerations_filter_and_sort [] legacy online Hkeyed)
    as ((dates & Hdates & Hempty & _) & _).
  cbn [run] in Hdates, Hempty.
  assert (E : fst (getAllDatesWithData online legacy) = Resolved [jan15])
    by (vm_compute; reflexivity).
  split; [exact E|].
  rewrite E in Hdates. injection Hdates as <-.
  apply (Hempty "2024-01-16"
           {| date := jan16; meals := emptyMeals;
              lastModified := 1705363200000 |}).
  - vm_compute. right. left. reflexivity.
  - intros (slot & r & Hr & Hc).
    destruct (@getEmptyMealRecords_allEmpty Q) as [Hdom Hval].
    destruct (proj1 (Hdom slot) (ex_intro _ r Hr)) as [t ->].
    simpl in Hr. unfold emptyMeals in Hr. rewrite Hval in Hr.
    injection Hr as <-. simpl in Hc. destruct Hc as [Hc|Hc]; apply Hc; reflexivity.
Defined.

(** * Dates and DateKeys *)

Section Calendar.

Lemma leap_quotients y :
  (y + 1 - 1969) / 4 = (y - 1969) / 4 + (if y mod 4 =? 0 then 1 else 0) /\
  (y + 1 - 1901) / 100 = (y - 1901) / 100 + (if y mod 100 =? 0 then 1 else 0) /\
  (y + 1 - 1601) / 400 = (y - 1601) / 400 + (if y mod 400 =? 0 then 1 else 0).
Proof.
  repeat split.
  - destruct (Z.eqb_spec (y mod 4) 0); Z.div_mod_to_equations; lia.
  - destruct (Z.eqb_spec (y mod 100) 0); Z.div_mod_to_equations; lia.
  - destruct (Z.eqb_spec (y mod 400) 0); Z.div_mod_to_equations; lia.
Qed.

Lemma DayFromYear_succ y : DayFromYear (y + 1) = DayFromYear y + DaysInYear y.
Proof.
  unfold DayFromYear, DaysInYear.
  destruct (leap_quotients y) as (-> & -> & ->).
  assert (H100 : y mod 100 = 0 -> y mod 4 = 0) by (intros; Z.div_mod_to_equations; lia).
  assert (H400 : y mod 400 = 0 -> y mod 100 = 0) by (intros; Z.div_mod_to_equations; lia).
  destruct (Z.eqb_spec (y mod 4) 0); destruct (Z.eqb_spec (y mod 100) 0);
    destruct (Z.eqb_spec (y mod 400) 0); cbn [negb]; lia.
Qed.

Lemma DaysInYear_cases y : DaysInYear y = 365 \/ DaysInYear y = 366.
Proof.
  unfold DaysInYear.
  destruct (y mod 4 =? 0), (y mod 100 =? 0), (y mod 400 =? 0); simpl; auto.
Qed.

Lemma DayFromYear_lt a b : a < b -> DayFromYear a < DayFromYear b.
Proof.
  intros H. replace b with (a + 1 + Z.of_nat (Z.to_nat (b - a - 1))) by lia.
  induction (Z.to_nat (b - a - 1)) as [|n IH].
  - rewrite Z.add_0_r, DayFromYear_succ. destruct (DaysInYear_cases a); lia.
  - rewrite Nat2Z.inj_succ. 
    replace (a + 1 + Z.succ (Z.of_nat n)) with (a + 1 + Z.of_nat n + 1) by lia.
    rewrite DayFromYear_succ. destruct (DaysInYear_cases (a + 1 + Z.of_nat n)); lia.
Qed.

Lemma TimeFromYear_le y t : TimeFromYear y <= t <-> DayFromYear y <= Day t.
Proof.
  unfold TimeFromYear, Day, msPerDay. split; intros H.
  - apply Z.div_le_lower_bound; lia.
  - Z.div_mod_to_equations. lia.
Qed.

(** [DayFromYear] stays within two days of the mean length of a year. *)
Lemma DayFromYear_bounds y :
  146097 * (y - 1970) - 607 <= 400 * DayFromYear y <= 146097 * (y - 1970) + 593.
Proof.
  unfold DayFromYear. Z.div_mod_to_equations. lia.
Qed.

Lemma YearFromTime_spec t :
  DayFromYear (YearFromTime t) <= Day t < DayFromYear (YearFromTime t + 1).
Proof.
  unfold YearFromTime. cbv zeta.
  set (D := Day t).
  set (e := 400 * D / 146097).
  assert (He : 146097 * e <= 400 * D < 146097 * (e + 1)).
  { unfold e. Z.div_mod_to_equations. lia. }
  clearbody e.
  destruct (Z.leb_spec (TimeFromYear (1970 + e + 1)) t) as [H1|H1].
  - apply TimeFromYear_le in H1. fold D in H1. split; [exact H1|].
    pose proof (DayFromYear_bounds (1970 + e + 1 + 1)). lia.
  - destruct (Z.leb_spec (TimeFromYear (1970 + e + 1 - 1)) t) as [H2|H2].
    + apply TimeFromYear_le in H2. fold D in H2. split; [exact H2|].
      replace (1970 + e + 1 - 1 + 1) with (1970 + e + 1) by lia.
      assert (~ DayFromYear (1970 + e + 1) <= D) by (intros Hc; apply (proj2 (TimeFromYear_le _ t)) in Hc; lia).
      lia.
    + assert (~ DayFromYear (1970 + e + 1 - 1) <= D) by (intros Hc; apply (proj2 (TimeFromYear_le _ t)) in Hc; lia).
      replace (1970 + e + 1 - 2 + 1) with (1970 + e + 1 - 1) by lia.
      split; [|lia].
      pose proof (DayFromYear_bounds (1970 + e + 1 - 2)). lia.
Qed.

Lemma YearFromTime_unique t y :
  DayFromYear y <= Day t < DayFromYear (y + 1) -> YearFromTime t = y.
Proof.
  intros Hy. pose proof (YearFromTime_spec t) as Hs.
  destruct (Z.lt_trichotomy (YearFromTime t) y) as [H|[H|H]]; [|exact H|].
  - assert (YearFromTime t + 1 <= y) by lia.
    destruct (Z.eq_dec (YearFromTime t + 1) y) as [E|E].
    + rewrite E in Hs. lia.
    + pose proof (DayFromYear_lt (YearFromTime t + 1) y). lia.
  - destruct (Z.eq_dec (y + 1) (YearFromTime t)) as [E|E].
    + rewrite E in Hy. lia.
    + pose proof (DayFromYear_lt (y + 1) (YearFromTime t)). lia.
Qed.

Lemma DaysInYear_isLeapYear y :
  DaysInYear y = if isLeapYear y then 366 else 365.
Proof.
  unfold DaysInYear, isLeapYear.
  destruct (y mod 4 =? 0), (y mod 100 =? 0), (y mod 400 =? 0); reflexivity.
Qed.

Lemma DayWithinYear_range t : 0 <= DayWithinYear t < DaysInYear (YearFromTime t).
Proof.
  unfold DayWithinYear. pose proof (YearFromTime_spec t) as H.
  rewrite DayFromYear_succ in H. lia.
Qed.

Ltac decide_ltb :=
  repeat first [ rewrite (proj2 (Z.ltb_lt _ _)) by lia
               | rewrite (proj2 (Z.ltb_ge _ _)) by lia ].

Lemma month_table m L d :
  L = 0 \/ L = 1 -> 1 <= m <= 12 -> 1 <= d <= daysInMonthL m L ->
  let w := firstDayOfMonth (m - 1) L + d - 1 in
  0 <= w < 365 + L /\ monthOfDay w L = m - 1 /\ dateOfDay (m - 1) w L = d.
Proof.
  intros HL Hm Hd.
  assert (m = 1 \/ m = 2 \/ m = 3 \/ m = 4 \/ m = 5 \/ m = 6 \/ m = 7 \/
          m = 8 \/ m = 9 \/ m = 10 \/ m = 11 \/ m = 12) as Hcases by lia.
  destruct HL as [-> | ->];
    repeat (destruct Hcases as [-> | Hcases]); try subst m;
    match goal with
    | |- context [firstDayOfMonth (?a - 1) _] =>
        let x := eval vm_compute in (a - 1) in change (a - 1) with x
    end;
    cbn [daysInMonthL firstDayOfMonth dateOfDay] in *;
    cbv zeta; unfold monthOfDay; decide_ltb; lia.
Qed.

Lemma daysInMonth_L y m :
  daysInMonth y m = daysInMonthL m (if DaysInYear y =? 366 then 1 else 0).
Proof.
  unfold daysInMonth. rewrite DaysInYear_isLeapYear.
  destruct (isLeapYear y); reflexivity.
Qed.

(** The calendar fields of a time value whose day is day [d] of month [m] of
    year [y]. *)
Lemma fields_of_day t y m d :
  1 <= m <= 12 -> 1 <= d <= daysInMonth y m ->
  Day t = DayFromYear y +
          firstDayOfMonth (m - 1) (if DaysInYear y =? 366 then 1 else 0) + d - 1 ->
  YearFromTime t = y /\ MonthFromTime t = m - 1 /\ DateFromTime t = d.
Proof.
  intros Hm Hd Hday. rewrite daysInMonth_L in Hd.
  set (L := if DaysInYear y =? 366 then 1 else 0) in *.
  assert (HL : L = 0 \/ L = 1) by (unfold L; destruct (DaysInYear y =? 366); auto).
  destruct (month_table m L d HL Hm Hd) as (Hw & Hmonth & Hdate). cbv zeta in *.
  assert (HLy : DaysInYear y = 365 + L).
  { unfold L. destruct (Z.eqb_spec (DaysInYear y) 366) as [->|Hne]; [reflexivity|].
    destruct (DaysInYear_cases y); lia. }
  assert (Hy : YearFromTime t = y).
  { apply YearFromTime_unique. rewrite DayFromYear_succ, Hday, HLy. lia. }
  assert (Hwy : DayWithinYear t = firstDayOfMonth (m - 1) L + d - 1).
  { unfold DayWithinYear. rewrite Hy. lia. }
  assert (HLt : InLeapYear t = L) by (unfold InLeapYear; rewrite Hy; reflexivity).
  split; [exact Hy|].
  unfold DateFromTime, MonthFromTime. rewrite Hwy, HLt, Hmonth. auto.
Qed.

(** The time value that [MakeDay] looks for is the first day of the month. *)
Lemma MakeDay_first_day ym m :
  1 <= m <= 12 ->
  let t := TimeFromYear ym +
           msPerDay *
           firstDayOfMonth (m - 1) (if DaysInYear ym =? 366 then 1 else 0) in
  YearFromTime t = ym /\ MonthFromTime t = m - 1 /\ DateFromTime t = 1.
Proof.
  intros Hm t. apply fields_of_day; [exact Hm | |].
  - rewrite daysInMonth_L.
    assert (m = 1 \/ m = 2 \/ m = 3 \/ m = 4 \/ m = 5 \/ m = 6 \/ m = 7 \/
            m = 8 \/ m = 9 \/ m = 10 \/ m = 11 \/ m = 12) as Hcases by lia.
    repeat (destruct Hcases as [-> | Hcases]); try subst m;
      cbn [daysInMonthL]; destruct (DaysInYear ym =? 366); lia.
  - unfold t, TimeFromYear, Day.
    rewrite <- Z.mul_add_distr_l, Z.mul_comm, Z.div_mul by discriminate. lia.
Qed.

Ltac table_leaf :=
  match goal with
  | |- context [daysInMonthL (?a + 1) _] =>
      let x := eval vm_compute in (a + 1) in change (a + 1) with x
  end;
  cbn [dateOfDay daysInMonthL]; lia.

Lemma day_table w L :
  L = 0 \/ L = 1 -> 0 <= w < 365 + L ->
  let mn := monthOfDay w L in
  let d := dateOfDay mn w L in
  0 <= mn <= 11 /\ 1 <= d <= daysInMonthL (mn + 1) L.
Proof.
  intros HL Hw. cbv zeta. unfold monthOfDay.
  destruct HL as [-> | ->];
    repeat match goal with
           | |- context [if ?a <? ?b then _ else _] =>
               destruct (Z.ltb_spec a b); [table_leaf|]
           end;
    table_leaf.
Qed.

Lemma Day_MakeDate day : Day (MakeDate day (MakeTime 0 0 0 0)) = day.
Proof.
  unfold Day, MakeDate, MakeTime, msPerDay. rewrite Z.add_0_r.
  apply Z.div_mul. discriminate.
Qed.

Lemma MakeDate_midnight day : MakeDate day (MakeTime 0 0 0 0) mod msPerDay = 0.
Proof.
  unfold MakeDate, MakeTime, msPerDay. rewrite Z.add_0_r.
  apply Z.mod_mul. discriminate.
Qed.

Lemma MakeDay_of_month y m d :
  1 <= m <= 12 ->
  MakeDay y (m - 1) d =
  DayFromYear y +
  firstDayOfMonth (m - 1) (if DaysInYear y =? 366 then 1 else 0) + d - 1.
Proof.
  intros Hm. unfold MakeDay. cbv zeta.
  rewrite (Z.div_small (m - 1) 12) by lia.
  rewrite (Z.mod_small (m - 1) 12) by lia.
  rewrite Z.add_0_r. unfold TimeFromYear, Day.
  rewrite <- Z.mul_add_distr_l, Z.mul_comm, Z.div_mul by discriminate.
  reflexivity.
Qed.

Lemma TimeClip_Some x t : TimeClip x = Some t -> t = x.
Proof. unfold TimeClip. destruct (_ >? _); congruence. Qed.

End Calendar.

Section DateRoundTrip.
Variable LocalTZA : Z -> bool -> Z.
Hypothesis tz : sameLocalDay LocalTZA.

Lemma Date_new_value y m d t :
  ~ 0 <= y <= 99 ->
  Date_new LocalTZA y m d = Some t ->
  t = UTC LocalTZA (MakeDate (MakeDay y m d) (MakeTime 0 0 0 0)).
Proof.
  intros Hy. unfold Date_new.
  destruct (Z.leb_spec 0 y) as [H0|H0]; [destruct (Z.leb_spec y 99) as [H9|H9]|];
    cbn [andb]; try lia; apply TimeClip_Some.
Qed.

Lemma Day_local_midnight day :
  Day (LocalTime LocalTZA (UTC LocalTZA (MakeDate day (MakeTime 0 0 0 0)))) = day.
Proof.
  rewrite (tz (MakeDate day (MakeTime 0 0 0 0)) (MakeDate_midnight day)).
  apply Day_MakeDate.
Qed.

Lemma keyToDate_unfold k :
  keyToDate LocalTZA k = Date_new LocalTZA (year k) (month k - 1) (day k).
Proof. reflexivity. Qed.

Lemma Day_of_keyToDate k t :
  1 <= month k <= 12 -> ~ 0 <= year k <= 99 ->
  keyToDate LocalTZA k = Some t ->
  Day (LocalTime LocalTZA t) =
  DayFromYear (year k) +
  firstDayOfMonth (month k - 1)
    (if DaysInYear (year k) =? 366 then 1 else 0) + day k - 1.
Proof.
  intros Hm Hy Hdate. rewrite keyToDate_unfold in Hdate.
  rewrite (Date_new_value (year k) (month k - 1) (day k) t Hy Hdate).
  exact (eq_trans (Day_local_midnight _) (MakeDay_of_month _ _ _ Hm)).
Qed.

Lemma dateToKey_fields t y m d :
  YearFromTime (LocalTime LocalTZA t) = y ->
  MonthFromTime (LocalTime LocalTZA t) = m - 1 ->
  DateFromTime (LocalTime LocalTZA t) = d ->
  Types.dateToKey LocalTZA (Some t) = Some {| year := y; month := m; day := d |}.
Proof.
  intros Hy Hm Hd. unfold Types.dateToKey, getFullYear, getMonth, getDate.
  cbn [option_map]. rewrite Hy, Hm, Hd. do 2 f_equal. lia.
Qed.

Lemma key_date_key k t :
  validCalendarDate k -> ~ 0 <= year k <= 99 ->
  keyToDate LocalTZA k = Some t ->
  Types.dateToKey LocalTZA (Some t) = Some k.
Proof.
  intros [Hm Hd] Hy Hdate.
  pose proof (Day_of_keyToDate k t Hm Hy Hdate) as Hday.
  destruct (fields_of_day _ _ _ _ Hm Hd Hday) as (Hyear & Hmonth & Hdatef).
  destruct k as [y m d]. apply dateToKey_fields; assumption.
Qed.

Lemma dateToKey_valid t :
  exists k, Types.dateToKey LocalTZA (Some t) = Some k /\ validCalendarDate k.
Proof.
  eexists. split; [reflexivity|]. unfold validCalendarDate.
  cbn [year month day].
  set (t' := LocalTime LocalTZA t).
  pose proof (DayWithinYear_range t') as Hw.
  assert (HL : InLeapYear t' = 0 \/ InLeapYear t' = 1)
    by (unfold InLeapYear; destruct (_ =? _); auto).
  assert (HLy : DaysInYear (YearFromTime t') = 365 + InLeapYear t').
  { unfold InLeapYear.
    destruct (Z.eqb_spec (DaysInYear (YearFromTime t')) 366) as [->|Hne]; [reflexivity|].
    destruct (DaysInYear_cases (YearFromTime t')); lia. }
  rewrite HLy in Hw.
  destruct (day_table _ _ HL Hw) as [Hmn Hd]. cbv zeta in *.
  unfold MonthFromTime, DateFromTime, MonthFromTime. rewrite daysInMonth_L.
  fold (InLeapYear t'). split; [lia | exact Hd].
Qed.

End DateRoundTrip.


Lemma sameLocalDay_KST : sameLocalDay KST.
Proof.
  intros t _. unfold LocalTime, UTC, KST. f_equal. lia.
Qed.



(* ================================================================== *)
(** * Further properties of the storage service *)
(* ================================================================== *)

Section MoreAssocFacts.
Context {V : Type}.
Implicit Types (l : list (string * V)) (k : string) (v : V).

Lemma In_Map_get k v l : In (k, v) l -> exists v', Map_get k l = Some v'.
Proof.
  induction l as [|[k1 v1] l IH]; simpl; [tauto|].
  intros [[= -> ->]|H].
  - rewrite String.eqb_refl. eauto.
  - destruct (String.eqb k k1); eauto.
Qed.

Lemma Map_get_set_neq k k' v l :
  k' <> k -> Map_get k' (Map_set k v l) = Map_get k' l.
Proof.
  intros Hne. induction l as [|[k1 v1] l IH]; simpl.
  - destruct (String.eqb_spec k' k); [contradiction | reflexivity].
  - destruct (String.eqb_spec k k1) as [->|Hk]; simpl.
    + destruct (String.eqb_spec k' k1); [contradiction | reflexivity].
    + destruct (String.eqb k' k1); [reflexivity | exact IH].
Qed.

Lemma Map_get_delete_neq k k' l :
  k' <> k -> Map_get k' (Map_delete k l) = Map_get k' l.
Proof.
  intros Hne. induction l as [|[k1 v1] l IH]; simpl; [reflexivity|].
  destruct (String.eqb_spec k k1) as [->|Hk]; simpl.
  - destruct (String.eqb_spec k' k1); [contradiction | exact IH].
  - destruct (String.eqb k' k1); [reflexivity | exact IH].
Qed.

Lemma Map_get_IDB_insert_neq k k' v l :
  k' <> k -> Map_get k' (IDB_insert k v l) = Map_get k' l.
Proof.
  intros Hne. induction l as [|[k1 v1] l IH]; simpl.
  - destruct (String.eqb_spec k' k); [contradiction | reflexivity].
  - destruct (String.ltb k k1); simpl.
    + destruct (String.eqb_spec k' k); [contradiction | reflexivity].
    + destruct (String.eqb k' k1); [reflexivity | exact IH].
Qed.

Lemma IDB_get_put_neq k k' v l :
  k' <> k -> IDB_get k' (IDB_put k v l) = IDB_get k' l.
Proof.
  intros Hne. unfold IDB_get, IDB_put.
  rewrite Map_get_IDB_insert_neq, Map_get_delete_neq by exact Hne. reflexivity.
Qed.

Lemma Map_delete_absent k l :
  ~ In k (map fst l) -> Map_delete k l = l.
Proof.
  induction l as [|[k1 v1] l IH]; simpl; [reflexivity|]. intros Hn.
  destruct (String.eqb_spec k k1) as [->|Hk]; [tauto|].
  rewrite IH by tauto. reflexivity.
Qed.

Lemma Map_delete_keys k l : ~ In k (map fst (Map_delete k l)).
Proof.
  induction l as [|[k1 v1] l IH]; simpl; [tauto|].
  destruct (String.eqb_spec k k1) as [->|Hk]; [exact IH|].
  simpl. intros [E|H]; [congruence | tauto].
Qed.

Lemma Map_delete_idem k l : Map_delete k (Map_delete k l) = Map_delete k l.
Proof. apply Map_delete_absent, Map_delete_keys. Qed.

Lemma Map_delete_set k v l : Map_delete k (Map_set k v l) = Map_delete k l.
Proof.
  induction l as [|[k1 v1] l IH]; simpl.
  - rewrite String.eqb_refl. reflexivity.
  - destruct (String.eqb_spec k k1) as [->|Hk]; simpl.
    + rewrite String.eqb_refl. reflexivity.
    + destruct (String.eqb_spec k k1); [contradiction|]. rewrite IH. reflexivity.
Qed.

Lemma Map_delete_IDB_insert k v l :
  Map_delete k (IDB_insert k v l) = Map_delete k l.
Proof.
  induction l as [|[k1 v1] l IH]; simpl.
  - rewrite String.eqb_refl. reflexivity.
  - destruct (String.ltb k k1); simpl.
    + rewrite String.eqb_refl. reflexivity.
    + destruct (String.eqb k k1); rewrite IH; reflexivity.
Qed.

Lemma IDB_delete_put k v l : IDB_delete k (IDB_put k v l) = IDB_delete k l.
Proof.
  unfold IDB_delete, IDB_put. rewrite Map_delete_IDB_insert.
  apply Map_delete_idem.
Qed.

End MoreAssocFacts.

Section StorageLaws.
Context {number : Type}.
Implicit Types (w : World number) (m : gmap string (MealRecord number)).

(** A data method is its routed branch in the world that the lazy open
    leaves. *)
Lemma deleteMealRecords_afterOpen env d w :
  deleteMealRecords env d w =
  if useFallback (this (afterOpen env w))
  then (fallback_delete (dateToKey d);; ret (Resolved tt))%method (afterOpen env w)
  else delete_promise env (dateToKey d) (afterOpen env w).
Proof. unfold deleteMealRecords. cbv zeta. apply routed_afterOpen. Qed.

Lemma delete_promise_fails env k w :
  tx_outcome env <> Tx_success \/ objectStore (host w) = None ->
  exists error w',
    delete_promise env k w = (Rejected error, w') /\
    stores w' = stores w /\
    console_error (host w') = (console_error (host w) ++ [error])%list /\
    callbackCalls (host w') =
      (callbackCalls (host w) ++
       match errorCallback (this w) with
       | Some cb => [(cb, error)]
       | None => []
       end)%list /\
    type error = DELETE_FAILED /\
    (forall e, tx_outcome env = Tx_throws e -> originalError error = Some e) /\
    (forall e, tx_outcome env = Tx_onerror e -> objectStore (host w) <> None ->
               originalError error = e).
Proof.
  destruct_world w. destruct_env env. unfold delete_promise. simpl.
  intros H.
  destruct tx as [e|e|]; destruct os as [[kp recs]|];
    try (destruct H as [H|H]; congruence);
    destruct cb; unfold_monad; do 2 eexists;
    (split; [reflexivity|]); (split; [reflexivity|]);
    (split; [reflexivity|]); rewrite ?app_nil_r;
    (split; [reflexivity|]); (split; [reflexivity|]);
    split; intros e' E; try intros Hs; simpl; congruence.
Qed.

Lemma delete_promise_succeeds env k w :
  tx_outcome env = Tx_success ->
  (exists store, objectStore (host w) = Some store) ->
  fst (delete_promise env k w) = Resolved tt.
Proof.
  destruct_world w. destruct_env env. simpl. intros -> [store ->].
  reflexivity.
Qed.

Lemma absent_not_listed w d :
  keyed (stores w) -> activeLookup (dateToKey d) w = None ->
  forall dat, In dat (withData (activeEntries w)) -> date dat <> d.
Proof.
  intros Hk Habs dat Hin Hd.
  apply In_withData in Hin as [[k Hin] _].
  destruct (keyed_activeEntries w Hk) as [_ Hkeys].
  pose proof (Hkeys _ _ Hin) as ->. rewrite Hd in Hin.
  destruct (In_Map_get _ _ _ Hin) as [v' Hv].
  unfold activeLookup in Habs. congruence.
Qed.

End StorageLaws.

(** ** Deleting a day *)

(** X1.  When [deleteMealRecords d] resolves, a following [loadMealRecords d]
    resolves with the empty records; and if every stored record was under
    the key of its date, [getAllDatesWithData] no longer lists [d] and
    [getAllMealData] returns no record of [d]. *)
Theorem delete_removes_day {number : Type} (env env' : Env) (d : DateKey)
    (w w' : World number) :
  deleteMealRecords env d w = (Resolved tt, w') ->
  fst (loadMealRecords env' d w') = Resolved getEmptyMealRecords /\
  (keyed (stores w) ->
   (forall dates, fst (getAllDatesWithData env' w') = Resolved dates ->
                  ~ In d dates) /\
   (forall rows, fst (getAllMealData env' w') = Resolved rows ->
                 forall dat, In dat rows -> date dat <> d)).
Proof.
  intros Hdel. destruct (delete_resolved env d w w' Hdel) as [Hs Habs].
  split; [apply load_absent; assumption|].
  intros Hk.
  assert (Hk' : keyed (stores w')).
  { apply (changes_invariant keyed (stores w)); [apply change_keyed | | exact Hk].
    pose proof (deleteMealRecords_changes env d w) as H. rewrite Hdel in H.
    exact H. }
  pose proof (absent_not_listed w' d Hk' Habs) as Hnot.
  split.
  - intros dates Hdates Hin.
    destruct (dates_value env' w' Hs) as [[_ E]|[_ E]]; rewrite E in Hdates;
      injection Hdates as <-; [destruct Hin|].
    apply in_map_iff in Hin as (dat & Hd & Hin). exact (Hnot dat Hin Hd).
  - intros rows Hrows dat Hin.
    destruct (rows_value env' w' Hs) as [[_ E]|[_ E]]; rewrite E in Hrows;
      injection Hrows as <-; [destruct Hin|].
    apply (Permutation_in _ (sortByDateAsc_Permutation _)) in Hin.
    exact (Hnot dat Hin).
Qed.

Lemma delete_removes_day_witness :
  fst (loadMealRecords online jan15
         (snd (deleteMealRecords online jan15
                 (snd (saveMealRecords online jan15 appleBreakfast world0)))))
  = Resolved emptyMeals.
Proof.
  refine (proj1 (delete_removes_day online online jan15
                   (snd (saveMealRecords online jan15 appleBreakfast world0))
                   (snd (deleteMealRecords online jan15
                      (snd (saveMealRecords online jan15 appleBreakfast world0))))
                   _)).
  vm_compute. reflexivity.
Defined.

(** X2.  [deleteMealRecords] resolves when it is routed to the in-memory map
    or its transaction succeeds.  When it is routed to the database and the
    transaction throws or ends in an error, it rejects with a
    [DELETE_FAILED] error that carries the original error, is logged and is
    passed to the registered callback; the stored records are unchanged. *)
Theorem delete_failure_reported {number : Type} (env : Env) (d : DateKey)
    (w : World number) :
  let w1 := afterOpen env w in
  (useFallback (this w1) = true \/
   (tx_outcome env = Tx_success /\ exists store, objectStore (host w1) = Some store) ->
   fst (deleteMealRecords env d w) = Resolved tt) /\
  (useFallback (this w1) = false ->
   tx_outcome env <> Tx_success \/ objectStore (host w1) = None ->
   exists error w',
     deleteMealRecords env d w = (Rejected error, w') /\
     type error = DELETE_FAILED /\
     (forall e, tx_outcome env = Tx_throws e -> originalError error = Some e) /\
     (forall e, tx_outcome env = Tx_onerror e -> objectStore (host w1) <> None ->
                originalError error = e) /\
     console_error (host w') = (console_error (host w1) ++ [error])%list /\
     (forall cb, errorCallback (this w1) = Some cb ->
        callbackCalls (host w') = (callbackCalls (host w1) ++ [(cb, error)])%list) /\
     stores w' = stores w1).
Proof.
  intros w1. rewrite deleteMealRecords_afterOpen. fold w1. split.
  - intros [Hf|[Htx Hstore]].
    + rewrite Hf. reflexivity.
    + destruct (useFallback (this w1)); [reflexivity|].
      apply delete_promise_succeeds; assumption.
  - intros Hf Hbad. rewrite Hf.
    destruct (delete_promise_fails env (dateToKey d) w1 Hbad)
      as (error & w' & Hp & Hst & Hcon & Hcb & Hty & Hthrow & Herr).
    exists error, w'. repeat (split; [assumption|]). split; [|exact Hst].
    intros cb Hc. rewrite Hcb, Hc. reflexivity.
Qed.

(** ** Days do not interfere *)

Section Frames.
Context {number : Type}.
Implicit Types (w : World number) (m : gmap string (MealRecord number)).

(** What [loadMealRecords] resolves with in a settled world depends on the
    routing and on what the key is bound to in the two stores. *)
Lemma load_depends_on env d w w' :
  settled w ->
  useFallback (this w') = useFallback (this w) ->
  db (this w') = db (this w) ->
  Map_get (dateToKey d) (fallbackStorage (this w')) =
    Map_get (dateToKey d) (fallbackStorage (this w)) ->
  option_map (fun store => IDB_get (dateToKey d) (records store))
             (objectStore (host w')) =
    option_map (fun store => IDB_get (dateToKey d) (records store))
               (objectStore (host w)) ->
  fst (loadMealRecords env d w') = fst (loadMealRecords env d w).
Proof.
  intros Hs Hf Hd Hfs Hos.
  assert (Hs' : settled w').
  { destruct Hs as [Hs|[c Hs]]; [left; congruence | right; exists c; congruence]. }
  unfold loadMealRecords. cbv zeta.
  rewrite (routed_settled _ _ _ _ Hs), (routed_settled _ _ _ _ Hs'), Hf.
  destruct_world w. destruct_world w'. destruct_env env. simpl in *. subst.
  destruct uf.
  - unfold_monad. rewrite Hfs. destruct (Map_get (dateToKey d) fs); reflexivity.
  - unfold load_promise.
    destruct tx; destruct os as [[kp recs]|]; destruct os0 as [[kp0 recs0]|];
      try discriminate Hos; unfold_monad;
      try (destruct cb; destruct cb0; reflexivity).
    cbn [option_map records] in Hos. injection Hos as Hos. rewrite Hos.
    destruct (IDB_get (dateToKey d) recs); reflexivity.
Qed.

Lemma fallback_set_frame k k' dat w :
  k' <> k ->
  let w' := snd ((fallback_set k dat;; ret (Resolved tt))%method w) in
  useFallback (this w') = useFallback (this w) /\
  db (this w') = db (this w) /\
  Map_get k' (fallbackStorage (this w')) = Map_get k' (fallbackStorage (this w)) /\
  objectStore (host w') = objectStore (host w).
Proof.
  intros Hne. destruct_world w. unfold_monad.
  repeat split. apply Map_get_set_neq, Hne.
Qed.

Lemma fallback_delete_frame k k' w :
  k' <> k ->
  let w' := snd ((fallback_delete k;; ret (Resolved tt))%method w) in
  useFallback (this w') = useFallback (this w) /\
  db (this w') = db (this w) /\
  Map_get k' (fallbackStorage (this w')) = Map_get k' (fallbackStorage (this w)) /\
  objectStore (host w') = objectStore (host w).
Proof.
  intros Hne. destruct_world w. unfold_monad.
  repeat split. apply Map_get_delete_neq, Hne.
Qed.

Lemma save_promise_frame env k k' dat w :
  k' <> k ->
  let w' := snd (save_promise env k dat w) in
  this w' = this w /\
  option_map (fun store => IDB_get k' (records store)) (objectStore (host w')) =
    option_map (fun store => IDB_get k' (records store)) (objectStore (host w)).
Proof.
  intros Hne. destruct_world w. destruct_env env. unfold save_promise, store_put.
  destruct tx as [e|e|]; destruct os as [[kp recs]|]; unfold_monad;
    try destruct (isQuotaExceeded e); try destruct (String.eqb kp "dateKey");
    unfold_monad; try (destruct cb; split; reflexivity).
  split; [reflexivity|]. cbn [option_map records]. f_equal.
  apply IDB_get_put_neq, Hne.
Qed.

Lemma delete_promise_frame env k k' w :
  k' <> k ->
  let w' := snd (delete_promise env k w) in
  this w' = this w /\
  option_map (fun store => IDB_get k' (records store)) (objectStore (host w')) =
    option_map (fun store => IDB_get k' (records store)) (objectStore (host w)).
Proof.
  intros Hne. destruct_world w. destruct_env env. unfold delete_promise, store_delete.
  destruct tx as [e|e|]; destruct os as [[kp recs]|]; unfold_monad;
    try (destruct cb; split; reflexivity).
  split; [reflexivity|]. cbn [option_map records]. f_equal.
  apply Map_get_delete_neq, Hne.
Qed.

Lemma delete_frame env env' d d' w :
  settled w -> d' <> d ->
  fst (loadMealRecords env' d' (snd (deleteMealRecords env d w))) =
  fst (loadMealRecords env' d' w).
Proof.
  intros Hs Hne.
  assert (Hk : dateToKey d' <> dateToKey d)
    by (intros E; apply Hne, dateToKey_inj, E).
  apply load_depends_on; [exact Hs | | | |];
    unfold deleteMealRecords; cbv zeta; rewrite (routed_settled _ _ _ _ Hs);
    destruct (useFallback (this w)) eqn:Hf;
    try (destruct (fallback_delete_frame (dateToKey d) (dateToKey d') w Hk)
           as (H1 & H2 & H3 & H4); cbv zeta in *; congruence);
    destruct (delete_promise_frame env (dateToKey d) (dateToKey d') w Hk)
      as (H1 & H2); cbv zeta in *; congruence.
Qed.

Lemma save_frame env env' d d' m w :
  settled w -> d' <> d ->
  fst (loadMealRecords env' d' (snd (saveMealRecords env d m w))) =
  fst (loadMealRecords env' d' w).
Proof.
  intros Hs Hne. unfold saveMealRecords.
  destruct (hasAnyMealData m); cbn [negb]; [|apply delete_frame; assumption].
  assert (Hk : dateToKey d' <> dateToKey d)
    by (intros E; apply Hne, dateToKey_inj, E).
  cbv zeta.
  set (dat := {| date := d; meals := m; lastModified := Date_now env |}).
  apply load_depends_on; [exact Hs | | | |];
    rewrite (routed_settled _ _ _ _ Hs);
    destruct (useFallback (this w)) eqn:Hf;
    try (destruct (fallback_set_frame (dateToKey d) (dateToKey d') dat w Hk)
           as (H1 & H2 & H3 & H4); cbv zeta in *; congruence);
    destruct (save_promise_frame env (dateToKey d) (dateToKey d') dat w Hk)
      as (H1 & H2); cbv zeta in *; congruence.
Qed.

End Frames.

(** X3.  Once the service is on the in-memory map or holds a connection,
    saving or deleting the records of a day does not change what
    [loadMealRecords] resolves with for any other day, whether or not the
    save or the delete succeeds. *)
Theorem other_days_untouched {number : Type} (env env' : Env)
    (d d' : DateKey) (m : gmap string (MealRecord number)) (w : World number) :
  settled w -> d' <> d ->
  fst (loadMealRecords env' d' (snd (saveMealRecords env d m w))) =
    fst (loadMealRecords env' d' w) /\
  fst (loadMealRecords env' d' (snd (deleteMealRecords env d w))) =
    fst (loadMealRecords env' d' w).
Proof.
  intros Hs Hne. split; [apply save_frame | apply delete_frame]; assumption.
Qed.

Lemma other_days_untouched_witness :
  fst (loadMealRecords online jan16
         (snd (saveMealRecords online jan15 appleBreakfast ready))) =
  fst (loadMealRecords online jan16 ready).
Proof.
  apply (proj1 (other_days_untouched online online jan15 jan16 appleBreakfast
                  ready (or_intror (ex_intro _ _ eq_refl))
                  ltac:(discriminate))).
Defined.

(** ** Reading *)

Section ReadFailures.
Context {number : Type}.
Implicit Types (w : World number) (m : gmap string (MealRecord number)).

Lemma dates_promise_fails env w :
  tx_outcome env <> Tx_success \/ objectStore (host w) = None ->
  exists error w',
    dates_promise env w = (Resolved [], w') /\
    this w' = this w /\ objectStore (host w') = objectStore (host w) /\
    console_error (host w') = (console_error (host w) ++ [error])%list /\
    callbackCalls (host w') =
      (callbackCalls (host w) ++
       match errorCallback (this w) with
       | Some cb => [(cb, error)]
       | None => []
       end)%list /\
    type error = LOAD_FAILED.
Proof.
  destruct_world w. destruct_env env. unfold dates_promise. simpl.
  intros H.
  destruct tx as [e|e|]; destruct os as [[kp recs]|];
    try (destruct H as [H|H]; congruence);
    destruct cb; unfold_monad; do 2 eexists;
    repeat (split; [rewrite ?app_nil_r; reflexivity|]); reflexivity.
Qed.

Lemma rows_promise_fails env w :
  tx_outcome env <> Tx_success \/ objectStore (host w) = None ->
  exists error w',
    rows_promise env w = (Resolved [], w') /\
    this w' = this w /\ objectStore (host w') = objectStore (host w) /\
    console_error (host w') = (console_error (host w) ++ [error])%list /\
    callbackCalls (host w') =
      (callbackCalls (host w) ++
       match errorCallback (this w) with
       | Some cb => [(cb, error)]
       | None => []
       end)%list /\
    type error = LOAD_FAILED.
Proof.
  destruct_world w. destruct_env env. unfold rows_promise. simpl.
  intros H.
  destruct tx as [e|e|]; destruct os as [[kp recs]|];
    try (destruct H as [H|H]; congruence);
    destruct cb; unfold_monad; do 2 eexists;
    repeat (split; [rewrite ?app_nil_r; reflexivity|]); reflexivity.
Qed.

End ReadFailures.

(** X4.  When [getAllDatesWithData] or [getAllMealData] is routed to the
    database and its transaction throws or ends in an error, the promise
    does not reject: it resolves with the empty array, after a
    [LOAD_FAILED] error has been logged and passed to the registered
    callback; the service and the stored records are unchanged. *)
Theorem enumerations_fail_softly {number : Type} (env : Env)
    (w : World number) :
  let w1 := afterOpen env w in
  useFallback (this w1) = false ->
  tx_outcome env <> Tx_success \/ objectStore (host w1) = None ->
  (exists error w',
     getAllDatesWithData env w = (Resolved [], w') /\
     type error = LOAD_FAILED /\
     console_error (host w') = (console_error (host w1) ++ [error])%list /\
     (forall cb, errorCallback (this w1) = Some cb ->
        callbackCalls (host w') = (callbackCalls (host w1) ++ [(cb, error)])%list) /\
     this w' = this w1 /\ objectStore (host w') = objectStore (host w1)) /\
  (exists error w',
     getAllMealData env w = (Resolved [], w') /\
     type error = LOAD_FAILED /\
     console_error (host w') = (console_error (host w1) ++ [error])%list /\
     (forall cb, errorCallback (this w1) = Some cb ->
        callbackCalls (host w') = (callbackCalls (host w1) ++ [(cb, error)])%list) /\
     this w' = this w1 /\ objectStore (host w') = objectStore (host w1)).
Proof.
  intros w1 Hf Hbad. split.
  - unfold getAllDatesWithData. rewrite routed_afterOpen. fold w1. rewrite Hf.
    destruct (dates_promise_fails env w1 Hbad)
      as (error & w' & Hp & Ht & Hos & Hcon & Hcb & Hty).
    exists error, w'. repeat (split; [assumption|]). split; [|split; assumption].
    intros cb Hc. rewrite Hcb, Hc. reflexivity.
  - unfold getAllMealData. rewrite routed_afterOpen. fold w1. rewrite Hf.
    destruct (rows_promise_fails env w1 Hbad)
      as (error & w' & Hp & Ht & Hos & Hcon & Hcb & Hty).
    exists error, w'. repeat (split; [assumption|]). split; [|split; assumption].
    intros cb Hc. rewrite Hcb, Hc. reflexivity.
Qed.

Lemma enumerations_fail_softly_witness :
  fst (getAllDatesWithData (txFails "UnknownError") ready) = Resolved [] /\
  fst (getAllMealData (txFails "UnknownError") ready) = Resolved [].
Proof.
  destruct (enumerations_fail_softly (number:=Q) (txFails "UnknownError") ready)
    as [(e1 & w1 & H1 & _) (e2 & w2 & H2 & _)].
  - reflexivity.
  - left. discriminate.
  - rewrite H1, H2. split; reflexivity.
Defined.

Section ReadOnly.
Context {number : Type}.
Implicit Types (w : World number) (m : gmap string (MealRecord number)).

(** The transactions that a call adds to the log of the host. *)
Lemma reads_effect env w :
  settled w ->
  let txs := if useFallback (this w) then []
             else [IDB_transaction [storeName] readonly] in
  forall d,
  (let w' := snd (loadMealRecords env d w) in
   this w' = this w /\ objectStore (host w') = objectStore (host w) /\
   idbCalls (host w') = (idbCalls (host w) ++ txs)%list) /\
  (let w' := snd (getAllDatesWithData env w) in
   this w' = this w /\ objectStore (host w') = objectStore (host w) /\
   idbCalls (host w') = (idbCalls (host w) ++ txs)%list) /\
  (let w' := snd (getAllMealData env w) in
   this w' = this w /\ objectStore (host w') = objectStore (host w) /\
   idbCalls (host w') = (idbCalls (host w) ++ txs)%list).
Proof.
  intros Hs txs d. unfold txs, loadMealRecords, getAllDatesWithData, getAllMealData.
  cbv zeta. rewrite !(routed_settled _ _ _ _ Hs).
  destruct_world w. destruct_env env. simpl.
  destruct uf.
  - unfold_monad. rewrite app_nil_r.
    destruct (Map_get (dateToKey d) fs); repeat split.
  - unfold load_promise, dates_promise, rows_promise.
    destruct tx; destruct os as [[kp recs]|]; unfold_monad;
      try destruct (IDB_get (dateToKey d) recs); destruct cb; repeat split.
Qed.

End ReadOnly.

(** X5.  Once the service is on the in-memory map or holds a connection,
    [loadMealRecords], [getAllDatesWithData] and [getAllMealData] only read:
    they leave the fields of the service and the object store as they are,
    and the only call they make on the database is one read-only
    transaction on the store (none on the in-memory map). *)
Theorem reads_do_not_write {number : Type} (env : Env) (d : DateKey)
    (w : World number) :
  settled w ->
  let txs := if useFallback (this w) then []
             else [IDB_transaction [storeName] readonly] in
  (let w' := snd (loadMealRecords env d w) in
   this w' = this w /\ objectStore (host w') = objectStore (host w) /\
   idbCalls (host w') = (idbCalls (host w) ++ txs)%list) /\
  (let w' := snd (getAllDatesWithData env w) in
   this w' = this w /\ objectStore (host w') = objectStore (host w) /\
   idbCalls (host w') = (idbCalls (host w) ++ txs)%list) /\
  (let w' := snd (getAllMealData env w) in
   this w' = this w /\ objectStore (host w') = objectStore (host w) /\
   idbCalls (host w') = (idbCalls (host w) ++ txs)%list).
Proof. intros Hs txs. apply reads_effect, Hs. Qed.

Lemma reads_do_not_write_witness :
  this (snd (loadMealRecords online jan15 ready)) = this ready /\
  idbCalls (host (snd (getAllMealData online ready))) =
    [IDB_open dbName version; IDB_transaction [storeName] readonly].
Proof.
  destruct (reads_do_not_write (number:=Q) online jan15 ready
              (or_intror (ex_intro _ _ eq_refl)))
    as ((H1 & _) & _ & (_ & _ & H3)).
  split; [exact H1 | exact H3].
Defined.

Section Listing.
Context {number : Type}.
Implicit Types (w : World number) (m : gmap string (MealRecord number)).

(** A bound key of the store that is in use: the read of that store does
    not fail for want of an object store. *)
Lemma activeLookup_Some_reads k dat env w :
  settled w -> activeLookup k w = Some dat -> tx_outcome env = Tx_success ->
  ~ readFails env w.
Proof.
  unfold activeLookup, activeEntries, readFails.
  intros Hs Ha Htx [Hf [H|H]]; [contradiction|].
  destruct Hs as [Hs|[c Hc]]; [congruence|].
  rewrite Hf, Hc, H in Ha. discriminate Ha.
Qed.

Lemma listed_when_present k dat env w :
  settled w -> activeLookup k w = Some dat ->
  hasAnyMealData (meals dat) = true -> tx_outcome env = Tx_success ->
  (exists dates, fst (getAllDatesWithData env w) = Resolved dates /\
                 In (date dat) dates) /\
  (exists rows, fst (getAllMealData env w) = Resolved rows /\ In dat rows).
Proof.
  intros Hs Ha Hc Htx.
  pose proof (activeLookup_Some_reads k dat env w Hs Ha Htx) as Hok.
  assert (Hin : In dat (withData (activeEntries w))).
  { apply In_withData. split; [|exact Hc]. exists k. apply Map_get_In, Ha. }
  split.
  - destruct (dates_value env w Hs) as [[Hbad _]|[_ E]]; [contradiction|].
    eexists. split; [exact E|]. apply in_map, Hin.
  - destruct (rows_value env w Hs) as [[Hbad _]|[_ E]]; [contradiction|].
    eexists. split; [exact E|].
    apply (Permutation_in _ (Permutation_sym (sortByDateAsc_Permutation _))), Hin.
Qed.

End Listing.

(** X6.  After a [saveMealRecords d m] that resolves, where [m] has
    user-entered content, a [getAllDatesWithData] whose read succeeds lists
    [d], and a [getAllMealData] whose read succeeds returns the record of
    [d] with the meals [m] and the time of the save as [lastModified]. *)
Theorem saved_day_is_listed {number : Type} (env env' : Env) (d : DateKey)
    (m : gmap string (MealRecord number)) (w w' : World number) :
  enteredContent m ->
  saveMealRecords env d m w = (Resolved tt, w') ->
  tx_outcome env' = Tx_success ->
  (exists dates, fst (getAllDatesWithData env' w') = Resolved dates /\
                 In d dates) /\
  (exists rows, fst (getAllMealData env' w') = Resolved rows /\
                In {| date := d; meals := m; lastModified := Date_now env |} rows).
Proof.
  intros Hm Hsave Htx. apply hasAnyMealData_true in Hm.
  destruct (save_resolved env d m w w' Hm Hsave) as [Hs Ha].
  exact (listed_when_present _ _ env' w' Hs Ha Hm Htx).
Qed.

Lemma saved_day_is_listed_witness :
  exists dates,
    fst (getAllDatesWithData online
           (snd (saveMealRecords online jan15 appleBreakfast world0)))
      = Resolved dates /\ In jan15 dates.
Proof.
  refine (proj1 (saved_day_is_listed online online jan15 appleBreakfast world0
                   (snd (saveMealRecords online jan15 appleBreakfast world0))
                   _ _ _)).
  - exists (MealType_value BREAKFAST). eexists.
    split; [vm_compute; reflexivity|]. left. discriminate.
  - vm_compute. reflexivity.
  - reflexivity.
Defined.

(** ** Opening the database *)


Section OpenOnce.
Context {number : Type}.
Implicit Types (w : World number) (m : gmap string (MealRecord number)).








End OpenOnce.



(** ** The two enumerations *)

Section Agreement.
Context {number : Type}.
Implicit Types (w : World number) (m : gmap string (MealRecord number)).

Lemma keyedEntries_cons_inv {V : Type} (date_of : V -> DateKey) k v
    (l : list (string * V)) :
  keyedEntries date_of ((k, v) :: l) ->
  k = dateToKey (date_of v) /\ ~ In k (map fst l) /\ keyedEntries date_of l.
Proof.
  intros [Hnd Hkeys]. simpl in Hnd. apply NoDup_cons_iff in Hnd as [Hnin Hnd].
  split; [apply Hkeys; left; reflexivity|]. split; [exact Hnin|].
  split; [exact Hnd|]. intros k' v' Hin. apply Hkeys. right. exact Hin.
Qed.

(** In a keyed store, distinct entries have distinct dates. *)
Lemma keyed_dates_NoDup (entries : list (string * DailyMealData number)) :
  keyedEntries date entries -> List.NoDup (map date (withData entries)).
Proof.
  induction entries as [|[k v] l IH]; intros Hk; [constructor|].
  apply keyedEntries_cons_inv in Hk as (Hkv & Hnin & Hl).
  unfold withData in *. simpl.
  destruct (hasAnyMealData (meals v)); [|exact (IH Hl)].
  simpl. constructor; [|exact (IH Hl)].
  intros Hin. apply in_map_iff in Hin as (v' & Hd & Hin).
  apply filter_In in Hin as [Hin _].
  apply in_map_iff in Hin as ([k' v''] & E & Hin). simpl in E. subst v''.
  destruct Hl as [_ Hkeys]. pose proof (Hkeys _ _ Hin) as Hk'.
  apply Hnin. apply in_map_iff. exists (k', v'). split; [|exact Hin].
  simpl. congruence.
Qed.

End Agreement.

(** X9.  On the same store, [getAllDatesWithData] and [getAllMealData] agree:
    the dates of the records that [getAllMealData] resolves with are the
    dates that [getAllDatesWithData] resolves with, in some order; and when
    the stores were reached from stores whose records are under the keys of
    their dates, no date is listed twice. *)
Theorem enumerations_agree {number : Type}
    (calls : list (Env * Call (number:=number))) (w0 : World number)
    (env : Env) :
  let w := run calls w0 in
  exists dates rows,
    fst (getAllDatesWithData env w) = Resolved dates /\
    fst (getAllMealData env w) = Resolved rows /\
    Permutation (map date rows) dates /\
    (keyed (stores w0) -> List.NoDup dates).
Proof.
  intros w. set (w1 := afterOpen env w).
  pose proof (afterOpen_settled env w) as Hs. fold w1 in Hs.
  rewrite getAllDatesWithData_afterOpen, getAllMealData_afterOpen. fold w1.
  destruct (dates_value env w1 Hs) as [[Hbad ->]|[Hok ->]];
    destruct (rows_value env w1 Hs) as [[Hbad' ->]|[Hok' ->]];
    try contradiction; do 2 eexists;
    (split; [reflexivity|]); (split; [reflexivity|]).
  - split; [constructor | intros _; constructor].
  - split; [apply Permutation_map, sortByDateAsc_Permutation|].
    intros Hkeyed. apply keyed_dates_NoDup, keyed_activeEntries.
    apply (changes_invariant keyed (stores w0)); [apply change_keyed | | exact Hkeyed].
    eapply rtc_trans; [apply run_changes | apply afterOpen_changes].
Qed.

(** ** Loading the page again *)

Section Reload.
Context {number : Type}.
Implicit Types (w : World number) (m : gmap string (MealRecord number)).

Lemma loadMealRecords_afterOpen env d w :
  loadMealRecords env d w = loadMealRecords env d (afterOpen env w).
Proof.
  unfold loadMealRecords. cbv zeta. rewrite routed_afterOpen.
  rewrite (routed_settled _ _ _ _ (afterOpen_settled env w)). reflexivity.
Qed.

(** The world that a data method finds after the page was loaded again. *)
Lemma afterOpen_reload env env0 w :
  let w1 := afterOpen env (step env0 Call_reload w) in
  fallbackStorage (this w1) = [] /\
  ((indexedDB_defined env = true /\ open_outcome env = Open_onsuccess /\
    useFallback (this w1) = false /\
    db (this w1) = Some {| db_name := dbName; db_version := version |} /\
    objectStore (host w1) =
      Some (match objectStore (host w) with
            | Some store => store
            | None => {| keyPath := "dateKey"; records := [] |}
            end)) \/
   ((indexedDB_defined env = false \/ open_outcome env <> Open_onsuccess) /\
    useFallback (this w1) = true)).
Proof.
  unfold afterOpen, lazyInit, step, bind, get, ret. cbn [this useFallback newService db].
  pose proof (init_effect env {| this := newService; host := host w |})
    as (Hfs & _ & H).
  destruct (init env {| this := newService; host := host w |}) as [r w1].
  cbn [snd fst this host] in *. split; [exact Hfs|].
  destruct H as [(Hf & _ & _ & Hbad)|(Hf & Hd & Hos & Hsup & Hoo)]; [right|left]; auto.
Qed.

End Reload.

(** X10.  Records saved to the database outlive the page: after a
    [saveMealRecords d m] that resolved on the database, a reload (a new
    service instance) and a [loadMealRecords d] that opens the database and
    reads it successfully resolve with [m].  The in-memory map does not
    outlive the page: after a reload on a host where the database cannot be
    opened, [loadMealRecords] resolves with the empty records for every
    day. *)
Theorem database_survives_reload {number : Type} (env env0 env' : Env)
    (d : DateKey) (m : gmap string (MealRecord number)) (w w' : World number) :
  enteredContent m ->
  saveMealRecords env d m w = (Resolved tt, w') ->
  (useFallback (this w') = false ->
   indexedDB_defined env' = true -> open_outcome env' = Open_onsuccess ->
   tx_outcome env' = Tx_success ->
   fst (loadMealRecords env' d (step env0 Call_reload w')) = Resolved m) /\
  (indexedDB_defined env' = false \/ open_outcome env' <> Open_onsuccess ->
   forall d',
     fst (loadMealRecords env' d' (step env0 Call_reload w')) =
       Resolved getEmptyMealRecords).
Proof.
  intros Hm Hsave. apply hasAnyMealData_true in Hm.
  destruct (save_resolved env d m w w' Hm Hsave) as [Hs Ha].
  split.
  - intros Hf Hsup Hoo Htx.
    rewrite loadMealRecords_afterOpen.
    set (w1 := afterOpen env' (step env0 Call_reload w')).
    pose proof (afterOpen_settled env' (step env0 Call_reload w')) as Hs1.
    fold w1 in Hs1. rewrite (load_settled env' d w1 Hs1 Htx).
    destruct (afterOpen_reload env' env0 w') as [_ [H|[[H|H] _]]]; try congruence.
    fold w1 in H. destruct H as (_ & _ & Hf1 & Hd1 & Hos1).
    unfold activeLookup, activeEntries in *.
    rewrite Hf1, Hd1, Hos1. rewrite Hf in Ha.
    destruct Hs as [Hs|[c Hc]]; [congruence|]. rewrite Hc in Ha.
    destruct (objectStore (host w')) as [store|]; [|discriminate Ha].
    rewrite Ha. reflexivity.
  - intros Hbad d'. rewrite loadMealRecords_afterOpen.
    set (w1 := afterOpen env' (step env0 Call_reload w')).
    pose proof (afterOpen_settled env' (step env0 Call_reload w')) as Hs1.
    fold w1 in Hs1. apply load_absent; [exact Hs1|].
    destruct (afterOpen_reload env' env0 w') as [Hfs [H|[_ Hf1]]].
    + destruct H as (Hsup & Hoo & _). destruct Hbad; congruence.
    + fold w1 in Hfs, Hf1. unfold activeLookup, activeEntries.
      rewrite Hf1, Hfs. reflexivity.
Qed.

Lemma database_survives_reload_witness :
  fst (loadMealRecords online jan15
         (step online Call_reload
            (snd (saveMealRecords online jan15 appleBreakfast world0))))
  = Resolved appleBreakfast.
Proof.
  refine (proj1 (database_survives_reload online online online jan15
                   appleBreakfast world0
                   (snd (saveMealRecords online jan15 appleBreakfast world0))
                   _ _) _ _ _ _).
  - exists (MealType_value BREAKFAST). eexists.
    split; [vm_compute; reflexivity|]. left. discriminate.
  - vm_compute. reflexivity.
  - reflexivity.
  - reflexivity.
  - reflexivity.
  - reflexivity.
Defined.

(** ** Saving and deleting in sequence *)

Section Composition.
Context {number : Type}.
Implicit Types (w : World number) (m : gmap string (MealRecord number)).

(** The stores that a save and a delete leave, in a settled world. *)
Lemma delete_stores env d w :
  settled w ->
  let w' := snd (deleteMealRecords env d w) in
  useFallback (this w') = useFallback (this w) /\ db (this w') = db (this w) /\
  stores w' =
    if useFallback (this w)
    then (Map_delete (dateToKey d) (fallbackStorage (this w)),
          objectStore (host w))
    else (fallbackStorage (this w),
          match tx_outcome env, objectStore (host w) with
          | Tx_success, Some store => Some (store_delete store (dateToKey d))
          | _, os => os
          end).
Proof.
  intros Hs. unfold deleteMealRecords. cbv zeta.
  rewrite (routed_settled _ _ _ _ Hs).
  destruct_world w. destruct_env env. simpl. destruct uf.
  - unfold_monad. repeat split.
  - unfold delete_promise.
    destruct tx; destruct os as [[kp recs]|]; unfold_monad;
      try destruct cb; repeat split.
Qed.

Lemma save_stores env d m w :
  settled w -> hasAnyMealData m = true ->
  let dat := {| date := d; meals := m; lastModified := Date_now env |} in
  let w' := snd (saveMealRecords env d m w) in
  useFallback (this w') = useFallback (this w) /\ db (this w') = db (this w) /\
  stores w' =
    if useFallback (this w)
    then (Map_set (dateToKey d) dat (fallbackStorage (this w)),
          objectStore (host w))
    else (fallbackStorage (this w),
          match tx_outcome env, objectStore (host w) with
          | Tx_success, Some store =>
              match store_put store {| data := dat; dateKey := dateToKey d |} with
              | Some store' => Some store'
              | None => Some store
              end
          | _, os => os
          end).
Proof.
  intros Hs Hm. unfold saveMealRecords. rewrite Hm. cbn [negb]. cbv zeta.
  rewrite (routed_settled _ _ _ _ Hs).
  destruct_world w. destruct_env env. simpl. destruct uf.
  - unfold_monad. repeat split.
  - unfold save_promise.
    destruct tx as [e|e|]; destruct os as [[kp recs]|]; unfold_monad;
      try destruct (isQuotaExceeded e);
      try destruct (store_put _ _);
      unfold_monad; try destruct cb; repeat split.
Qed.

Lemma settled_same w w' :
  useFallback (this w') = useFallback (this w) -> db (this w') = db (this w) ->
  settled w -> settled w'.
Proof.
  intros Hf Hd [Hs|[c Hs]]; [left; congruence | right; exists c; congruence].
Qed.

End Composition.

(** X11.  In a service that is on the in-memory map or holds a connection, a
    delete whose transaction does not fail undoes a save: deleting the
    records of a day after saving them leaves the two stores as the delete
    alone leaves them, whatever the outcome of the save; and deleting after
    a delete is deleting once. *)
Theorem delete_undoes_save {number : Type} (env1 env2 : Env) (d : DateKey)
    (m : gmap string (MealRecord number)) (w : World number) :
  settled w -> tx_outcome env2 = Tx_success ->
  stores (snd (deleteMealRecords env2 d (snd (saveMealRecords env1 d m w)))) =
    stores (snd (deleteMealRecords env2 d w)) /\
  stores (snd (deleteMealRecords env2 d (snd (deleteMealRecords env1 d w)))) =
    stores (snd (deleteMealRecords env2 d w)).
Proof.
  intros Hs Htx.
  assert (Hdd :
    stores (snd (deleteMealRecords env2 d (snd (deleteMealRecords env1 d w)))) =
    stores (snd (deleteMealRecords env2 d w))).
  { destruct (delete_stores env1 d w Hs) as (Hf1 & Hd1 & Hst1).
    pose proof (settled_same _ _ Hf1 Hd1 Hs) as Hs1. cbv zeta in *.
    destruct (delete_stores env2 d _ Hs1) as (_ & _ & ->).
    destruct (delete_stores env2 d w Hs) as (_ & _ & ->).
    rewrite Hf1, Htx. unfold stores in Hst1.
    destruct (useFallback (this w)); injection Hst1 as -> ->.
    - rewrite Map_delete_idem. reflexivity.
    - f_equal.
      destruct (tx_outcome env1), (objectStore (host w)) as [[kp recs]|];
        try reflexivity.
      unfold store_delete, IDB_delete. simpl. rewrite Map_delete_idem.
      reflexivity. }
  split; [|exact Hdd].
  unfold saveMealRecords at 1.
  destruct (hasAnyMealData m) eqn:Hm; cbn [negb]; [|exact Hdd].
  destruct (save_stores env1 d m w Hs Hm) as (Hf1 & Hd1 & Hst1).
  cbv zeta in *.
  unfold saveMealRecords in Hf1, Hd1, Hst1. rewrite Hm in Hf1, Hd1, Hst1.
  cbn [negb] in Hf1, Hd1, Hst1. cbv zeta in Hf1, Hd1, Hst1.
  pose proof (settled_same _ _ Hf1 Hd1 Hs) as Hs1.
  destruct (delete_stores env2 d _ Hs1) as (_ & _ & ->).
  destruct (delete_stores env2 d w Hs) as (_ & _ & ->).
  rewrite Hf1, Htx. unfold stores in Hst1.
  destruct (useFallback (this w)); injection Hst1 as -> ->.
  - rewrite Map_delete_set. reflexivity.
  - f_equal.
    destruct (tx_outcome env1), (objectStore (host w)) as [[kp recs]|];
      try reflexivity.
    unfold store_put, store_delete, IDB_delete. simpl.
    destruct (String.eqb kp "dateKey"); simpl; [|reflexivity].
    unfold IDB_put. rewrite Map_delete_IDB_insert, Map_delete_idem. reflexivity.
Qed.

Lemma delete_undoes_save_witness :
  stores (snd (deleteMealRecords online jan15
                 (snd (saveMealRecords online jan15 appleBreakfast ready)))) =
  stores (snd (deleteMealRecords online jan15 ready)).
Proof.
  exact (proj1 (delete_undoes_save online online jan15 appleBreakfast ready
                  (or_intror (ex_intro _ _ eq_refl)) eq_refl)).
Defined.

Section Overwrite.
Context {number : Type}.

Lemma Map_set_set {V : Type} k (v v' : V) l :
  Map_set k v' (Map_set k v l) = Map_set k v' l.
Proof.
  induction l as [|[k1 v1] l IH]; simpl.
  - rewrite String.eqb_refl. reflexivity.
  - destruct (String.eqb k k1) eqn:E; simpl.
    + rewrite String.eqb_refl. reflexivity.
    + rewrite E, IH. reflexivity.
Qed.

Lemma IDB_put_put {V : Type} k (v v' : V) l :
  IDB_put k v' (IDB_put k v l) = IDB_put k v' l.
Proof.
  unfold IDB_put. rewrite Map_delete_IDB_insert, Map_delete_idem. reflexivity.
Qed.

End Overwrite.

(** X12.  In a service that is on the in-memory map or holds a connection, the
    last save of a day wins: saving records with content for a day that was
    saved before, in a transaction that does not fail, leaves the two stores
    as if the earlier save had not been made; nothing of the earlier
    records is merged into the later ones. *)
Theorem last_save_wins {number : Type} (env1 env2 : Env) (d : DateKey)
    (m1 m2 : gmap string (MealRecord number)) (w : World number) :
  settled w -> tx_outcome env2 = Tx_success ->
  enteredContent m1 -> enteredContent m2 ->
  stores (snd (saveMealRecords env2 d m2 (snd (saveMealRecords env1 d m1 w)))) =
    stores (snd (saveMealRecords env2 d m2 w)).
Proof.
  intros Hs Htx Hm1 Hm2. apply hasAnyMealData_true in Hm1, Hm2.
  destruct (save_stores env1 d m1 w Hs Hm1) as (Hf1 & Hd1 & Hst1).
  cbv zeta in *.
  pose proof (settled_same _ _ Hf1 Hd1 Hs) as Hs1.
  destruct (save_stores env2 d m2 _ Hs1 Hm2) as (_ & _ & ->).
  destruct (save_stores env2 d m2 w Hs Hm2) as (_ & _ & ->).
  rewrite Hf1, Htx. unfold stores in Hst1.
  destruct (useFallback (this w)); injection Hst1 as -> ->.
  - rewrite Map_set_set. reflexivity.
  - f_equal.
    destruct (tx_outcome env1), (objectStore (host w)) as [[kp recs]|];
      try reflexivity.
    unfold store_put. simpl.
    destruct (String.eqb kp "dateKey") eqn:Hkp; simpl; rewrite ?Hkp;
      [|reflexivity].
    cbn [dateKey records]. rewrite IDB_put_put. reflexivity.
Qed.

Lemma last_save_wins_witness :
  stores (snd (saveMealRecords online jan15 appleBreakfast
                 (snd (saveMealRecords online jan15 appleLunch ready)))) =
  stores (snd (saveMealRecords online jan15 appleBreakfast ready)).
Proof.
  assert (Hl : enteredContent appleLunch).
  { exists (MealType_value LUNCH). eexists.
    split; [vm_compute; reflexivity|]. left. discriminate. }
  assert (Hb : enteredContent appleBreakfast).
  { exists (MealType_value BREAKFAST). eexists.
    split; [vm_compute; reflexivity|]. left. discriminate. }
  exact (last_save_wins online online jan15 appleLunch appleBreakfast ready
           (or_intror (ex_intro _ _ eq_refl)) eq_refl Hl Hb).
Defined.

(* ================================================================== *)
(** * Further properties of dates and DateKeys *)
(* ================================================================== *)

Section DayOfFields.

Lemma dateOfDay_firstDay mn w L :
  0 <= mn <= 11 -> dateOfDay mn w L = w - firstDayOfMonth mn L + 1.
Proof.
  intros Hmn.
  assert (mn = 0 \/ mn = 1 \/ mn = 2 \/ mn = 3 \/ mn = 4 \/ mn = 5 \/ mn = 6 \/
          mn = 7 \/ mn = 8 \/ mn = 9 \/ mn = 10 \/ mn = 11) as Hcases by lia.
  repeat (destruct Hcases as [-> | Hcases]); try subst mn;
    cbn [dateOfDay firstDayOfMonth]; lia.
Qed.

Lemma monthOfDay_range w L : 0 <= monthOfDay w L <= 11.
Proof.
  unfold monthOfDay.
  repeat match goal with
         | |- context [if ?a <? ?b then _ else _] => destruct (a <? b); [lia|]
         end; lia.
Qed.

(** The day number of a time value, from its calendar fields. *)
Lemma Day_of_fields t :
  Day t = DayFromYear (YearFromTime t) +
          firstDayOfMonth (MonthFromTime t) (InLeapYear t) +
          DateFromTime t - 1.
Proof.
  unfold DateFromTime.
  rewrite dateOfDay_firstDay by apply monthOfDay_range.
  unfold DayWithinYear. lia.
Qed.

Lemma fields_same_day t t' :
  Day t = Day t' <->
  YearFromTime t = YearFromTime t' /\ MonthFromTime t = MonthFromTime t' /\
  DateFromTime t = DateFromTime t'.
Proof.
  split.
  - intros E.
    assert (Hy : YearFromTime t = YearFromTime t').
    { apply YearFromTime_unique. rewrite E. apply YearFromTime_spec. }
    assert (Hw : DayWithinYear t = DayWithinYear t')
      by (unfold DayWithinYear; rewrite E, Hy; reflexivity).
    assert (HL : InLeapYear t = InLeapYear t')
      by (unfold InLeapYear; rewrite Hy; reflexivity).
    unfold DateFromTime, MonthFromTime. rewrite Hw, HL. auto.
  - intros (Hy & Hm & Hd). rewrite (Day_of_fields t), (Day_of_fields t').
    unfold InLeapYear. rewrite Hy, Hm, Hd. reflexivity.
Qed.

End DayOfFields.

Section SameDay.
Variable LocalTZA : Z -> bool -> Z.

Lemma dateToKey_Some t :
  Types.dateToKey LocalTZA (Some t) =
  Some {| year := YearFromTime (LocalTime LocalTZA t);
          month := MonthFromTime (LocalTime LocalTZA t) + 1;
          day := DateFromTime (LocalTime LocalTZA t) |}.
Proof. reflexivity. Qed.

Lemma dateToKey_same_day t t' :
  Types.dateToKey LocalTZA (Some t) = Types.dateToKey LocalTZA (Some t') <->
  Day (LocalTime LocalTZA t) = Day (LocalTime LocalTZA t').
Proof.
  rewrite !dateToKey_Some, fields_same_day. split.
  - intros [= Hy Hm Hd]. repeat split; [exact Hy | lia | exact Hd].
  - intros (-> & -> & ->). reflexivity.
Qed.


End SameDay.

(** X13.  Two valid Dates have the same DateKey exactly when they fall on the
    same local calendar day: the time of day does not enter the key. *)
Theorem dateToKey_same_local_day (LocalTZA : Z -> bool -> Z) (t t' : Z) :
  Types.dateToKey LocalTZA (Some t) = Types.dateToKey LocalTZA (Some t') <->
  Day (LocalTime LocalTZA t) = Day (LocalTime LocalTZA t').
Proof. apply dateToKey_same_day. Qed.

(** X14.  [isToday] holds exactly when the selected date is a valid date whose
    local calendar day is the local calendar day of the clock: the year, the
    month and the day of the month together determine the day. *)
Theorem isToday_same_local_day (LocalTZA : Z -> bool -> Z)
    (selectedDate : Date) (now : Z) :
  Dashboard.isToday LocalTZA selectedDate now = true <->
  exists t, selectedDate = Some t /\
            Day (LocalTime LocalTZA t) = Day (LocalTime LocalTZA now).
Proof.
  unfold Dashboard.isToday, getFullYear, getMonth, getDate. cbv zeta.
  destruct selectedDate as [t|]; cbn [option_map strictEquals].
  - rewrite !andb_true_iff, !Z.eqb_eq. split.
    + intros [[Hy Hm] Hd]. exists t. split; [reflexivity|].
      apply fields_same_day. auto.
    + intros (t' & [= <-] & H). apply fields_same_day in H. tauto.
  - split; [discriminate | intros (t & Ht & _); discriminate].
Qed.





(* ================================================================== *)
(** * Properties of the component *)
(* ================================================================== *)

Section AppFacts.
Context {number : Type}.
Variable LocalTZA : Z -> bool -> Z.
Implicit Types (w : World number) (s : App.State number).

Lemma notified_nothing w w' s :
  callbackCalls (host w') = callbackCalls (host w) -> App.notified w w' s = s.
Proof.
  intros E. unfold App.notified. rewrite E, skipn_all. reflexivity.
Qed.

(** The callbacks only set the message and add a timeout. *)
Lemma notified_fields w w' s :
  let s' := App.notified w w' s in
  App.datesWithData s' = App.datesWithData s /\
  App.mealRecords s' = App.mealRecords s /\
  App.isLoadingRef s' = App.isLoadingRef s /\
  App.console_error s' = App.console_error s /\
  App.location_href s' = App.location_href s /\
  App.hostCalls s' = App.hostCalls s.
Proof.
  unfold App.notified. cbv zeta.
  generalize (skipn (length (callbackCalls (host w))) (callbackCalls (host w'))).
  intros l. revert s. induction l as [|[cb e] l IH]; intros s; simpl; [tauto|].
  destruct (Nat.eqb cb App.onStorageError); [|apply IH].
  destruct (IH (App.errorCallback_body e s)) as (H1 & H2 & H3 & H4 & H5 & H6).
  rewrite H1, H2, H3, H4, H5, H6. repeat split.
Qed.

Lemma skipn_length_app {A : Type} (l l' : list A) :
  skipn (length l) (l ++ l') = l'.
Proof. induction l as [|x l IH]; simpl; auto. Qed.

Lemma notified_one w w' s error :
  callbackCalls (host w') =
    (callbackCalls (host w) ++ [(App.onStorageError, error)])%list ->
  App.notified w w' s = App.errorCallback_body error s.
Proof.
  intros E. unfold App.notified. rewrite E, skipn_length_app. reflexivity.
Qed.

(** A read keeps the world settled and the bindings of the store in use. *)
Lemma dates_read_keeps env w :
  settled w ->
  let w' := snd (getAllDatesWithData env w) in
  settled w' /\ forall k, activeLookup k w' = activeLookup k w.
Proof.
  intros Hs. destruct (reads_effect env w Hs {| year := 0; month := 0; day := 0 |})
    as (_ & (Ht & Hos & _) & _).
  cbv zeta in *. split.
  - destruct Hs as [Hs|[c Hs]]; [left | right; exists c]; rewrite Ht; exact Hs.
  - intros k. unfold activeLookup, activeEntries. rewrite Ht, Hos. reflexivity.
Qed.

Lemma init_unsupported env w :
  indexedDB_defined env = false ->
  let w1 := snd (init env w) in
  useFallback (this w1) = true /\
  fallbackStorage (this w1) = fallbackStorage (this w) /\
  errorCallback (this w1) = errorCallback (this w) /\
  callbackCalls (host w1) =
    (callbackCalls (host w) ++
     match errorCallback (this w) with
     | Some cb =>
         [(cb, {| type := NOT_SUPPORTED;
                  userMessage :=
                    "브라우저가 데이터 저장을 지원하지 않습니다. 임시 저장소를 사용합니다.";
                  originalError := None |})]
     | None => []
     end)%list.
Proof.
  destruct_world w. destruct_env env. simpl. intros ->.
  unfold init. destruct cb; unfold_monad; rewrite ?app_nil_r; repeat split.
Qed.

Lemma init_success env w :
  indexedDB_defined env = true -> open_outcome env = Open_onsuccess ->
  let w1 := snd (init env w) in
  useFallback (this w1) = false /\
  (exists c, db (this w1) = Some c) /\
  (exists store, objectStore (host w1) = Some store) /\
  errorCallback (this w1) = errorCallback (this w) /\
  callbackCalls (host w1) = callbackCalls (host w).
Proof.
  destruct_world w. destruct_env env. simpl. intros -> ->.
  unfold init. destruct os; unfold_monad; repeat split; eexists; reflexivity.
Qed.

(** A read that succeeds invokes no callback. *)
Lemma dates_quiet env w :
  settled w ->
  useFallback (this w) = true \/
  (tx_outcome env = Tx_success /\ exists store, objectStore (host w) = Some store) ->
  let w' := snd (getAllDatesWithData env w) in
  fst (getAllDatesWithData env w) =
    Resolved (map date (withData (activeEntries w))) /\
  this w' = this w /\ objectStore (host w') = objectStore (host w) /\
  callbackCalls (host w') = callbackCalls (host w).
Proof.
  intros Hs Hok. unfold getAllDatesWithData.
  rewrite (routed_settled _ _ _ _ Hs). unfold activeEntries.
  destruct_world w. destruct_env env. simpl in *.
  destruct uf.
  - unfold_monad. repeat split.
  - destruct Hs as [Hs|[c Hs]]; [discriminate Hs|]. simpl in Hs. subst.
    destruct Hok as [Hok|[-> [store ->]]]; [discriminate Hok|].
    unfold dates_promise. unfold_monad. rewrite map_date_filter_rows.
    repeat split.
Qed.

Lemma enteredContent_insert (m : gmap string (MealRecord number)) k record :
  enteredContent (<[k := record]> m) <->
  hasMealData (Some record) = true \/
  exists slot r, slot <> k /\ m !! slot = Some r /\ hasMealData (Some r) = true.
Proof.
  unfold enteredContent. split.
  - intros (slot & r & Hr & Hc).
    destruct (decide (slot = k)) as [->|Hne].
    + rewrite lookup_insert_eq in Hr. injection Hr as <-.
      left. apply hasMealData_Some, Hc.
    + rewrite lookup_insert_ne in Hr by congruence.
      right. exists slot, r. split; [exact Hne|]. split; [exact Hr|].
      apply hasMealData_Some, Hc.
  - intros [Hc|(slot & r & Hne & Hr & Hc)].
    + exists k, record. rewrite lookup_insert_eq. split; [reflexivity|].
      apply hasMealData_Some, Hc.
    + exists slot, r. rewrite lookup_insert_ne by congruence.
      split; [exact Hr | apply hasMealData_Some, Hc].
Qed.

End AppFacts.

Lemma appleBreakfast_content : enteredContent appleBreakfast.
Proof.
  exists (MealType_value BREAKFAST). eexists.
  split; [vm_compute; reflexivity|]. left. discriminate.
Defined.

(** X17.  When [saveMealRecordsForDate date records] has saved records with
    content and its read of the dates succeeds, the dates that it hands to
    the calendar include [keyToDate] of the key of [date]; on a host whose
    time zone maps a local midnight to an instant of the same local day, and
    for a year outside 0..99, that Date falls on the local calendar day of
    [date]. *)
Theorem saved_day_is_marked {number : Type} (LocalTZA : Z -> bool -> Z)
    (env_save env_dates : Env) (t : Z) (k : DateKey)
    (records : gmap string (MealRecord number))
    (s : App.State number) (w : World number) :
  sameLocalDay LocalTZA ->
  Types.dateToKey LocalTZA (Some t) = Some k ->
  enteredContent records ->
  fst (saveMealRecords env_save k records w) = Resolved tt ->
  tx_outcome env_dates = Tx_success ->
  exists s' w',
    App.saveMealRecordsForDate LocalTZA env_save env_dates (Some t) records
      (s, w) = Some (s', w') /\
    In (keyToDate LocalTZA k) (App.datesWithData s') /\
    (~ 0 <= year k <= 99 ->
     forall t', keyToDate LocalTZA k = Some t' ->
       Day (LocalTime LocalTZA t') = Day (LocalTime LocalTZA t)).
Proof.
  intros Htz Hk Hm Hsave Htx.
  unfold App.saveMealRecordsForDate. rewrite Hk. cbn [mbind option_bind].
  unfold App.await.
  destruct (saveMealRecords env_save k records w) as [r w1] eqn:Es.
  cbn [fst] in Hsave. subst r.
  apply hasAnyMealData_true in Hm.
  destruct (save_resolved env_save k records w w1 Hm Es) as [Hs Ha].
  destruct (listed_when_present _ _ env_dates w1 Hs Ha Hm Htx)
    as [(dates & Hdates & Hin) _]. cbn [date] in Hin.
  destruct (getAllDatesWithData env_dates w1) as [r2 w2] eqn:Ed.
  cbn [fst] in Hdates. subst r2. cbn [fst snd].
  do 2 eexists. split; [reflexivity|]. split.
  - cbn [App.setDatesWithData App.datesWithData]. unfold App.toDates.
    apply (in_map (fun key => Date_new LocalTZA (year key) (month key - 1) (day key))
             dates k Hin).
  - intros Hy t' Ht'.
    apply (dateToKey_same_day LocalTZA).
    rewrite Hk. apply key_date_key; try assumption.
    destruct (dateToKey_valid LocalTZA t) as (k' & Hk' & Hv). congruence.
Qed.

Lemma saved_day_is_marked_witness :
  exists s' w',
    App.saveMealRecordsForDate KST online online (Some 1705244400000)
      appleBreakfast
      ({| App.datesWithData := []; App.errorMessage := None;
          App.mealRecords := appleBreakfast; App.isLoadingRef := false;
          App.timeouts := []; App.console_error := [];
          App.location_href := None; App.hostCalls := [] |}, world0)
      = Some (s', w') /\
    In (Some 1705244400000) (App.datesWithData s').
Proof.
  destruct (saved_day_is_marked KST online online 1705244400000 jan15
              appleBreakfast
              {| App.datesWithData := []; App.errorMessage := None;
                 App.mealRecords := appleBreakfast; App.isLoadingRef := false;
                 App.timeouts := []; App.console_error := [];
                 App.location_href := None; App.hostCalls := [] |} world0)
    as (s' & w' & Hrun & Hin & _).
  - exact sameLocalDay_KST.
  - vm_compute. reflexivity.
  - exists (MealType_value BREAKFAST). eexists.
    split; [vm_compute; reflexivity|]. left. discriminate.
  - vm_compute. reflexivity.
  - reflexivity.
  - exists s', w'. split; [exact Hrun|].
    replace (Some 1705244400000) with (keyToDate KST jan15)
      by (vm_compute; reflexivity).
    exact Hin.
Defined.

(** X18.  Records with content that [saveMealRecordsForDate] has saved for a
    Date are what [loadMealRecordsForDate] then puts into the state for
    every Date of the same local calendar day, when its read succeeds; and
    [loadMealRecordsForDate] leaves the loading flag cleared. *)
Theorem same_day_load_shows_saved {number : Type} (LocalTZA : Z -> bool -> Z)
    (env_save env_dates env_load : Env) (t t' : Z) (k : DateKey)
    (records : gmap string (MealRecord number))
    (s s1 : App.State number) (w w1 : World number) :
  Types.dateToKey LocalTZA (Some t) = Some k ->
  enteredContent records ->
  fst (saveMealRecords env_save k records w) = Resolved tt ->
  App.saveMealRecordsForDate LocalTZA env_save env_dates (Some t) records
    (s, w) = Some (s1, w1) ->
  Day (LocalTime LocalTZA t') = Day (LocalTime LocalTZA t) ->
  tx_outcome env_load = Tx_success ->
  exists s2 w2,
    App.loadMealRecordsForDate LocalTZA env_load (Some t') (s1, w1)
      = Some (s2, w2) /\
    App.mealRecords s2 = records /\ App.isLoadingRef s2 = false.
Proof.
  intros Hk Hm Hsave Hrun Hday Htx.
  assert (Hk' : Types.dateToKey LocalTZA (Some t') = Some k).
  { rewrite <- Hk. apply dateToKey_same_day, Hday. }
  apply hasAnyMealData_true in Hm.
  unfold App.saveMealRecordsForDate in Hrun. rewrite Hk in Hrun.
  cbn [mbind option_bind] in Hrun. unfold App.await in Hrun.
  destruct (saveMealRecords env_save k records w) as [r w0] eqn:Es.
  cbn [fst] in Hsave. subst r.
  destruct (save_resolved env_save k records w w0 Hm Es) as [Hs Ha].
  destruct (dates_read_keeps env_dates w0 Hs) as [Hs1 Ha1]. cbv zeta in *.
  destruct (getAllDatesWithData env_dates w0) as [r2 w2] eqn:Ed.
  cbn [fst snd] in *.
  assert (Hw1 : w1 = w2) by (destruct r2; injection Hrun as _ <-; reflexivity).
  subst w2. clear Hrun.
  unfold App.loadMealRecordsForDate. rewrite Hk'. cbn [mbind option_bind].
  unfold App.await.
  pose proof (load_settled env_load k w1 Hs1 Htx) as Hload.
  rewrite Ha1, Ha in Hload. cbn [meals] in Hload.
  destruct (loadMealRecords env_load k w1) as [r3 w3].
  cbn [fst] in Hload. subst r3.
  do 2 eexists. split; [reflexivity|]. split; reflexivity.
Qed.

Lemma same_day_load_shows_saved_witness :
  match App.saveMealRecordsForDate KST online online (Some jan15_midnight)
          appleBreakfast (appState0, world0) with
  | Some a =>
      exists s2 w2,
        App.loadMealRecordsForDate KST online (Some jan15_1am) a
          = Some (s2, w2) /\
        App.mealRecords s2 = appleBreakfast /\ App.isLoadingRef s2 = false
  | None => False
  end.
Proof.
  destruct (App.saveMealRecordsForDate KST online online (Some jan15_midnight)
              appleBreakfast (appState0, world0)) as [[s1 w1]|] eqn:E;
    [|vm_compute in E; discriminate E].
  apply (same_day_load_shows_saved KST online online online jan15_midnight
           jan15_1am jan15 appleBreakfast appState0 s1 world0 w1).
  - vm_compute. reflexivity.
  - exact appleBreakfast_content.
  - vm_compute. reflexivity.
  - exact E.
  - vm_compute. reflexivity.
  - reflexivity.
Defined.

(** X19.  [initStorage] never reaches its [catch]: neither [init] nor
    [getAllDatesWithData] rejects, so the component logs nothing.  It leaves
    its callback registered.  Without IndexedDB the service goes on the
    in-memory map, the callback shows the message of the [NOT_SUPPORTED]
    error, with a timeout of 5 seconds to hide it, and the calendar receives
    the days with content of the in-memory map; when the database opens and
    the read succeeds, the message and the timeouts are untouched and the
    calendar receives the stored days with content. *)
Theorem initStorage_outcomes {number : Type} (LocalTZA : Z -> bool -> Z)
    (env_init env_dates : Env) (s : App.State number) (w : World number) :
  let s' := fst (App.initStorage LocalTZA env_init env_dates (s, w)) in
  let w' := snd (App.initStorage LocalTZA env_init env_dates (s, w)) in
  App.console_error s' = App.console_error s /\
  errorCallback (this w') = Some App.onStorageError /\
  (indexedDB_defined env_init = false ->
   useFallback (this w') = true /\
   App.errorMessage s' =
     Some "브라우저가 데이터 저장을 지원하지 않습니다. 임시 저장소를 사용합니다." /\
   App.timeouts s' = (App.timeouts s ++ [5000])%list /\
   App.datesWithData s' =
     App.toDates LocalTZA (map date (withData (fallbackStorage (this w))))) /\
  (indexedDB_defined env_init = true ->
   open_outcome env_init = Open_onsuccess ->
   tx_outcome env_dates = Tx_success ->
   useFallback (this w') = false /\
   App.errorMessage s' = App.errorMessage s /\
   App.timeouts s' = App.timeouts s /\
   App.datesWithData s' =
     App.toDates LocalTZA (map date (withData (activeEntries w')))).
Proof.
  cbv zeta. unfold App.initStorage, App.await.
  set (w0 := snd (setErrorCallback App.onStorageError w)).
  assert (Hcb0 : errorCallback (this w0) = Some App.onStorageError)
    by (destruct_world w; reflexivity).
  assert (Hfs0 : fallbackStorage (this w0) = fallbackStorage (this w))
    by (destruct_world w; reflexivity).
  pose proof (init_resolves env_init w0) as Hr1.
  pose proof (init_effect env_init w0) as (_ & Hcb1 & Heff).
  destruct (init env_init w0) as [r1 w1] eqn:E1. cbn [fst snd] in *. subst r1.
  assert (Hs1 : settled w1).
  { destruct Heff as [(H & _)|(_ & H & _)]; [left; exact H | right; eauto]. }
  destruct (reads_effect env_dates w1 Hs1 {| year := 0; month := 0; day := 0 |})
    as (_ & (Ht2 & Hos2 & _) & _). cbv zeta in *.
  assert (Hr2 : exists dates, fst (getAllDatesWithData env_dates w1) = Resolved dates).
  { destruct (dates_value env_dates w1 Hs1) as [[_ ->]|[_ ->]]; eexists; reflexivity. }
  destruct Hr2 as [dates Hr2].
  destruct (getAllDatesWithData env_dates w1) as [r2 w2] eqn:E2.
  cbn [fst snd] in *. subst r2.
  destruct (notified_fields w0 w1 s) as (_ & _ & _ & Hc1 & _).
  destruct (notified_fields w1 w2 (App.notified w0 w1 s)) as (_ & _ & _ & Hc2 & _).
  cbv zeta in *.
  cbn [fst snd App.setDatesWithData App.console_error App.errorMessage
       App.timeouts App.datesWithData].
  split; [congruence|]. split; [rewrite Ht2; congruence|]. split.
  - intros Hsup.
    pose proof (init_unsupported env_init w0 Hsup) as (Hf1 & Hfs1 & _ & Hcalls1).
    rewrite E1 in Hf1, Hfs1, Hcalls1. cbn [snd] in *. rewrite Hcb0 in Hcalls1.
    pose proof (dates_quiet env_dates w1 Hs1 (or_introl Hf1)) as (Hd & _ & _ & Hq).
    rewrite E2 in Hd, Hq. cbn [fst snd] in *. injection Hd as ->.
    rewrite (notified_nothing w1 w2 _ Hq), (notified_one w0 w1 s _ Hcalls1).
    split; [rewrite Ht2; exact Hf1|].
    cbn [App.errorCallback_body App.setTimeout App.setErrorMessage
         App.errorMessage App.timeouts userMessage].
    repeat split. unfold activeEntries. rewrite Hf1, Hfs1, Hfs0. reflexivity.
  - intros Hsup Hoo Htx.
    pose proof (init_success env_init w0 Hsup Hoo) as (Hf1 & Hd1 & Hst1 & _ & Hcalls1).
    rewrite E1 in Hf1, Hd1, Hst1, Hcalls1. cbn [snd] in *.
    pose proof (dates_quiet env_dates w1 Hs1 (or_intror (conj Htx Hst1)))
      as (Hd & _ & _ & Hq).
    rewrite E2 in Hd, Hq. cbn [fst snd] in *. injection Hd as ->.
    rewrite (notified_nothing w1 w2 _ Hq), (notified_nothing w0 w1 s Hcalls1).
    split; [rewrite Ht2; exact Hf1|]. repeat split.
    unfold activeEntries. rewrite Ht2, Hos2. reflexivity.
Qed.

(** X20.  [handleSaveMeal] puts the record into the slot of its meal type and
    leaves the other slots as they are.  The records of the day then have
    content for the storage service exactly when the record has an item or
    a non-empty image, or another slot has; when they have not,
    [saveMealRecords] on them is [deleteMealRecords]. *)
Theorem handleSaveMeal_content {number : Type} (record : MealRecord number)
    (s : App.State number) :
  let s' := App.handleSaveMeal record s in
  let slot := MealType_value (Types.type record) in
  App.mealRecords s' !! slot = Some record /\
  (forall slot', slot' <> slot ->
     App.mealRecords s' !! slot' = App.mealRecords s !! slot') /\
  (hasAnyMealData (App.mealRecords s') = true <->
   hasMealData (Some record) = true \/
   exists slot' r, slot' <> slot /\ App.mealRecords s !! slot' = Some r /\
                   hasMealData (Some r) = true) /\
  (hasAnyMealData (App.mealRecords s') = false ->
   forall env d (w : World number),
     saveMealRecords env d (App.mealRecords s') w = deleteMealRecords env d w).
Proof.
  cbv zeta. unfold App.handleSaveMeal. cbn [App.setMealRecords App.mealRecords].
  split; [apply lookup_insert_eq|]. split.
  - intros slot' Hne. apply lookup_insert_ne. congruence.
  - split.
    + rewrite hasAnyMealData_true. apply enteredContent_insert.
    + intros Hnone env d w. unfold saveMealRecords. rewrite Hnone. reflexivity.
Qed.

(* ================================================================== *)
(** * Properties of the export by email *)
(* ================================================================== *)

Section ExportFacts.
Context {number : Type}.
Variable LocalTZA : Z -> bool -> Z.
Variable toISOString : Z -> string.
Variable JSON_stringify : EmailExportService.ExportPayload number -> string.

Import EmailExportService.

Abbreviation export :=
  (exportMealDataToEmail LocalTZA toISOString JSON_stringify).
Abbreviation exportFile env records :=
  (fst (fst (createMealDataExport LocalTZA toISOString JSON_stringify
               env records))).

Lemma export_cases env records options :
  records <> [] ->
  let file := exportFile env records in
  let data :=
    {| title := default DEFAULT_SUBJECT (subject options);
       text := default DEFAULT_BODY (body options);
       files := [file] |} in
  let r := fst (export env records options) in
  let calls := snd (export env records options) in
  (r = Fulfilled {| method := web_share; fileName := file_name file;
                    mailtoUrl := None |} /\
   calls = [navigator_share data]) \/
  ((exists error, r = RejectedWith error /\ isAbortError error = true) /\
   calls = [navigator_share data]) \/
  (r = Fulfilled {| method := download_mailto;
                    fileName := file_name file;
                    mailtoUrl := Some (fallbackUrl options (file_name file)) |} /\
   (calls = downloadFile file \/
    calls = navigator_share data :: downloadFile file)).
Proof.
  intros Hne. unfold exportMealDataToEmail, fallbackUrl.
  destruct records as [|row rows]; [congruence|].
  change (Z.of_nat (length (row :: rows)) =? 0) with false. cbv iota.
  unfold createMealDataExport. cbv zeta. cbn [fst snd file_name].
  destruct (share (navigator env)) as [sh|]; [|right; right; split; eauto].
  destruct (canShare (navigator env)) as [cs|].
  - destruct (cs _); [|right; right; split; eauto].
    destruct (sh _) as [|error] eqn:Hsh; [left; auto|].
    destruct (isAbortError error) eqn:Hab; [right; left|right; right];
      split; eauto.
  - destruct (sh _) as [|error] eqn:Hsh; [left; auto|].
    destruct (isAbortError error) eqn:Hab; [right; left|right; right];
      split; eauto.
Qed.

(** X21.  [exportMealDataToEmail] rejects at once, without a call on the
    host, when there is no record to export.  Otherwise one of three things
    happens: the file is shared and the result is [web-share]; the
    share is cancelled (an [AbortError]), the promise rejects with that
    error and nothing is downloaded; or the file is downloaded, after a
    failed share or without any, and the result is [download-mailto] with
    the mailto URL.  The file name of the result is the name of the file
    that was shared or downloaded. *)
Theorem export_outcomes (env : Env) (records : list (DailyMealData number))
    (options : EmailExportOptions) :
  let file := exportFile env records in
  let data :=
    {| title := default DEFAULT_SUBJECT (subject options);
       text := default DEFAULT_BODY (body options);
       files := [file] |} in
  let r := fst (export env records options) in
  let calls := snd (export env records options) in
  (records = [] ->
   r = RejectedWith (Thrown_Error "Error" "내보낼 식단 데이터가 없습니다.") /\
   calls = []) /\
  (records <> [] ->
   (r = Fulfilled {| method := web_share; fileName := file_name file;
                     mailtoUrl := None |} /\
    calls = [navigator_share data]) \/
   ((exists error, r = RejectedWith error /\ isAbortError error = true) /\
    calls = [navigator_share data]) \/
   (r = Fulfilled {| method := download_mailto;
                     fileName := file_name file;
                     mailtoUrl := Some (fallbackUrl options (file_name file)) |} /\
    (calls = downloadFile file \/
     calls = navigator_share data :: downloadFile file))).
Proof.
  cbv zeta. split.
  - intros ->. split; reflexivity.
  - apply export_cases.
Qed.

End ExportFacts.

Section Stamp.
Variable LocalTZA : Z -> bool -> Z.

Lemma daysInMonth_le_31 y m : daysInMonth y m <= 31.
Proof.
  unfold daysInMonth, daysInMonthL.
  destruct (isLeapYear y); destruct m as [|p|p]; try lia;
    repeat (destruct p as [p|p|]; try lia).
Qed.

Lemma local_fields_range t :
  let now := LocalTime LocalTZA t in
  1 <= MonthFromTime now + 1 <= 12 /\ 1 <= DateFromTime now <= 31 /\
  0 <= HourFromTime now <= 23 /\ 0 <= MinFromTime now <= 59.
Proof.
  cbv zeta.
  destruct (dateToKey_valid LocalTZA t) as (k & Hk & Hm & Hd).
  rewrite dateToKey_Some in Hk. injection Hk as <-. cbn [year month day] in *.
  pose proof (daysInMonth_le_31 (YearFromTime (LocalTime LocalTZA t))
                (MonthFromTime (LocalTime LocalTZA t) + 1)).
  unfold HourFromTime, MinFromTime.
  pose proof (Z.mod_pos_bound (LocalTime LocalTZA t / msPerHour) 24 ltac:(lia)).
  pose proof (Z.mod_pos_bound (LocalTime LocalTZA t / msPerMinute) 60 ltac:(lia)).
  lia.
Qed.

End Stamp.

(** X22.  For a clock whose local year has four digits, [dateStamp] is
    YYYYMMDD-HHMM: the year, then the month, the day, a hyphen, the hour and
    the minute, each zero-padded to two digits; the exported file is then
    named nutritrack-meals-YYYYMMDD-HHMM.json. *)
Theorem dateStamp_shape {number : Type} (LocalTZA : Z -> bool -> Z)
    (toISOString : Z -> string)
    (JSON_stringify : EmailExportService.ExportPayload number -> string)
    (env : EmailExportService.Env) (records : list (DailyMealData number)) :
  let clock := EmailExportService.clock_dateStamp env in
  let now := LocalTime LocalTZA clock in
  1000 <= YearFromTime now <= 9999 ->
  EmailExportService.dateStamp LocalTZA clock =
    (Number_toString (YearFromTime now) ++ twoDigits (MonthFromTime now + 1) ++
     twoDigits (DateFromTime now) ++ "-" ++ twoDigits (HourFromTime now) ++
     twoDigits (MinFromTime now))%string /\
  is_YYYYMMDD_HHMM (EmailExportService.dateStamp LocalTZA clock) = true /\
  snd (fst (EmailExportService.createMealDataExport LocalTZA toISOString
              JSON_stringify env records)) =
    ("nutritrack-meals-" ++ EmailExportService.dateStamp LocalTZA clock ++
     ".json")%string.
Proof.
  intros clock now Hy.
  destruct (local_fields_range LocalTZA clock) as (Hm & Hd & Hh & Hmin).
  cbv zeta in *. fold now in Hm, Hd, Hh, Hmin.
  assert (E : EmailExportService.dateStamp LocalTZA clock =
    (Number_toString (YearFromTime now) ++ twoDigits (MonthFromTime now + 1) ++
     twoDigits (DateFromTime now) ++ "-" ++ twoDigits (HourFromTime now) ++
     twoDigits (MinFromTime now))%string).
  { unfold EmailExportService.dateStamp. cbv zeta. fold now.
    rewrite !padStart_twoDigits by lia. reflexivity. }
  split; [exact E|]. split; [|reflexivity].
  rewrite E. unfold is_YYYYMMDD_HHMM.
  apply (matches_app [isDigit; isDigit; isDigit; isDigit]
           [isDigit; isDigit; isDigit; isDigit; isHyphen;
            isDigit; isDigit; isDigit; isDigit]);
    [apply year_four_digits, Hy|].
  apply (matches_app [isDigit; isDigit]
           [isDigit; isDigit; isHyphen; isDigit; isDigit; isDigit; isDigit]);
    [apply twoDigits_matches; lia|].
  apply (matches_app [isDigit; isDigit]
           [isHyphen; isDigit; isDigit; isDigit; isDigit]);
    [apply twoDigits_matches; lia|].
  apply (matches_app [isHyphen] [isDigit; isDigit; isDigit; isDigit] "-");
    [reflexivity|].
  apply (matches_app [isDigit; isDigit] [isDigit; isDigit]);
    apply twoDigits_matches; lia.
Qed.

Lemma dateStamp_shape_witness :
  EmailExportService.dateStamp KST 1705276800000 = "20240115-0900" /\
  is_YYYYMMDD_HHMM (EmailExportService.dateStamp KST 1705276800000) = true.
Proof.
  destruct (dateStamp_shape KST isoStub jsonStub noShare [])
    as (Hform & Hshape & _).
  - vm_compute. split; discriminate.
  - change 1705276800000 with (EmailExportService.clock_dateStamp noShare).
    split; [rewrite Hform; vm_compute; reflexivity | exact Hshape].
Defined.

Section AppExportTheorems.
Context {number : Type}.
Variable LocalTZA : Z -> bool -> Z.
Variable toISOString : Z -> string.
Variable JSON_stringify : EmailExportService.ExportPayload number -> string.
Import EmailExportService.

(** X23.  When no stored record has content, or the read of the records
    fails, [handleEmailExport] shows the message that the export failed, and
    neither shares, nor downloads, nor navigates. *)
Theorem export_with_nothing_stored (env_data : StorageService.Env)
    (env_export : Env) (s : App.State number) (w : World number) :
  let w1 := afterOpen env_data w in
  withData (activeEntries w1) = [] \/ readFails env_data w1 ->
  let s' := fst (App.handleEmailExport LocalTZA toISOString JSON_stringify
                   env_data env_export (s, w)) in
  App.errorMessage s' =
    Some "이메일 내보내기에 실패했습니다. 다시 시도해주세요." /\
  App.hostCalls s' = App.hostCalls s /\
  App.location_href s' = App.location_href s.
Proof.
  intros w1 Hnone.
  assert (Hrows : fst (getAllMealData env_data w) = Resolved []).
  { rewrite getAllMealData_afterOpen. fold w1.
    destruct (rows_value env_data w1 (afterOpen_settled env_data w))
      as [[_ ->]|[Hok ->]]; [reflexivity|].
    destruct Hnone as [-> | Hbad]; [reflexivity | contradiction]. }
  unfold App.handleEmailExport, App.await. cbv zeta.
  destruct (getAllMealData env_data w) as [r w'] eqn:E.
  cbn [fst] in Hrows. subst r. cbn [fst snd].
  change (exportMealDataToEmail LocalTZA toISOString JSON_stringify env_export
            [] _)
    with (@RejectedWith ExportResult
            (Thrown_Error "Error" "내보낼 식단 데이터가 없습니다."),
          @nil HostCall).
  destruct (notified_fields w w' s) as (_ & _ & _ & _ & Hloc & Hcalls).
  cbv zeta in *. cbn. rewrite app_nil_r. auto.
Qed.

Lemma createMailtoUrl_nonempty recipient subject body :
  (createMailtoUrl recipient subject body =? "")%string = false.
Proof. reflexivity. Qed.

(** X24.  When there are records to export, [handleEmailExport] makes the
    calls of [exportMealDataToEmail] on the host and then: after a share,
    it does not navigate; after a download, it navigates to the mailto URL
    of the result; after a cancelled share, it does not navigate and shows
    the message that the export failed. *)
Theorem handleEmailExport_outcomes (env_data : StorageService.Env)
    (env_export : Env) (s : App.State number) (w : World number)
    (rows : list (DailyMealData number)) :
  fst (getAllMealData env_data w) = Resolved rows -> rows <> [] ->
  let s' := fst (App.handleEmailExport LocalTZA toISOString JSON_stringify
                   env_data env_export (s, w)) in
  let export :=
    exportMealDataToEmail LocalTZA toISOString JSON_stringify env_export rows
      {| recipient := None; subject := None; body := None |} in
  App.hostCalls s' = (App.hostCalls s ++ snd export)%list /\
  match fst export with
  | Fulfilled result =>
      App.console_error s' = App.console_error s /\
      match method result with
      | web_share => App.location_href s' = App.location_href s
      | download_mailto =>
          App.location_href s' = mailtoUrl result /\ mailtoUrl result <> None
      end
  | RejectedWith error =>
      isAbortError error = true /\
      App.location_href s' = App.location_href s /\
      App.errorMessage s' =
        Some "이메일 내보내기에 실패했습니다. 다시 시도해주세요."
  end.
Proof.
  intros Hrows Hne. cbv zeta.
  unfold App.handleEmailExport, App.await. cbv zeta.
  destruct (getAllMealData env_data w) as [r w'] eqn:E.
  cbn [fst] in Hrows. subst r. cbn [fst snd].
  destruct (notified_fields w w' s) as (_ & _ & _ & Hcon & Hloc & Hcalls).
  cbv zeta in *.
  pose proof (export_cases LocalTZA toISOString JSON_stringify env_export rows
                {| recipient := None; subject := None; body := None |} Hne)
    as Hcases. cbv zeta in Hcases.
  destruct (exportMealDataToEmail LocalTZA toISOString JSON_stringify
              env_export rows _) as [result calls].
  cbn [fst snd] in *.
  destruct Hcases as [[-> ->]|[[(error & -> & Hab) ->]|[-> Hc]]];
    cbn [method mailtoUrl fileName]; unfold fallbackUrl;
    rewrite ?createMailtoUrl_nonempty; cbn;
    rewrite ?Hcalls, ?Hcon, ?Hloc; repeat split; try assumption;
    discriminate.
Qed.

End AppExportTheorems.

Lemma export_with_nothing_stored_witness :
  App.errorMessage
    (fst (App.handleEmailExport KST isoStub jsonStub online noShare
            (appState0, world0)))
  = Some "이메일 내보내기에 실패했습니다. 다시 시도해주세요.".
Proof.
  apply (export_with_nothing_stored KST isoStub jsonStub online noShare
           appState0 world0).
  left. vm_compute. reflexivity.
Defined.

Lemma handleEmailExport_outcomes_witness :
  App.location_href
    (fst (App.handleEmailExport KST isoStub jsonStub online noShare
            (appState0, snd (saveMealRecords online jan15 appleBreakfast world0))))
  <> None.
Proof.
  pose proof (handleEmailExport_outcomes KST isoStub jsonStub online noShare
                appState0
                (snd (saveMealRecords online jan15 appleBreakfast world0))
                [{| date := jan15; meals := appleBreakfast;
                    lastModified := 1705276800000 |}]
                ltac:(vm_compute; reflexivity) ltac:(discriminate)) as [_ H].
  cbv zeta in H.
  change (fst (EmailExportService.exportMealDataToEmail KST isoStub jsonStub
                 noShare
                 [{| date := jan15; meals := appleBreakfast;
                     lastModified := 1705276800000 |}]
                 {| EmailExportService.recipient := None;
                    EmailExportService.subject := None;
                    EmailExportService.body := None |}))
    with (EmailExportService.Fulfilled
            {| EmailExportService.method := EmailExportService.download_mailto;
               EmailExportService.fileName :=
                 "nutritrack-meals-20240115-0900.json";
               EmailExportService.mailtoUrl :=
                 Some (EmailExportService.createMailtoUrl ""
                         EmailExportService.DEFAULT_SUBJECT
                         (EmailExportService.DEFAULT_BODY ++
                          String "010" (String "010" "다운로드된 ") ++
                          "nutritrack-meals-20240115-0900.json" ++
                          " 파일을 첨부해서 전송해주세요.")) |}) in H.
  cbn [EmailExportService.method EmailExportService.mailtoUrl] in H.
  destruct H as [_ [-> _]]. discriminate.
Defined.

(* ================================================================== *)
(** * Properties of the image sizes *)
(* ================================================================== *)

Section Base64Size.
Import ImageCompression.

Lemma split_noComma s : noComma s = true -> String_split "," s = [s].
Proof.
  induction s as [|c s IH]; simpl; [reflexivity|].
  intros H. apply andb_true_iff in H as [Hc Hs].
  apply negb_true_iff in Hc. rewrite Hc, (IH Hs). reflexivity.
Qed.

Lemma split_header h p :
  noComma h = true ->
  String_split "," (h ++ String "," p) = h :: String_split "," p.
Proof.
  induction h as [|c h IH]; simpl; [reflexivity|].
  intros H. apply andb_true_iff in H as [Hc Hh].
  apply negb_true_iff in Hc. rewrite Hc, (IH Hh). reflexivity.
Qed.

Lemma list_ind3 {A : Type} (P : list A -> Prop) :
  P [] -> (forall a, P [a]) -> (forall a b, P [a; b]) ->
  (forall a b c l, P l -> P (a :: b :: c :: l)) ->
  forall l, P l.
Proof.
  intros H0 H1 H2 H3 l.
  assert (H : P l /\ (forall a, P (a :: l)) /\ (forall a b, P (a :: b :: l))).
  { induction l as [|x l (IH0 & IH1 & IH2)]; [auto|].
    split; [apply IH1|]. split; [intros a; apply IH2|].
    intros a b. apply H3, IH0. }
  apply H.
Qed.

Lemma base64Char_plain n :
  Ascii.eqb (base64Char n) "=" = false /\ Ascii.eqb (base64Char n) "," = false.
Proof.
  unfold base64Char.
  do 64 (destruct n as [|n]; [split; reflexivity|]).
  destruct n; split; reflexivity.
Qed.

(** The text of a base64 encoding: no comma, and three quarters of its
    length are the bytes and the padding. *)
Lemma base64_text bytes :
  noComma (base64 bytes) = true /\
  (3 * String.length (base64 bytes) =
   4 * (length bytes + count_matches "=" (base64 bytes)))%nat.
Proof.
  induction bytes as [|a|a b|a b c rest [IHc IHl]] using list_ind3.
  - split; reflexivity.
  - cbn [base64]. cbv zeta.
    destruct (base64Char_plain (nat_of_ascii a / 4)) as [E1 C1].
    destruct (base64Char_plain (nat_of_ascii a mod 4 * 16)) as [E2 C2].
    cbn [noComma count_matches String.length length].
    rewrite E1, E2, C1, C2. split; reflexivity.
  - cbn [base64]. cbv zeta.
    destruct (base64Char_plain (nat_of_ascii a / 4)) as [E1 C1].
    destruct (base64Char_plain (nat_of_ascii a mod 4 * 16 + nat_of_ascii b / 16))
      as [E2 C2].
    destruct (base64Char_plain (nat_of_ascii b mod 16 * 4)) as [E3 C3].
    cbn [noComma count_matches String.length length].
    rewrite E1, E2, E3, C1, C2, C3. split; reflexivity.
  - cbn [base64]. cbv zeta.
    destruct (base64Char_plain (nat_of_ascii a / 4)) as [E1 C1].
    destruct (base64Char_plain (nat_of_ascii a mod 4 * 16 + nat_of_ascii b / 16))
      as [E2 C2].
    destruct (base64Char_plain (nat_of_ascii b mod 16 * 4 + nat_of_ascii c / 64))
      as [E3 C3].
    destruct (base64Char_plain (nat_of_ascii c mod 64)) as [E4 C4].
    cbn [noComma count_matches String.length length].
    rewrite E1, E2, E3, E4, C1, C2, C3, C4. split; [exact IHc|].
    cbn [negb andb]. lia.
Qed.

Lemma size_of_text (len n pad : nat) :
  (3 * len = 4 * (n + pad))%nat ->
  (inject_Z (Z.of_nat len * 3) / 4 - inject_Z (Z.of_nat pad) ==
   inject_Z (Z.of_nat n))%Q.
Proof.
  intros H.
  replace (Z.of_nat len * 3)%Z with (4 * (Z.of_nat n + Z.of_nat pad))%Z by lia.
  rewrite inject_Z_mult, inject_Z_plus. field.
Qed.

Lemma getBase64Size_noComma s :
  noComma s = true ->
  getBase64Size s =
  (inject_Z (Z.of_nat (String.length s) * 3) / 4 -
   inject_Z (Z.of_nat (count_matches "=" s)))%Q.
Proof.
  intros H. unfold getBase64Size. rewrite (split_noComma s H). reflexivity.
Qed.

Lemma getBase64Size_header h p :
  noComma h = true -> noComma p = true -> p <> EmptyString ->
  getBase64Size (h ++ String "," p) = getBase64Size p.
Proof.
  intros Hh Hp Hne. rewrite (getBase64Size_noComma p Hp).
  unfold getBase64Size. rewrite (split_header h p Hh), (split_noComma p Hp).
  cbn [nth_error].
  destruct (String.eqb_spec p ""); [contradiction | reflexivity].
Qed.


(** X25.  [getBase64Size] of the base64 text of a sequence of bytes is the
    number of the bytes; and so it is for a data URL made of a header
    without a comma, a comma and the base64 text of at least one byte: the
    header is not counted.  When the payload after the comma is empty, the
    whole string is measured instead, header and comma included. *)
Theorem getBase64Size_counts_bytes (bytes : list ascii) (header : string) :
  (getBase64Size (base64 bytes) == inject_Z (Z.of_nat (length bytes)))%Q /\
  (noComma header = true -> bytes <> [] ->
   (getBase64Size (header ++ String "," (base64 bytes)) ==
    inject_Z (Z.of_nat (length bytes)))%Q) /\
  (noComma header = true ->
   getBase64Size (header ++ ",") =
   (inject_Z (Z.of_nat (String.length (header ++ ",")) * 3) / 4 -
    inject_Z (Z.of_nat (count_matches "=" (header ++ ","))))%Q).
Proof.
  destruct (base64_text bytes) as [Hc Hl].
  assert (H : (getBase64Size (base64 bytes) ==
               inject_Z (Z.of_nat (length bytes)))%Q).
  { rewrite (getBase64Size_noComma _ Hc). apply size_of_text, Hl. }
  split; [exact H|]. split.
  - intros Hh Hne.
    rewrite getBase64Size_header; [exact H | exact Hh | exact Hc |].
    destruct bytes as [|a [|b [|c rest]]]; [congruence | | |]; discriminate.
  - intros Hh. unfold getBase64Size.
    rewrite (split_header header "" Hh). reflexivity.
Qed.

(** X26.  For a data URL made of a header without a comma, a comma and the
    base64 text of at least one byte, [shouldCompressImage] holds exactly
    when the number of the bytes exceeds the threshold. *)
Theorem shouldCompressImage_threshold (bytes : list ascii) (header : string)
    (thresholdBytes : Q) :
  noComma header = true -> bytes <> [] ->
  shouldCompressImage (header ++ String "," (base64 bytes)) thresholdBytes = true
  <-> (thresholdBytes < inject_Z (Z.of_nat (length bytes)))%Q.
Proof.
  intros Hh Hne. unfold shouldCompressImage.
  destruct (base64_text bytes) as [Hc Hl].
  assert (H : (getBase64Size (header ++ String "," (base64 bytes)) ==
               inject_Z (Z.of_nat (length bytes)))%Q).
  { rewrite getBase64Size_header; [| exact Hh | exact Hc |].
    - rewrite (getBase64Size_noComma _ Hc). apply size_of_text, Hl.
    - destruct bytes as [|a [|b [|c rest]]]; [congruence | | |]; discriminate. }
  rewrite negb_true_iff, <- not_true_iff_false, Qle_bool_iff, H.
  split; [apply Qnot_le_lt | apply Qlt_not_le].
Qed.

Lemma shouldCompressImage_threshold_witness :
  shouldCompressImage
    ("data:image/jpeg;base64" ++ String "," (base64 ["M"; "a"; "n"]%char))%string
    2 = true.
Proof.
  apply (proj2 (shouldCompressImage_threshold ["M"; "a"; "n"]%char
                  "data:image/jpeg;base64" 2 eq_refl ltac:(discriminate))).
  reflexivity.
Defined.

End Base64Size.

(* ================================================================== *)
(** * Properties of the items of a meal *)
(* ================================================================== *)

Section ItemEdits.
Context {number : Type}.
Variable zero : number.
Implicit Types (prev : list (FoodItem number)) (item : FoodItem number).

Lemma delete_absent id prev :
  Forall (fun item => Types.id item <> id) prev ->
  MealInput.handleDeleteItem id prev = prev.
Proof.
  unfold MealInput.handleDeleteItem.
  induction 1 as [|item prev Hne _ IH]; simpl; [reflexivity|].
  destruct (String.eqb_spec (Types.id item) id); [contradiction|].
  simpl. rewrite IH. reflexivity.
Qed.

Lemma withField_id item fv : Types.id (MealInput.withField item fv) = Types.id item.
Proof. destruct fv; reflexivity. Qed.

End ItemEdits.

(** X27.  [handleDeleteItem] removes every item that has the id and keeps the
    others in their order.  So it undoes the addition of an item whose id
    no other item has; and two items that [handleManualAdd] made at the same
    clock value, which have the same id, are removed together. *)
Theorem delete_item_by_id {number : Type} (zero : number) (id : string)
    (prev : list (FoodItem number)) :
  Forall (fun item => Types.id item <> id)
         (MealInput.handleDeleteItem id prev) /\
  (forall newItem,
     Types.id newItem = id ->
     Forall (fun item => Types.id item <> id) prev ->
     MealInput.handleDeleteItem id (MealInput.handleAddItem newItem prev) = prev) /\
  (forall now,
     id = ("manual-" ++ Number_toString now)%string ->
     MealInput.handleDeleteItem id
       (MealInput.handleManualAdd zero now
          (MealInput.handleManualAdd zero now prev)) =
     MealInput.handleDeleteItem id prev).
Proof.
  split; [|split].
  - unfold MealInput.handleDeleteItem. apply List.Forall_forall.
    intros item Hin.
    apply filter_In in Hin as [_ H]. apply negb_true_iff in H.
    intros E. apply String.eqb_neq in H. contradiction.
  - intros newItem Hid Hfresh.
    unfold MealInput.handleAddItem, MealInput.handleDeleteItem.
    rewrite List.filter_app. simpl. rewrite Hid, String.eqb_refl. simpl.
    rewrite app_nil_r. apply delete_absent, Hfresh.
  - intros now ->.
    unfold MealInput.handleManualAdd, MealInput.handleDeleteItem. cbv zeta.
    rewrite !List.filter_app. simpl. rewrite String.eqb_refl. simpl.
    rewrite !app_nil_r. reflexivity.
Qed.

(** X28.  [handleUpdateItem], for a field other than [id], keeps the number,
    the order and the ids of the items, and leaves every item that has
    another id as it is; an item that has the id gets the value in the
    field.  Making the same update twice gives what making it once gives. *)
Theorem update_item_by_id {number : Type} (id : string)
    (fv : MealInput.FieldValue (number:=number))
    (prev : list (FoodItem number)) :
  map Types.id (MealInput.handleUpdateItem id fv prev) = map Types.id prev /\
  (forall n item, nth_error prev n = Some item ->
     nth_error (MealInput.handleUpdateItem id fv prev) n =
       Some (if String.eqb (Types.id item) id
             then MealInput.withField item fv else item)) /\
  MealInput.handleUpdateItem id fv (MealInput.handleUpdateItem id fv prev) =
    MealInput.handleUpdateItem id fv prev.
Proof.
  unfold MealInput.handleUpdateItem. split; [|split].
  - rewrite map_map. apply map_ext. intros item.
    destruct (String.eqb (Types.id item) id); [apply withField_id | reflexivity].
  - intros n item Hn. rewrite nth_error_map, Hn. reflexivity.
  - rewrite map_map. apply map_ext. intros item.
    destruct (String.eqb (Types.id item) id) eqn:E.
    + rewrite withField_id, E. destruct fv; reflexivity.
    + rewrite E. reflexivity.
Qed.

